(** * Signal-Visualizer: signal generation, span selection, fades, playback

    A shallow embedding of the numeric and playback core of the generator
    dialogs (core/generators/generatePureTone.py, generateSquareWave.py,
    generateNoise.py, generateFreeAdd.py) and the properties stated about
    them.

    Conventions.
    - A Python [float] and a NumPy [float64] are binary64 numbers: the
      primitive type [float], whose operations round as the hardware does.
    - A Python [int] is a [Z].
    - A one-dimensional NumPy array is a [list]; where the code shares a
      buffer between arrays (basic slicing) the buffers live in a store and
      an array is a window on one of them (module [Store]).
    - A call that may raise returns a [result].
    - Library functions the repository only imports ([np.cos], [np.sin],
      [scipy.signal.square], the random draw of [colorednoise]) are section
      variables; [np.linspace], [np.searchsorted], [np.argmax], Python's
      [int], [round], [max] and slicing are written out. *)

From Stdlib Require Import String Reals Lra.
From Stdlib Require Import ZArith QArith Qabs List Bool Lia Floats.
Import ListNotations.

Close Scope Q_scope.
Close Scope R_scope.
Close Scope string_scope.

Set Warnings "-inexact-float".

(** ** Exceptions *)

Inductive exn : Type :=
| ValueError
| OverflowError
| IndexError
| AttributeError
| PortAudioError
| KeyboardInterrupt.

(** [except Exception] catches every exception but those that derive
    from [BaseException] alone. *)
Definition is_Exception (e : exn) : bool :=
  match e with
  | KeyboardInterrupt => false
  | _ => true
  end.

Inductive result (A : Type) : Type :=
| Ok (a : A)
| Raise (e : exn).

Arguments Ok {A} a.
Arguments Raise {A} e.

Definition bind {A B : Type} (r : result A) (k : A -> result B) : result B :=
  match r with
  | Ok a => k a
  | Raise e => Raise e
  end.

Notation "x <- r ;; k" := (bind r (fun x => k))
  (at level 61, r at next level, right associativity).

(** ** Binary64 numbers as Python sees them *)

Module Binary64.

Local Open Scope Z_scope.

(** [float(z)] for a Python int: round to nearest even, through the
    machine conversion where the integer fits 63 bits.  Python raises
    OverflowError where this returns an infinity; every product below
    goes through [py_int], which raises OverflowError on an infinity. *)
Definition Z2F (z : Z) : float :=
  if (0 <=? z) && (z <? 2 ^ 63) then of_uint63 (Uint63.of_Z z)
  else if (- 2 ^ 63 <? z) && (z <? 0)
       then (- of_uint63 (Uint63.of_Z (- z)))%float
       else SF2Prim (binary_normalize prec emax z 0 false).

(** The integer part of [m * 2^e], towards zero, for [m > 0]. *)
Definition trunc_mag (m : positive) (e : Z) : Z :=
  if 0 <=? e then Z.shiftl (Zpos m) e else Z.shiftr (Zpos m) (- e).

(** The least integer not below [m * 2^e], for [m > 0]. *)
Definition ceil_mag (m : positive) (e : Z) : Z :=
  if 0 <=? e then Z.shiftl (Zpos m) e
  else - Z.shiftr (- Zpos m) (- e).

(** Python's [int(x)]: truncation towards zero. *)
Definition py_int (x : float) : result Z :=
  match Prim2SF x with
  | S754_zero _ => Ok 0
  | S754_finite s m e =>
      Ok (if s then - trunc_mag m e else trunc_mag m e)
  | S754_infinity _ => Raise OverflowError
  | S754_nan => Raise ValueError
  end.

(** The mathematical floor of a finite binary64 number. *)
Definition floor (x : float) : option Z :=
  match Prim2SF x with
  | S754_zero _ => Some 0
  | S754_finite s m e =>
      Some (if s then - ceil_mag m e else trunc_mag m e)
  | S754_infinity _ | S754_nan => None
  end.

Definition finite (x : float) : bool :=
  match Prim2SF x with
  | S754_zero _ | S754_finite _ _ _ => true
  | S754_infinity _ | S754_nan => false
  end.

(** [x == 0] in Python: both zeros. *)
Definition is_zero_val (x : float) : bool :=
  match Prim2SF x with
  | S754_zero _ => true
  | _ => false
  end.

(** The order of binary64 numbers, as a lexicographic order on
    (class, exponent, mantissa); a NaN has no place in it. *)
Definition key (x : float) : option (Z * Z * Z) :=
  match Prim2SF x with
  | S754_nan => None
  | S754_infinity true => Some (-2, 0, 0)
  | S754_finite true m e => Some (-1, - e, - Zpos m)
  | S754_zero _ => Some (0, 0, 0)
  | S754_finite false m e => Some (1, e, Zpos m)
  | S754_infinity false => Some (2, 0, 0)
  end.

Definition klt (a b : Z * Z * Z) : Prop :=
  let '(a1, a2, a3) := a in
  let '(b1, b2, b3) := b in
  a1 < b1 \/ (a1 = b1 /\ (a2 < b2 \/ (a2 = b2 /\ a3 < b3))).

Definition kle (a b : Z * Z * Z) : Prop := klt a b \/ a = b.

End Binary64.

(** ** NumPy *)

Module Numpy.

Import Binary64.
Local Open Scope float_scope.

Definition np_pi : float := 0x1.921fb54442d18p+1.

(** [np.arange(0, num)] as float64. *)
Definition arange (num : Z) : list float :=
  map (fun i => Z2F (Z.of_nat i)) (seq 0 (Z.to_nat num)).

Fixpoint set_last (y : list float) (v : float) : list float :=
  match y with
  | [] => []
  | [_] => [v]
  | a :: rest => a :: set_last rest v
  end.

(** [np.linspace(start, stop, num, endpoint)] for scalar bounds,
    following numpy/_core/function_base.py. *)
Definition linspace (start stop : float) (num : Z) (endpoint : bool)
  : result (list float) :=
  if (num <? 0)%Z then Raise ValueError
  else
    let div := if endpoint then (num - 1)%Z else num in
    let y := arange num in
    let delta := stop - start in
    let y :=
      if (0 <? div)%Z then
        let step := delta / Z2F div in
        if step =? 0 then map (fun v => (v / Z2F div) * delta) y
        else map (fun v => v * step) y
      else map (fun v => v * delta) y in
    let y := map (fun v => v + start) y in
    Ok (if endpoint && (1 <? num)%Z then set_last y stop else y).

(** The first item of [np.linspace(start, stop, div + 1)] when [div] is
    at least 1. *)
Definition linspace_first (start stop : float) (div : Z) : float :=
  let delta := stop - start in
  let step := delta / Z2F div in
  (if step =? 0 then (Z2F 0 / Z2F div) * delta else Z2F 0 * step) + start.

(** Item [i] of [np.linspace(start, stop, num)] for [num] of 2 or more
    and a step that is not zero: the last one is [stop] itself. *)
Definition linspace_item (start stop : float) (num : Z) (i : nat) : float :=
  if (Z.of_nat i =? num - 1)%Z then stop
  else Z2F (Z.of_nat i) * ((stop - start) / Z2F (num - 1)) + start.

(** The order NumPy sorts and searches float64 with: NaNs last. *)
Definition np_less (a b : float) : bool :=
  (a <? b) || (is_nan b && negb (is_nan a)).

(** The binary search of [np.searchsorted(arr, key_val)], side 'left'
    (numpy/_core/src/npysort/binsearch.cpp), one key at a time. *)
Fixpoint binsearch_left (fuel : nat) (arr : list float) (key_val : float)
         (min_idx max_idx : nat) : nat :=
  match fuel with
  | O => min_idx
  | S fuel' =>
      if (min_idx <? max_idx)%nat then
        let mid_idx := (min_idx + (max_idx - min_idx) / 2)%nat in
        if np_less (nth mid_idx arr nan) key_val
        then binsearch_left fuel' arr key_val (S mid_idx) max_idx
        else binsearch_left fuel' arr key_val min_idx mid_idx
      else min_idx
  end.

Definition searchsorted (arr : list float) (v : float) : nat :=
  binsearch_left (length arr) arr v 0 (length arr).

(** [np.searchsorted(arr, (v1, v2))]. *)
Definition searchsorted2 (arr : list float) (v : float * float) : nat * nat :=
  (searchsorted arr (fst v), searchsorted arr (snd v)).

(** [time >= x]. *)
Definition ge_mask (time : list float) (x : float) : list bool :=
  map (fun t => x <=? t) time.

Fixpoint first_true (mask : list bool) : option nat :=
  match mask with
  | [] => None
  | b :: rest => if b then Some O else option_map S (first_true rest)
  end.

(** [np.argmax] of a boolean array: the first [True], index 0 when there
    is none; an empty array raises. *)
Definition argmax (mask : list bool) : result nat :=
  match mask with
  | [] => Raise ValueError
  | _ => Ok (match first_true mask with Some i => i | None => O end)
  end.

(** [a[lo:hi]] for indices that are not negative. *)
Definition slice {A : Type} (a : list A) (lo hi : nat) : list A :=
  firstn (hi - lo) (skipn lo a).

(** Python's built-in [max] over a sequence: the first greatest item. *)
Fixpoint py_max_from (best : float) (l : list float) : float :=
  match l with
  | [] => best
  | x :: rest => py_max_from (if best <? x then x else best) rest
  end.

Definition py_max (l : list float) : result float :=
  match l with
  | [] => Raise ValueError
  | x :: rest => Ok (py_max_from x rest)
  end.

End Numpy.

(** ** sounddevice and the console *)

Module Sounddevice.

(** What the program asks of the outside world, in order. *)
Inductive event : Type :=
| sd_stop
| sd_play (data : list float) (samplerate : option Z) (blocking : bool)
| sd_wait
| print_error (e : exn).

Definition log := list event.

(** The device decides, call by call, whether the call succeeds: the
    argument is the number of events before it. *)
Definition device := nat -> option exn.

Definition io (A : Type) := device -> log -> result A * log.

Definition call (ev : event) : io unit :=
  fun dev l =>
    (match dev (length l) with None => Ok tt | Some e => Raise e end,
     l ++ [ev]).

Definition print (e : exn) : io unit :=
  fun _ l => (Ok tt, l ++ [print_error e]).

Definition seq_io {A : Type} (a : io unit) (b : io A) : io A :=
  fun dev l =>
    match a dev l with
    | (Ok _, l1) => b dev l1
    | (Raise e, l1) => (Raise e, l1)
    end.

(** [try: body / except Exception as e: print(e)]. *)
Definition try_print (body : io unit) : io unit :=
  fun dev l =>
    match body dev l with
    | (Ok _, l1) => (Ok tt, l1)
    | (Raise e, l1) =>
        if is_Exception e then print e dev l1 else (Raise e, l1)
    end.

Definition is_stop (ev : event) : bool :=
  match ev with sd_stop => true | _ => false end.

Definition is_play (ev : event) : bool :=
  match ev with sd_play _ _ _ => true | _ => false end.

(** In a trace, every play comes right after a stop. *)
Fixpoint stop_before_play (l : log) : bool :=
  match l with
  | [] => true
  | sd_stop :: ((sd_play _ _ _ :: rest) as tl) => stop_before_play rest
  | sd_play _ _ _ :: _ => false
  | _ :: rest => stop_before_play rest
  end.

(** *** The stream behind the calls

    sounddevice keeps the stream of the last [play] in [_last_callback].
    [stop()] stops and closes that stream.  [play()] checks its data,
    calls [stop()] itself ([_CallbackContext.start_stream]: "Stop previous
    playback/recording"), then opens and starts a stream on the new data
    and, when [blocking], waits for its end.  [wait()] waits for the end
    of the stream and closes it. *)

(** What plays: the samples and the rate they were submitted with. *)
Definition playback : Type := (list float * option Z)%type.

(** What happens to the output, in order. *)
Inductive stream_op : Type :=
| halted (previous : option playback)   (* [stop()], and what it cut short *)
| started (x : playback)
| finished (x : playback).              (* played to its end *)

(** One call, on the stream [playing]; [raised] is what the call raises.
    A [play] that raises [PortAudioError] failed to open its stream, after
    the stop; with any other exception it was left before the stop.  The
    other calls, when they raise, leave the stream as it is. *)
Definition perform (ev : event) (raised : option exn)
           (playing : option playback)
  : option playback * list stream_op :=
  match ev, raised with
  | sd_stop, None => (None, [halted playing])
  | sd_play data samplerate blocking, None =>
      let x := (data, samplerate) in
      if blocking then (None, [halted playing; started x; finished x])
      else (Some x, [halted playing; started x])
  | sd_play _ _ _, Some PortAudioError => (None, [halted playing])
  | sd_wait, None =>
      (None, match playing with Some x => [finished x] | None => [] end)
  | _, _ => (playing, [])
  end.

(** The calls [events], logged from position [n] on, carried out on the
    stream: what plays in the end, and what happened to the output. *)
Fixpoint carry_out (dev : device) (n : nat) (events : list event)
         (playing : option playback)
  : option playback * list stream_op :=
  match events with
  | [] => (playing, [])
  | ev :: rest =>
      let '(playing1, ops1) := perform ev (dev n) playing in
      let '(playing2, ops2) := carry_out dev (S n) rest playing1 in
      (playing2, ops1 ++ ops2)
  end.



End Sounddevice.

(** ** Arrays that share buffers *)

Module Store.

(** A one-dimensional array: a window on a buffer of the store. *)
Record ndarray : Type := { base : nat; off : nat; len : nat }.

Definition heap := list (list float).

Definition buffer (h : heap) (b : nat) : list float := nth b h [].

Definition read (h : heap) (a : ndarray) : list float :=
  firstn (len a) (skipn (off a) (buffer h (base a))).

(** A fresh array owning its buffer. *)
Definition alloc (h : heap) (data : list float) : heap * ndarray :=
  (h ++ [data], {| base := length h; off := 0; len := length data |}).

(** [a.copy()]. *)
Definition copy (h : heap) (a : ndarray) : heap * ndarray :=
  alloc h (read h a).

(** Where a slice bound lands in an array of [n] items. *)
Definition norm_index (i : Z) (n : nat) : nat :=
  if (i <? 0)%Z then Z.to_nat (Z.max 0 (i + Z.of_nat n))
  else Nat.min (Z.to_nat i) n.

(** [a[lo:hi]]: basic slicing, a window on the same buffer; [None] is
    an omitted bound. *)
Definition view (a : ndarray) (lo hi : option Z) : ndarray :=
  let l := match lo with Some i => norm_index i (len a) | None => O end in
  let u := match hi with Some i => norm_index i (len a) | None => len a end in
  {| base := base a; off := off a + l; len := u - l |}.

Fixpoint set_nth {A : Type} (n : nat) (x : A) (l : list A) : list A :=
  match n, l with
  | _, [] => []
  | O, _ :: rest => x :: rest
  | S n', a :: rest => a :: set_nth n' x rest
  end.

Fixpoint mul_zip (xs factors : list float) : list float :=
  match xs, factors with
  | x :: xs', f :: fs' => (x * f)%float :: mul_zip xs' fs'
  | _, _ => []
  end.

(** [a *= factors]: in place, through the window, on the buffer; a
    single factor is broadcast, any other mismatch of lengths raises. *)
Definition imul (h : heap) (a : ndarray) (factors : list float)
  : result heap :=
  let write fs :=
    let buf := buffer h (base a) in
    let buf' := firstn (off a) buf
                ++ mul_zip (firstn (len a) (skipn (off a) buf)) fs
                ++ skipn (off a + len a) buf in
    Ok (set_nth (base a) buf' h) in
  if (length factors =? len a)%nat then write factors
  else match factors with
       | [f] => write (repeat f (len a))
       | _ => Raise ValueError
       end.

End Store.

(** ** Widgets *)

Module Qt.

Local Open Scope Z_scope.

(** [QSlider.setValue] and [QSpinBox.setValue] keep the value in the
    widget's range. *)
Definition setValue (lo hi v : Z) : Z := Z.max lo (Z.min hi v).

End Qt.

(** ** From a dragged span to sample indices *)

Module SpanMapper.

Import Numpy.

(** generatePureTone.py 183-184, generateSquareWave.py 159-160:
    [idx_min = np.argmax(time >= xmin); idx_max = np.argmax(time >= xmax)]. *)
Definition by_argmax (time : list float) (xmin xmax : float)
  : result (nat * nat) :=
  idx_min <- argmax (ge_mask time xmin) ;;
  idx_max <- argmax (ge_mask time xmax) ;;
  Ok (idx_min, idx_max).

(** generateNoise.py 308, generateFreeAdd.py 567:
    [ini, end = np.searchsorted(time, (xmin, xmax))]. *)
Definition by_searchsorted (time : list float) (xmin xmax : float)
  : nat * nat :=
  searchsorted2 time (xmin, xmax).

(** What the span mapper is meant to find: the least index whose time
    is not below [x]. *)
Definition first_ge (time : list float) (x : float) (i : nat) : Prop :=
  (i < length time)%nat /\
  (x <=? nth i time nan)%float = true /\
  forall j, (j < i)%nat -> (x <=? nth j time nan)%float = false.

(** A time axis that never decreases. *)
Definition increasing (time : list float) : Prop :=
  forall i j, (i <= j)%nat -> (j < length time)%nat ->
              (nth i time nan <=? nth j time nan)%float = true.

(** The same, as a test on adjacent items. *)
Fixpoint increasingb (time : list float) : bool :=
  match time with
  | [] => true
  | a :: rest =>
      match rest with
      | [] => (a <=? a)%float
      | b :: _ => (a <=? b)%float && increasingb rest
      end
  end.

End SpanMapper.

(** ** Pure tone (generatePureTone.py) *)

Module PureTone.

Import Binary64 Numpy Sounddevice.
Local Open Scope float_scope.

(** The dialog: the sliders hold integers, hundredths for all but the
    frequency. *)
Record t : Type := {
  selectedAudio : list float;
  Duration : Z;
  Offset : Z;
  Amplitude : Z;
  Frequency : Z;
  Phase : Z;
  fs : Z
}.

Section Generator.

Variable np_cos : float -> float.

(** Lines 335-338 of [plotPureTone]: the time axis and the tone. *)
Definition tone (duration amplitude phase offset : float)
           (frequency fs : Z) : result (list float * list float) :=
  samples <- py_int (duration * Z2F fs) ;;
  time <- linspace 0 duration samples false ;;
  Ok (time,
      map (fun t => amplitude
                    * np_cos (2 * np_pi * Z2F frequency * t + phase * np_pi)
                    + offset) time).

Definition plotPureTone (self : t) : result t :=
  let duration := Z2F (Duration self) / 100 in
  let amplitude := Z2F (Amplitude self) / 100 in
  let frequency := Frequency self in
  let phase := Z2F (Phase self) / 100 in
  let offset := Z2F (Offset self) / 100 in
  r <- tone duration amplitude phase offset frequency (fs self) ;;
  Ok {| selectedAudio := snd r;
        Duration := Duration self; Offset := Offset self;
        Amplitude := Amplitude self; Frequency := Frequency self;
        Phase := Phase self; fs := fs self |}.

End Generator.

Definition on_select_region (self : t) (xmin xmax : float) : io unit :=
  fun dev l =>
    if (length (selectedAudio self) <=? 1)%nat then (Ok tt, l)
    else
      let duration := Z2F (Duration self) / 100 in
      match
        time <- linspace 0 duration
                  (Z.of_nat (length (selectedAudio self))) false ;;
        SpanMapper.by_argmax time xmin xmax
      with
      | Raise e => (Raise e, l)
      | Ok (idx_min, idx_max) =>
          seq_io (call sd_stop)
                 (call (sd_play (slice (selectedAudio self) idx_min idx_max)
                                (Some (fs self)) false)) dev l
      end.

End PureTone.

(** ** Square wave (generateSquareWave.py) *)

Module SquareWave.

Import Binary64 Numpy Sounddevice.
Local Open Scope float_scope.

Record t : Type := {
  selectedAudio : list float;
  Duration : Z;
  Offset : Z;
  Amplitude : Z;
  Frequency : Z;
  Phase : Z;
  DutyCycle : Z;
  fs : Z
}.

Section Generator.

(** [scipy.signal.square(x, duty=duty)], item by item. *)
Variable signal_square : float -> float -> float.

(** Lines 297-300 of [plotSquareWave]. *)
Definition wave (duration amplitude phase offset duty : float)
           (frequency fs : Z) : result (list float * list float) :=
  samples <- py_int (duration * Z2F fs) ;;
  time <- linspace 0 duration samples false ;;
  Ok (time,
      map (fun t => amplitude
                    * signal_square duty
                        (2 * np_pi * Z2F frequency * t + phase * np_pi)
                    + offset) time).

Definition plotSquareWave (self : t) : result t :=
  let duration := Z2F (Duration self) / 100 in
  let amplitude := Z2F (Amplitude self) / 100 in
  let frequency := Frequency self in
  let phase := Z2F (Phase self) / 100 in
  let offset := Z2F (Offset self) / 100 in
  let duty := Z2F (DutyCycle self) / 100 in
  r <- wave duration amplitude phase offset duty frequency (fs self) ;;
  Ok {| selectedAudio := snd r;
        Duration := Duration self; Offset := Offset self;
        Amplitude := Amplitude self; Frequency := Frequency self;
        Phase := Phase self; DutyCycle := DutyCycle self;
        fs := fs self |}.

End Generator.

Definition on_select_region (self : t) (xmin xmax : float) : io unit :=
  fun dev l =>
    if (length (selectedAudio self) <=? 1)%nat then (Ok tt, l)
    else
      let duration := Z2F (Duration self) / 100 in
      match
        time <- linspace 0 duration
                  (Z.of_nat (length (selectedAudio self))) false ;;
        SpanMapper.by_argmax time xmin xmax
      with
      | Raise e => (Raise e, l)
      | Ok (idx_min, idx_max) =>
          seq_io (call sd_stop)
                 (call (sd_play (slice (selectedAudio self) idx_min idx_max)
                                (Some (fs self)) false)) dev l
      end.

End SquareWave.

(** ** Noise (generateNoise.py) *)

Module Noise.

Import Binary64 Numpy Sounddevice.
Local Open Scope float_scope.

Inductive warning : Type :=
| WrongSampleFrequency
| InvalidInput.

(** The widget.  [fs_entry] is the text of the sample-rate field as
    [int] reads it: [None] when it is not an integer.  [time] and
    [audio] exist once a plot has succeeded. *)
Record t : Type := {
  duration : float;
  amplitude : float;
  fs : Z;
  fs_entry : option Z;
  type_combo : string;
  time : option (list float);
  audio : option (list float);
  selectedAudio : list float;
  warnings : list warning
}.

Definition set_fs (self : t) (v : Z) (entry : option Z) : t :=
  {| duration := duration self; amplitude := amplitude self;
     fs := v; fs_entry := entry; type_combo := type_combo self;
     time := time self; audio := audio self;
     selectedAudio := selectedAudio self; warnings := warnings self |}.

Definition warn (self : t) (w : warning) : t :=
  {| duration := duration self; amplitude := amplitude self;
     fs := fs self; fs_entry := fs_entry self;
     type_combo := type_combo self;
     time := time self; audio := audio self;
     selectedAudio := selectedAudio self;
     warnings := warnings self ++ [w] |}.

Definition set_time (self : t) (v : list float) : t :=
  {| duration := duration self; amplitude := amplitude self;
     fs := fs self; fs_entry := fs_entry self;
     type_combo := type_combo self;
     time := Some v; audio := audio self;
     selectedAudio := selectedAudio self; warnings := warnings self |}.

Definition set_audio (self : t) (v : list float) : t :=
  {| duration := duration self; amplitude := amplitude self;
     fs := fs self; fs_entry := fs_entry self;
     type_combo := type_combo self;
     time := time self; audio := Some v;
     selectedAudio := selectedAudio self; warnings := warnings self |}.

Definition set_selectedAudio (self : t) (v : list float) : t :=
  {| duration := duration self; amplitude := amplitude self;
     fs := fs self; fs_entry := fs_entry self;
     type_combo := type_combo self;
     time := time self; audio := audio self;
     selectedAudio := v; warnings := warnings self |}.

(** [{"White noise": 0, "Pink noise": 1, "Brown noise": 2}.get(choice, 1)]. *)
Definition beta_of (choice : string) : Z :=
  if String.eqb choice "White noise" then 0%Z
  else if String.eqb choice "Pink noise" then 1%Z
  else if String.eqb choice "Brown noise" then 2%Z
  else 1%Z.

(** Line 281: [amplitude * noise_raw / max(abs(noise_raw))]. *)
Definition normalize (amplitude : float) (noise_raw : list float)
  : result (list float) :=
  peak <- py_max (map abs noise_raw) ;;
  Ok (map (fun x => amplitude * x / peak) noise_raw).


Section Generator.

(** [cn.powerlaw_psd_gaussian(beta, samples)]: one random draw, or the
    exception the library raises (it does for a single sample). *)
Variable powerlaw_psd_gaussian : Z -> Z -> result (list float).

(** [plot_noise]: the widget afterwards, and how the call ended. *)
Definition plot_noise (self : t) : t * result unit :=
  match fs_entry self with
  | None => (warn self InvalidInput, Ok tt)
  | Some v =>
      let self := set_fs self v (fs_entry self) in
      if (48000 <? v)%Z then
        (warn (set_fs self 48000%Z (Some 48000%Z)) WrongSampleFrequency,
         Ok tt)
      else
        let choice := type_combo self in
        match py_int (duration self * Z2F (fs self)) with
        | Raise e => (self, Raise e)
        | Ok samples =>
            let beta := beta_of choice in
            match linspace 0 (duration self) samples false with
            | Raise e => (self, Raise e)
            | Ok time =>
                let self := set_time self time in
                match powerlaw_psd_gaussian beta samples with
                | Raise e => (self, Raise e)
                | Ok noise_raw =>
                    match normalize (amplitude self) noise_raw with
                    | Raise e => (self, Raise e)
                    | Ok audio => (set_audio self audio, Ok tt)
                    end
                end
            end
        end
  end.

End Generator.

Definition listen_fragment (self : t) (xmin xmax : float) : t * io unit :=
  match time self, audio self with
  | Some time, Some audio =>
      let '(ini, end_) := SpanMapper.by_searchsorted time xmin xmax in
      let self := set_selectedAudio self (slice audio ini (end_ + 1)) in
      (self, call (sd_play (selectedAudio self) (Some (fs self)) false))
  | _, _ => (self, fun _ l => (Raise AttributeError, l))
  end.

(** *** The same normalisation in exact arithmetic

    Line 281 read over the rationals, where no operation rounds. *)




End Noise.

(** ** The piano's frequencies

    [2 ** x] is the one operation of the program binary64 here has no
    counterpart for; the note frequencies are therefore computed over the
    reals, and rounded to the integer the spin box takes. *)

Module Piano.

Local Open Scope R_scope.

Definition midi_note (note_value octave : Z) : Z :=
  (note_value + octave * 12)%Z.

(** [440 * (2 ** ((midi_note - 69) / 12))]. *)
Definition fundfreq (midi_note : Z) : R :=
  440 * Rpower 2 ((IZR midi_note - 69) / 12).

(** Python's [round(x)]: to the nearest integer, a tie to the even one. *)
Definition py_round (x : R) : Z :=
  let n := Int_part x in
  if Rlt_dec (x - IZR n) (1 / 2) then n
  else if Rlt_dec (1 / 2) (x - IZR n) then (n + 1)%Z
       else if Z.even n then n else (n + 1)%Z.

End Piano.

(** ** Free addition of pure tones (generateFreeAdd.py) *)

Module FreeAdd.

Import Binary64 Numpy Sounddevice Store.
Local Open Scope float_scope.

(** An entry of [audio_queue]: the pair [(signal, fs)]; the sentinel is
    [(None, None)]. *)
Definition item : Type := option (list float) * option Z.

(** The dialog.  [octave_spinbox] exists once the piano has been shown;
    [span_time] is the [time] array the span selector's callback closes
    over. *)
Record t : Type := {
  fs : Z;
  freq_spinboxes : list Z;
  amp_sliders : list Z;
  dur_slider : Z;
  octave_spinbox : option Z;
  full_audio : ndarray;
  selectedAudio : ndarray;
  audio_duration : float;
  selected_span : option (float * float);
  span_time : list float;
  audio_queue : list item
}.

Definition set_freq_spinboxes (self : t) (v : list Z) : t :=
  {| fs := fs self; freq_spinboxes := v; amp_sliders := amp_sliders self;
     dur_slider := dur_slider self; octave_spinbox := octave_spinbox self;
     full_audio := full_audio self; selectedAudio := selectedAudio self;
     audio_duration := audio_duration self;
     selected_span := selected_span self; span_time := span_time self;
     audio_queue := audio_queue self |}.

Definition set_amp_sliders (self : t) (v : list Z) : t :=
  {| fs := fs self; freq_spinboxes := freq_spinboxes self; amp_sliders := v;
     dur_slider := dur_slider self; octave_spinbox := octave_spinbox self;
     full_audio := full_audio self; selectedAudio := selectedAudio self;
     audio_duration := audio_duration self;
     selected_span := selected_span self; span_time := span_time self;
     audio_queue := audio_queue self |}.

Definition set_full_audio (self : t) (a : ndarray) (d : float) : t :=
  {| fs := fs self; freq_spinboxes := freq_spinboxes self;
     amp_sliders := amp_sliders self;
     dur_slider := dur_slider self; octave_spinbox := octave_spinbox self;
     full_audio := a; selectedAudio := selectedAudio self;
     audio_duration := d;
     selected_span := selected_span self; span_time := span_time self;
     audio_queue := audio_queue self |}.

Definition set_span_time (self : t) (v : list float) : t :=
  {| fs := fs self; freq_spinboxes := freq_spinboxes self;
     amp_sliders := amp_sliders self;
     dur_slider := dur_slider self; octave_spinbox := octave_spinbox self;
     full_audio := full_audio self; selectedAudio := selectedAudio self;
     audio_duration := audio_duration self;
     selected_span := selected_span self; span_time := v;
     audio_queue := audio_queue self |}.

Definition set_selected_span (self : t) (v : float * float) : t :=
  {| fs := fs self; freq_spinboxes := freq_spinboxes self;
     amp_sliders := amp_sliders self;
     dur_slider := dur_slider self; octave_spinbox := octave_spinbox self;
     full_audio := full_audio self; selectedAudio := selectedAudio self;
     audio_duration := audio_duration self;
     selected_span := Some v; span_time := span_time self;
     audio_queue := audio_queue self |}.

Definition set_selectedAudio (self : t) (a : ndarray) : t :=
  {| fs := fs self; freq_spinboxes := freq_spinboxes self;
     amp_sliders := amp_sliders self;
     dur_slider := dur_slider self; octave_spinbox := octave_spinbox self;
     full_audio := full_audio self; selectedAudio := a;
     audio_duration := audio_duration self;
     selected_span := selected_span self; span_time := span_time self;
     audio_queue := audio_queue self |}.

Definition set_audio_queue (self : t) (q : list item) : t :=
  {| fs := fs self; freq_spinboxes := freq_spinboxes self;
     amp_sliders := amp_sliders self;
     dur_slider := dur_slider self; octave_spinbox := octave_spinbox self;
     full_audio := full_audio self; selectedAudio := selectedAudio self;
     audio_duration := audio_duration self;
     selected_span := selected_span self; span_time := span_time self;
     audio_queue := q |}.

Definition getFrequencies (self : t) : list Z := freq_spinboxes self.

Definition getAmplitudes (self : t) : list float :=
  map (fun v => Z2F v / 100) (amp_sliders self).

Definition getDuration (self : t) : float := Z2F (dur_slider self) / 100.

(** *** Synthesis *)

Section Generator.

Variable np_sin : float -> float.

Fixpoint add_zip (xs ys : list float) : list float :=
  match xs, ys with
  | x :: xs', y :: ys' => (x + y) :: add_zip xs' ys'
  | _, _ => xs
  end.

(** One turn of the loop of lines 511-513. *)
Definition add_tone (time signal : list float) (tone : Z * float)
  : list float :=
  let '(freq, amp) := tone in
  if (0 <? freq)%Z then
    add_zip signal
            (map (fun t => amp * np_sin (2 * np_pi * Z2F freq * t)) time)
  else signal.

(** Lines 502-513 of [plotFAPT]: the time axis and the sum of tones. *)
Definition synthesize (duration : float) (fs : Z) (freqs : list Z)
           (amps : list float) : result (list float * list float) :=
  samples <- py_int (duration * Z2F fs) ;;
  time <- linspace 0 duration samples false ;;
  let signal := repeat 0 (Z.to_nat samples) in
  Ok (time, fold_left (add_tone time) (combine freqs amps) signal).

(** [addLoadButton(audio, duration)]: what it stores; the span
    selector it creates keeps [time]. *)
Definition addLoadButton (self : t) (audio : ndarray) (duration : float)
  : t * result unit :=
  let self := set_full_audio self audio duration in
  match linspace 0 duration (Z.of_nat (len audio)) false with
  | Raise e => (self, Raise e)
  | Ok time => (set_span_time self time, Ok tt)
  end.

(** [plotFAPT]: the store and the dialog afterwards, and how the call
    ended. *)
Definition plotFAPT (h : heap) (self : t) : (heap * t) * result unit :=
  let duration := getDuration self in
  match synthesize duration (fs self)
                   (getFrequencies self) (getAmplitudes self) with
  | Raise e => ((h, self), Raise e)
  | Ok (time, signal) =>
      let '(h1, arr) := alloc h signal in
      let self := set_full_audio self arr duration in
      match py_max (map abs signal) with
      | Raise e => ((h1, self), Raise e)
      | Ok _ =>
          let '(self, r) := addLoadButton self arr duration in
          ((h1, self), r)
      end
  end.

(** *** The piano *)

Definition harmonics : list (Z * float) :=
  [(2%Z, 0.83); (3%Z, 0.67); (4%Z, 0.5); (5%Z, 0.33); (6%Z, 0.17)].

(** [self.freq_spinboxes[i].setValue(v)]. *)
Definition spin_setValue (self : t) (i : nat) (v : Z) : t * result unit :=
  if (i <? length (freq_spinboxes self))%nat then
    (set_freq_spinboxes self
       (set_nth i (Qt.setValue 0 24000 v) (freq_spinboxes self)), Ok tt)
  else (self, Raise IndexError).

(** [self.amp_sliders[i].setValue(v)]. *)
Definition slider_setValue (self : t) (i : nat) (v : Z)
  : t * result unit :=
  if (i <? length (amp_sliders self))%nat then
    (set_amp_sliders self
       (set_nth i (Qt.setValue 0 100 v) (amp_sliders self)), Ok tt)
  else (self, Raise IndexError).

(** The loop of lines 477-481, from index [i] on. *)
Fixpoint set_harmonics (fundfreq : R) (i : nat) (hs : list (Z * float))
         (self : t) : t * result unit :=
  match hs with
  | [] => (self, Ok tt)
  | (multiple, amp) :: rest =>
      if (i <? length (freq_spinboxes self))%nat then
        let freq := (fundfreq * IZR multiple)%R in
        match spin_setValue self i (Piano.py_round freq) with
        | (self, Raise e) => (self, Raise e)
        | (self, Ok _) =>
            match py_int (amp * 100) with
            | Raise e => (self, Raise e)
            | Ok a =>
                match slider_setValue self i a with
                | (self, Raise e) => (self, Raise e)
                | (self, Ok _) => set_harmonics fundfreq (S i) rest self
                end
            end
        end
      else set_harmonics fundfreq (S i) rest self
  end.

(** The body of the [try] of [notesHarmonics]. *)
Definition notesHarmonics_body (h : heap) (self : t) (note_value : Z)
  : (heap * t) * result unit :=
  match octave_spinbox self with
  | None => ((h, self), Raise AttributeError)
  | Some octave =>
      let midi_note := Piano.midi_note note_value octave in
      let fundfreq := Piano.fundfreq midi_note in
      match spin_setValue self 0 (Piano.py_round fundfreq) with
      | (self, Raise e) => ((h, self), Raise e)
      | (self, Ok _) =>
          match slider_setValue self 0 100 with
          | (self, Raise e) => ((h, self), Raise e)
          | (self, Ok _) =>
              match set_harmonics fundfreq 1 harmonics self with
              | (self, Raise e) => ((h, self), Raise e)
              | (self, Ok _) => plotFAPT h self
              end
          end
      end
  end.

(** [notesHarmonics(note_value)]: an [Exception] is printed. *)
Definition notesHarmonics (h : heap) (self : t) (note_value : Z)
  : (heap * t) * io unit :=
  match notesHarmonics_body h self note_value with
  | (st, Ok _) => (st, fun _ l => (Ok tt, l))
  | (st, Raise e) =>
      (st, if is_Exception e then print e else fun _ l => (Raise e, l))
  end.

End Generator.

(** *** Selecting a span: extraction, fade, preview *)

(** Line 574: [min(int(0.02 * self.fs), len(selected_audio)//4)]. *)
Definition fade_samples_of (fs : Z) (n : nat) : result Z :=
  k <- py_int (0.02 * Z2F fs) ;;
  Ok (Z.min k (Z.of_nat n / 4)).

(** [np.linspace(0, 1, fade_samples) ** 2]. *)
Definition fade_in_of (fade_samples : Z) : result (list float) :=
  y <- linspace 0 1 fade_samples true ;;
  Ok (map (fun v => v * v) y).

(** [np.linspace(1, 0, fade_samples) ** 2]. *)
Definition fade_out_of (fade_samples : Z) : result (list float) :=
  y <- linspace 1 0 fade_samples true ;;
  Ok (map (fun v => v * v) y).

(** Lines 574-579: the fade, in place on [selected_audio]. *)
Definition apply_fade (h : heap) (fs : Z) (selected_audio : ndarray)
  : result heap :=
  fade_samples <- fade_samples_of fs (len selected_audio) ;;
  if (0 <? fade_samples)%Z then
    fade_in <- fade_in_of fade_samples ;;
    fade_out <- fade_out_of fade_samples ;;
    h1 <- imul h (view selected_audio None (Some fade_samples)) fade_in ;;
    imul h1 (view selected_audio (Some (- fade_samples)%Z) None) fade_out
  else Ok h.

(** [onselect(xmin, xmax)], the callback [addLoadButton] creates. *)
Definition onselect (h : heap) (self : t) (xmin xmax : float)
  : (heap * t) * io unit :=
  if (len (full_audio self) <=? 1)%nat then
    ((h, self), fun _ l => (Ok tt, l))
  else
    let '(ini, end_) :=
      SpanMapper.by_searchsorted (span_time self) xmin xmax in
    let '(h1, selected_audio) :=
      copy h (view (full_audio self) (Some (Z.of_nat ini))
                   (Some (Z.of_nat end_ + 1)%Z)) in
    let self := set_selected_span self (xmin, xmax) in
    match apply_fade h1 (fs self) selected_audio with
    | Raise e => ((h1, self), fun _ l => (Raise e, l))
    | Ok h2 =>
        let self := set_selectedAudio self selected_audio in
        ((h2, self),
         try_print
           (seq_io (call sd_stop)
                   (call (sd_play (read h2 selected_audio)
                                  (Some (fs self)) false))))
    end.

(** The integers [lo], [lo + 1], ..., [n] of them. *)
Fixpoint zrange (lo : Z) (n : nat) : list Z :=
  match n with
  | O => []
  | S n' => lo :: zrange (lo + 1) n'
  end.

(** For a sample rate [fs], [int(0.02 * fs)] is the floor of the product
    and lies between 0 and 960. *)
Definition fade_length_ok (fs : Z) : bool :=
  match py_int (0.02 * Z2F fs), floor (0.02 * Z2F fs) with
  | Ok k, Some k' => (k =? k')%Z && (0 <=? k)%Z && (k <=? 960)%Z
  | _, _ => false
  end.

(** The fade-in over [div + 1] samples starts at zero. *)
Definition fade_in_starts_at_zero (div : Z) : bool :=
  let v := linspace_first 0 1 div in is_zero_val (v * v).

(** Item [i] of [np.linspace(start, stop, fade_samples) ** 2]. *)
Definition ramp_item (start stop : float) (fade_samples : Z) (i : nat)
  : float :=
  let v := linspace_item start stop fade_samples i in v * v.

(** Neither ramp over [div + 1] samples has a zero step. *)
Definition fade_steps_ok (div : Z) : bool :=
  negb ((1 - 0) / Z2F div =? 0) && negb ((0 - 1) / Z2F div =? 0).

(** *** The playback worker *)

Inductive status : Type :=
| Waiting                (* blocked in [audio_queue.get()] *)
| Stopped                (* left the loop through [break] *)
| Crashed (e : exn).     (* an exception left the loop *)

(** [_audio_worker]: the queue holds what is and will be put on it, in
    order; the result is how the thread ends up, what it left on the
    queue, and the calls it made. *)
Fixpoint _audio_worker (queue : list item) (dev : device) (l : log)
  : (status * list item) * log :=
  match queue with
  | [] => ((Waiting, []), l)
  | (signal, fs) :: rest =>
      match signal with
      | None => ((Stopped, rest), l)
      | Some data =>
          match try_print (seq_io (call (sd_play data fs true))
                                  (call sd_wait)) dev l with
          | (Ok _, l1) => _audio_worker rest dev l1
          | (Raise e, l1) => ((Crashed e, rest), l1)
          end
      end
  end.

(** [closeEvent]: what it puts on the queue. *)
Definition closeEvent (self : t) : t :=
  set_audio_queue self (audio_queue self ++ [(None, None)]).

(** *** Words for the worker's properties *)

(** What one request adds to the log. *)
Definition request_events (dev : device) (l : log) (data : list float)
           (fs : option Z) : list event :=
  match dev (length l) with
  | Some e => [sd_play data fs true; print_error e]
  | None =>
      match dev (S (length l)) with
      | Some e => [sd_play data fs true; sd_wait; print_error e]
      | None => [sd_play data fs true; sd_wait]
      end
  end.

(** A device that raises nothing but [Exception]s. *)
Definition raises_exceptions (dev : device) : Prop :=
  forall n e, dev n = Some e -> is_Exception e = true.

(** A queue without sentinel. *)
Definition requests (q : list item) : Prop :=
  Forall (fun it : item => fst it <> None) q.

Definition play_of (it : item) : list event :=
  match it with
  | (Some data, fs) => [sd_play data fs true]
  | (None, _) => []
  end.

End FreeAdd.

(** ** Concrete inputs for the examples *)

Module Fixtures.

Local Open Scope float_scope.

(** A random draw that is all ones; like the library, it raises
    IndexError when asked for a single sample. *)
Definition white_draw : Z -> Z -> result (list float) :=
  fun _ k => if (k =? 1)%Z then Raise IndexError
             else Ok (repeat 1 (Z.to_nat k)).

(** The noise widget as [setup_ui] leaves it before the first plot, with
    [fs_text] typed in the sample-rate field. *)
Definition noise_widget (fs_text : Z) : Noise.t :=
  {| Noise.duration := 1; Noise.amplitude := 0.5; Noise.fs := 44100;
     Noise.fs_entry := Some fs_text; Noise.type_combo := "White noise"%string;
     Noise.time := None; Noise.audio := None;
     Noise.selectedAudio := [0]; Noise.warnings := [] |}.

(** [np.linspace(0, 1, 4, endpoint=False)]. *)
Definition axis4 : list float := [0; 0.25; 0.5; 0.75].



(** Ten samples, all ones. *)
Definition ten_ones : list float := repeat 1 10.

(** Sixteen samples, all ones. *)
Definition sixteen_ones : list float := repeat 1 16.

(** [np.linspace(0, 1, 10, endpoint=False)]. *)
Definition axis10 : list float :=
  match Numpy.linspace 0 1 10 false with
  | Ok time => time
  | Raise _ => []
  end.

(** The additive dialog on a signal of ten ones held in the first buffer
    of the store, the piano shown at octave 4. *)
Definition dialog : FreeAdd.t :=
  {| FreeAdd.fs := 48000;
     FreeAdd.freq_spinboxes := [440; 880; 1320; 1760; 2200; 2640]%Z;
     FreeAdd.amp_sliders := [100; 83; 67; 50; 33; 17]%Z;
     FreeAdd.dur_slider := 30;
     FreeAdd.octave_spinbox := Some 4%Z;
     FreeAdd.full_audio := {| Store.base := 0; Store.off := 0;
                              Store.len := 10 |};
     FreeAdd.selectedAudio := {| Store.base := 0; Store.off := 0;
                                 Store.len := 10 |};
     FreeAdd.audio_duration := 1;
     FreeAdd.selected_span := None;
     FreeAdd.span_time := axis10;
     FreeAdd.audio_queue := [] |}.

(** A device that fails its first call with a PortAudio error. *)
Definition first_call_fails : Sounddevice.device :=
  fun n => if (n =? 0)%nat then Some PortAudioError else None.

(** A device that never fails. *)
Definition sound_device : Sounddevice.device := fun _ => None.

(** Two requests. *)
Definition two_requests : list FreeAdd.item :=
  [(Some [1; 0.5], Some 48000%Z); (Some [0.25], Some 48000%Z)].

End Fixtures.

(** ** The piano keyboard (generateFreeAdd.py, [showPiano] and its
    buttons) *)

Module Keyboard.

Import FreeAdd.
Local Open Scope Z_scope.

Definition set_octave_spinbox (self : t) (v : option Z) : t :=
  {| fs := fs self; freq_spinboxes := freq_spinboxes self;
     amp_sliders := amp_sliders self;
     dur_slider := dur_slider self; octave_spinbox := v;
     full_audio := full_audio self; selectedAudio := selectedAudio self;
     audio_duration := audio_duration self;
     selected_span := selected_span self; span_time := span_time self;
     audio_queue := audio_queue self |}.

(** [self.octave_spinbox.setValue(v)], the range being 1 to 8. *)
Definition octave_setValue (self : t) (v : Z) : t :=
  set_octave_spinbox self (Some (Qt.setValue 1 8 v)).

(** Lines 278-280 of [showPiano]: the octave spin box is created. *)
Definition showPiano (self : t) : t := octave_setValue self 4.

Definition note_names : list string :=
  ["C"; "C#"; "D"; "D#"; "E"; "F"; "F#"; "G"; "G#"; "A"; "A#"; "B"]%string.

(** The semitone values of the keys, lines 296-304. *)
Definition white_notes : list Z :=
  [0; 2; 4; 5; 7; 9; 11; 12; 14; 16; 17; 19; 21; 23].

Definition black_notes : list (option Z) :=
  [Some 1; Some 3; None; Some 6; Some 8; Some 10;
   Some 13; Some 15; None; Some 18; Some 20; Some 22].

(** [self.piano_keys], by [note_value]: the white keys, then the black
    ones. *)
Definition piano_keys : list Z :=
  white_notes
  ++ flat_map (fun k => match k with Some v => [v] | None => [] end)
              black_notes.

(** Lines 428-430: what [update_piano_labels] writes on one key, the
    note name and the octave. *)
Definition key_label (current_octave note_value : Z) : string * Z :=
  (nth (Z.to_nat (note_value mod 12)) note_names EmptyString,
   current_octave + note_value / 12).

Definition update_piano_labels (self : t) : result (list (string * Z)) :=
  match octave_spinbox self with
  | None => Raise AttributeError
  | Some current_octave => Ok (map (key_label current_octave) piano_keys)
  end.

Definition decrease_octave (self : t) : result t :=
  match octave_spinbox self with
  | None => Raise AttributeError
  | Some current =>
      if 1 <? current then Ok (octave_setValue self (current - 1))
      else Ok self
  end.

Definition increase_octave (self : t) : result t :=
  match octave_spinbox self with
  | None => Raise AttributeError
  | Some current =>
      if current <? 8 then Ok (octave_setValue self (current + 1))
      else Ok self
  end.

(** The two navigation buttons, and a series of clicks on them. *)
Inductive button : Type :=
| PreviousOctave
| NextOctave.

Definition click (b : button) (self : t) : result t :=
  match b with
  | PreviousOctave => decrease_octave self
  | NextOctave => increase_octave self
  end.

Fixpoint clicks (bs : list button) (self : t) : result t :=
  match bs with
  | [] => Ok self
  | b :: rest => self1 <- click b self ;; clicks rest self1
  end.

End Keyboard.

(** ** Handing the additive tone over (generateFreeAdd.py,
    [load_to_controller]) *)

Module FreeAddLoad.

Import Binary64 Store FreeAdd.
Local Open Scope float_scope.

(** The three window titles; the span is written with its two bounds. *)
Inductive title : Type :=
| FreeAddition
| FreeAdditionSelection
| FreeAdditionSpan (start_time end_time : float).

(** The arguments of [ControlMenu(title, fs, audio, duration, ...)]. *)
Record handover : Type := {
  window_title : title;
  window_fs : Z;
  audio_to_load : list float;
  duration : float
}.

(** [format_timestamp(seconds)] succeeds when [int(minutes)] does, on
    a number that is neither infinite nor a NaN. *)
Definition format_timestamp_ok (seconds : float) : bool := finite seconds.

(** Lines 612-634, with the audio the dialog always has.  [None]: the
    [try] block failed and the error was reported.
    [len(self.selectedAudio) / self.fs] divides two integers that
    binary64 holds exactly. *)
Definition load_to_controller (h : heap) (self : t) : option handover :=
  if (1 <? len (selectedAudio self))%nat then
    if (fs self =? 0)%Z then None
    else
      let duration :=
        Z2F (Z.of_nat (len (selectedAudio self))) / Z2F (fs self) in
      match selected_span self with
      | Some (start_time, end_time) =>
          if format_timestamp_ok start_time && format_timestamp_ok end_time
          then Some {| window_title := FreeAdditionSpan start_time end_time;
                       window_fs := fs self;
                       audio_to_load := read h (selectedAudio self);
                       duration := duration |}
          else None
      | None =>
          Some {| window_title := FreeAdditionSelection;
                  window_fs := fs self;
                  audio_to_load := read h (selectedAudio self);
                  duration := duration |}
      end
  else
    Some {| window_title := FreeAddition;
            window_fs := fs self;
            audio_to_load := read h (full_audio self);
            duration := audio_duration self |}.

End FreeAddLoad.

(** ** The amplitude and duration controls of the noise widget
    (generateNoise.py) *)

Module NoiseControls.

Import Binary64 Numpy Noise.
Local Open Scope float_scope.

Definition set_amplitude (self : t) (v : float) : t :=
  {| duration := duration self; amplitude := v;
     fs := fs self; fs_entry := fs_entry self;
     type_combo := type_combo self;
     time := time self; audio := audio self;
     selectedAudio := selectedAudio self; warnings := warnings self |}.

Definition set_duration (self : t) (v : float) : t :=
  {| duration := v; amplitude := amplitude self;
     fs := fs self; fs_entry := fs_entry self;
     type_combo := type_combo self;
     time := time self; audio := audio self;
     selectedAudio := selectedAudio self; warnings := warnings self |}.

(** The widget with the positions of its two sliders. *)
Record controls : Type := {
  widget : t;
  ampl_slider : Z;
  dura_slider : Z
}.

Definition set_widget (c : controls) (w : t) : controls :=
  {| widget := w; ampl_slider := ampl_slider c;
     dura_slider := dura_slider c |}.

(** [update_amplitude(value)], the slot of [ampl_slider.valueChanged]. *)
Definition update_amplitude (c : controls) (value : Z) : controls :=
  set_widget c (set_amplitude (widget c) (Z2F value / 100)).

(** [update_duration(value)], the slot of [dura_slider.valueChanged]. *)
Definition update_duration (c : controls) (value : Z) : controls :=
  set_widget c (set_duration (widget c) (Z2F value / 100)).

(** [self.ampl_slider.setValue(v)]: the value is kept in the range 0 to
    100; when it differs from the slider's, the slider moves and
    [valueChanged] calls [update_amplitude]. *)
Definition ampl_slider_setValue (c : controls) (v : Z) : controls :=
  let v := Qt.setValue 0 100 v in
  if (v =? ampl_slider c)%Z then c
  else update_amplitude {| widget := widget c; ampl_slider := v;
                           dura_slider := dura_slider c |} v.

(** [self.dura_slider.setValue(v)], the range being 1 to 3000. *)
Definition dura_slider_setValue (c : controls) (v : Z) : controls :=
  let v := Qt.setValue 1 3000 v in
  if (v =? dura_slider c)%Z then c
  else update_duration {| widget := widget c; ampl_slider := ampl_slider c;
                          dura_slider := v |} v.

(** [update_amplitude_from_entry]; [text] is what [float] makes of the
    entry, [None] when it raises ValueError. *)
Definition update_amplitude_from_entry (c : controls) (text : option float)
  : controls * result unit :=
  match text with
  | None => (c, Ok tt)
  | Some value =>
      if (0 <=? value) && (value <=? 1) then
        let c := set_widget c (set_amplitude (widget c) value) in
        match py_int (value * 100) with
        | Ok k => (ampl_slider_setValue c k, Ok tt)
        | Raise ValueError => (c, Ok tt)
        | Raise e => (c, Raise e)
        end
      else (c, Ok tt)
  end.

(** [update_duration_from_entry]. *)
Definition update_duration_from_entry (c : controls) (text : option float)
  : controls * result unit :=
  match text with
  | None => (c, Ok tt)
  | Some value =>
      if (0.01 <=? value) && (value <=? 30) then
        let c := set_widget c (set_duration (widget c) value) in
        match py_int (value * 100) with
        | Ok k => (dura_slider_setValue c k, Ok tt)
        | Raise ValueError => (c, Ok tt)
        | Raise e => (c, Raise e)
        end
      else (c, Ok tt)
  end.

(** The arguments of [ControlMenu(title, fs, audio, duration, ...)]; the
    title is made of the noise type and the duration. *)
Record handover : Type := {
  title_type : string;
  title_duration : float;
  window_fs : Z;
  audio_to_load : list float;
  window_duration : float
}.

Section Generator.

Variable powerlaw_psd_gaussian : Z -> Z -> result (list float).

(** [load_to_controller]: the widget afterwards and what the new window
    is given; [Raise]: the [try] block failed with that exception. *)
Definition load_to_controller (self : t) : t * result handover :=
  match plot_noise powerlaw_psd_gaussian self with
  | (self, Raise e) => (self, Raise e)
  | (self, Ok _) =>
      match (if (1 <? length (selectedAudio self))%nat
             then Some (selectedAudio self) else audio self) with
      | None => (self, Raise AttributeError)
      | Some audio_to_load =>
          (self,
           Ok {| title_type := type_combo self;
                 title_duration := duration self;
                 window_fs := fs self;
                 audio_to_load := audio_to_load;
                 window_duration := duration self |})
      end
  end.

End Generator.

(** *** Words for the properties of the controls *)

(** Amplitude, duration and the two sliders are within their ranges. *)
Definition in_range (c : controls) : Prop :=
  (0 <=? amplitude (widget c)) && (amplitude (widget c) <=? 1) = true /\
  (0.01 <=? duration (widget c)) && (duration (widget c) <=? 30) = true /\
  (0 <= ampl_slider c <= 100)%Z /\ (1 <= dura_slider c <= 3000)%Z.

(** The slider position [k] gives a value between [lo] and [hi]. *)
Definition hundredth_between (lo hi : float) (k : Z) : bool :=
  (lo <=? Z2F k / 100) && (Z2F k / 100 <=? hi).

(** The slider position the entry handlers compute from the value the
    slider position [k] gives: [int(k / 100 * 100)]. *)
Definition comes_back_as (k : Z) : result Z := py_int (Z2F k / 100 * 100).

(** The positions of the amplitude slider that come back one lower. *)
Definition amplitude_drifts : list Z := [29; 57; 58]%Z.

Definition amplitude_comes_back (k : Z) : bool :=
  hundredth_between 0 1 k
  && match comes_back_as k with
     | Ok k' =>
         if existsb (Z.eqb k) amplitude_drifts then (k' =? k - 1)%Z
         else (k' =? k)%Z
     | Raise _ => false
     end.

Definition duration_comes_back (k : Z) : bool :=
  hundredth_between 0.01 30 k
  && match comes_back_as k with
     | Ok k' => ((k' =? k)%Z || (k' =? k - 1)%Z) && (1 <=? k')%Z
     | Raise _ => false
     end.

End NoiseControls.

(** ** The sound of a piano key (generateFreeAdd.py, [playPianoNote]) *)

Module PianoNote.

Import Binary64 Numpy Store FreeAdd.
Local Open Scope float_scope.

Section Note.

Variable np_sin : float -> float.

(** [2 ** x] for a float [x]; Python raises OverflowError where the
    power is out of range. *)
Variable pow2 : float -> result float.

(** Line 394: [440 * (2 ** ((midi_note - 69) / 12))], as Python computes
    it. *)
Definition frequency_of (midi_note : Z) : result float :=
  p <- pow2 (Z2F (midi_note - 69) / 12) ;;
  Ok (440 * p).

(** Lines 403-405, at one time [t]. *)
Definition note_sample (frequency t : float) : float :=
  0.6 * np_sin (2 * np_pi * frequency * t)
  + 0.3 * np_sin (2 * np_pi * 2 * frequency * t)
  + 0.1 * np_sin (2 * np_pi * 3 * frequency * t).

(** The mix of lines 403-405 is finite at every time of the axis
    [np.linspace(0, 0.5, samples, False)]. *)
Definition finite_mix (frequency : float) (samples : Z) : bool :=
  match linspace 0 0.5 samples false with
  | Ok t => forallb (fun x => finite (note_sample frequency x)) t
  | Raise _ => false
  end.

(** Lines 391-412 of [playPianoNote]: the signal it goes on to write to
    the output stream, before the conversion to float32.  The signal is
    a fresh array; the two fades multiply it in place. *)
Definition playPianoNote_signal (self : t) (note_value : Z)
  : result (list float) :=
  match octave_spinbox self with
  | None => Raise AttributeError
  | Some octave =>
      let midi_note := Piano.midi_note note_value octave in
      frequency <- frequency_of midi_note ;;
      samples <- py_int (0.5 * Z2F (fs self)) ;;
      fade_samples <- py_int (0.02 * Z2F (fs self)) ;;
      t <- linspace 0 0.5 samples false ;;
      let '(h, signal) := alloc [] (map (note_sample frequency) t) in
      if (0 <? fade_samples)%Z then
        fade_in <- fade_in_of fade_samples ;;
        fade_out <- fade_out_of fade_samples ;;
        h1 <- imul h (view signal None (Some fade_samples)) fade_in ;;
        h2 <- imul h1 (view signal (Some (- fade_samples)%Z) None)
                   fade_out ;;
        Ok (read h2 signal)
      else Ok (read h signal)
  end.

End Note.

(** For a sample rate [fs], half a second is [fs // 2] samples, and four
    fades of [int(0.02 * fs)] samples fit in it. *)
Definition note_length_ok (fs : Z) : bool :=
  match py_int (0.5 * Z2F fs), py_int (0.02 * Z2F fs) with
  | Ok n, Ok f => (n =? fs / 2)%Z && (4 * f <=? n)%Z
  | _, _ => false
  end.

End PianoNote.

(** ** Opening and closing the piano window (generateFreeAdd.py,
    [togglePiano]) *)

Module PianoWindow.

(** What rules the piano window: whether [self.piano] is a dialog (it is
    [None] otherwise), the flag [self.pianoOpen], and whether the
    "Piano" button is enabled. *)
Record t : Type := {
  piano : bool;
  pianoOpen : bool;
  piano_btn : bool
}.

(** The dialog as [__init__] and [initUI] leave it. *)
Definition init : t :=
  {| piano := false; pianoOpen := false; piano_btn := true |}.

Definition set_pianoOpen (self : t) (v : bool) : t :=
  {| piano := piano self; pianoOpen := v; piano_btn := piano_btn self |}.

(** [showPiano], lines 266 and 380-382: the dialog is created and shown,
    the button disabled. *)
Definition showPiano (self : t) : t :=
  {| piano := true; pianoOpen := pianoOpen self; piano_btn := false |}.

(** [on_close], the function [showPiano] connects to the dialog's
    [finished] signal, lines 373-377. *)
Definition on_close (self : t) : t :=
  {| piano := false; pianoOpen := pianoOpen self; piano_btn := true |}.

(** [togglePiano].  [self.piano.close()] on the shown dialog makes it
    emit [finished]; on [None] it raises AttributeError. *)
Definition togglePiano (self : t) : t * result unit :=
  if negb (pianoOpen self) then (set_pianoOpen (showPiano self) true, Ok tt)
  else if piano self then (set_pianoOpen (on_close self) false, Ok tt)
       else (self, Raise AttributeError).

(** What the user can do: click the "Piano" button, when it is enabled,
    and close the piano window, when there is one. *)
Inductive action : Type :=
| ClickPiano
| ClosePianoWindow.

Definition possible (a : action) (self : t) : bool :=
  match a with
  | ClickPiano => piano_btn self
  | ClosePianoWindow => piano self
  end.

(** One action; what is not possible does not happen. *)
Definition act (a : action) (self : t) : t * result unit :=
  if possible a self then
    match a with
    | ClickPiano => togglePiano self
    | ClosePianoWindow => (on_close self, Ok tt)
    end
  else (self, Ok tt).

(** A series of actions; an exception in one slot does not stop the
    next action. *)
Fixpoint run (actions : list action) (self : t) : t :=
  match actions with
  | [] => self
  | a :: rest => run rest (fst (act a self))
  end.

(** The dialog with the piano shown. *)
Definition shown : t :=
  {| piano := true; pianoOpen := true; piano_btn := false |}.

(** The dialog once the piano window has been closed. *)
Definition closed : t :=
  {| piano := false; pianoOpen := true; piano_btn := true |}.

End PianoWindow.

(** ** Words for the properties of the previews *)

(** ** The load and record pages (utils/inputLoad.py,
    utils/inputRecord.py): their span selectors *)

Module InputLoad.

Import Numpy Sounddevice.
Local Open Scope float_scope.

Record t : Type := {
  selectedAudio : list float;
  selected_span : float * float;
  fs : Z
}.

Definition set_selectedAudio (self : t) (a : list float) : t :=
  {| selectedAudio := a; selected_span := selected_span self;
     fs := fs self |}.

Definition set_selected_span (self : t) (s : float * float) : t :=
  {| selectedAudio := selectedAudio self; selected_span := s;
     fs := fs self |}.

(** [on_select(xmin, xmax)], the callback [setupSpanSelector(time, audio)]
    creates (lines 293-309). *)
Definition on_select (self : t) (time audio : list float)
           (xmin xmax : float) : t * io unit :=
  if (length audio <=? 1)%nat then (self, fun _ l => (Ok tt, l))
  else
    match SpanMapper.by_argmax time xmin xmax with
    | Raise e => (self, fun _ l => (Raise e, l))
    | Ok (idx_min, idx_max) =>
        let self := set_selectedAudio self (slice audio idx_min idx_max) in
        let self := set_selected_span self (xmin, xmax) in
        (self, call (sd_play (selectedAudio self) (Some (fs self)) false))
    end.

End InputLoad.

Module InputRecord.

Import Numpy Sounddevice.
Local Open Scope float_scope.

Record t : Type := {
  selectedAudio : list float;
  fs : Z
}.

Definition set_selectedAudio (self : t) (a : list float) : t :=
  {| selectedAudio := a; fs := fs self |}.

(** [on_select(xmin, xmax)], the callback
    [setup_span_selector(time_axis, audio)] creates (lines 415-425). *)
Definition on_select (self : t) (time_axis audio : list float)
           (xmin xmax : float) : t * io unit :=
  if (length audio <=? 1)%nat then (self, fun _ l => (Ok tt, l))
  else
    match SpanMapper.by_argmax time_axis xmin xmax with
    | Raise e => (self, fun _ l => (Raise e, l))
    | Ok (idx_min, idx_max) =>
        let self := set_selectedAudio self (slice audio idx_min idx_max) in
        (self,
         try_print
           (call (sd_play (selectedAudio self) (Some (fs self)) false)))
    end.

End InputRecord.

Module Preview.

Import Sounddevice.
Local Open Scope float_scope.

(** The end of the selection lies beyond every time of the axis. *)
Definition beyond (xmax : float) (time : list float) : bool :=
  forallb (fun t => negb (xmax <=? t)) time.

(** Nothing audible is asked of the device: every play is of an array
    without samples. *)
Definition plays_nothing (events : list event) : bool :=
  forallb (fun ev => match ev with
                     | sd_play [] _ _ => true
                     | sd_play (_ :: _) _ _ => false
                     | _ => true
                     end) events.

(** The callbacks a drag on a plot runs, one for each page that plays
    its selection. *)
Inductive path : Type :=
| pure_tone (self : PureTone.t)
| square_wave (self : SquareWave.t)
| noise (self : Noise.t)
| free_add (h : Store.heap) (self : FreeAdd.t)
| input_load (self : InputLoad.t) (time audio : list float)
| input_record (self : InputRecord.t) (time_axis audio : list float).

(** What the callback of a page asks of the device for the span from
    [xmin] to [xmax]. *)
Definition run (p : path) (xmin xmax : float) : io unit :=
  match p with
  | pure_tone self => PureTone.on_select_region self xmin xmax
  | square_wave self => SquareWave.on_select_region self xmin xmax
  | noise self => snd (Noise.listen_fragment self xmin xmax)
  | free_add h self => snd (FreeAdd.onselect h self xmin xmax)
  | input_load self time audio =>
      snd (InputLoad.on_select self time audio xmin xmax)
  | input_record self time_axis audio =>
      snd (InputRecord.on_select self time_axis audio xmin xmax)
  end.


End Preview.

(** ** More concrete inputs for the examples *)

Module Scenes.

Local Open Scope float_scope.

(** The additive dialog with two requests on its queue. *)
Definition queued_dialog : FreeAdd.t :=
  FreeAdd.set_audio_queue Fixtures.dialog Fixtures.two_requests.

(** The noise widget after a plot of four samples on the axis 0, 0.25,
    0.5, 0.75, with [fs_text] typed in the sample-rate field and
    [selection] selected. *)
Definition plotted_widget (fs_text : Z) (selection : list float) : Noise.t :=
  {| Noise.duration := 1; Noise.amplitude := 0.5; Noise.fs := 44100;
     Noise.fs_entry := Some fs_text; Noise.type_combo := "White noise"%string;
     Noise.time := Some Fixtures.axis4; Noise.audio := Some [1; 2; 3; 4];
     Noise.selectedAudio := selection; Noise.warnings := [] |}.

(** The controls of the noise widget with the amplitude slider at [k] and
    the duration slider at 100. *)
Definition controls_at (k : Z) : NoiseControls.controls :=
  {| NoiseControls.widget :=
       NoiseControls.set_amplitude (Fixtures.noise_widget 44100)
                                   (Binary64.Z2F k / 100);
     NoiseControls.ampl_slider := k;
     NoiseControls.dura_slider := 100 |}.

(** The pure-tone dialog holding four samples, the duration slider at
    100: its time axis is 0, 0.25, 0.5, 0.75. *)
Definition tone4 : PureTone.t :=
  {| PureTone.selectedAudio := [1; 2; 3; 4];
     PureTone.Duration := 100; PureTone.Offset := 0;
     PureTone.Amplitude := 50; PureTone.Frequency := 440;
     PureTone.Phase := 0; PureTone.fs := 44100 |}.

(** A stand-in for [np.sin] that can be evaluated: zero at zero, not
    zero elsewhere, between -1/2 and 1/2. *)
Definition bump (x : float) : float := x / (1 + x * x).

(** [2 ** x] at the one exponent the examples ask for. *)
Definition pow2_at_zero (x : float) : result float :=
  if x =? 0 then Ok 1 else Raise OverflowError.

(** The additive dialog at a sample rate of 200. *)
Definition slow_dialog : FreeAdd.t :=
  {| FreeAdd.fs := 200;
     FreeAdd.freq_spinboxes := FreeAdd.freq_spinboxes Fixtures.dialog;
     FreeAdd.amp_sliders := FreeAdd.amp_sliders Fixtures.dialog;
     FreeAdd.dur_slider := FreeAdd.dur_slider Fixtures.dialog;
     FreeAdd.octave_spinbox := FreeAdd.octave_spinbox Fixtures.dialog;
     FreeAdd.full_audio := FreeAdd.full_audio Fixtures.dialog;
     FreeAdd.selectedAudio := FreeAdd.selectedAudio Fixtures.dialog;
     FreeAdd.audio_duration := FreeAdd.audio_duration Fixtures.dialog;
     FreeAdd.selected_span := FreeAdd.selected_span Fixtures.dialog;
     FreeAdd.span_time := FreeAdd.span_time Fixtures.dialog;
     FreeAdd.audio_queue := FreeAdd.audio_queue Fixtures.dialog |}.

End Scenes.

(* ================================================================= *)
(** * Properties *)

(** ** Binary64: order, integer part *)

Module Binary64Facts.

Import Binary64.
Local Open Scope Z_scope.

Lemma SFcompare_key (x y : float) (a b : Z * Z * Z) :
key x = Some a -> key y = Some b ->
exists c, SFcompare (Prim2SF x) (Prim2SF y) = Some c /\
          (c = Lt <-> klt a b) /\ (c = Eq <-> a = b) /\ (c = Gt <-> klt b a).
Proof.
unfold key.
destruct (Prim2SF x) as [sx|sx| |sx mx ex], (Prim2SF y) as [sy|sy| |sy my ey];
  try discriminate;
  try destruct sx; try destruct sy; intros Ha Hb;
  injection Ha as <-; injection Hb as <-; cbn [SFcompare klt];
  try (eexists; split; [reflexivity|];
       repeat split; intros H; try discriminate H; try lia; try congruence; fail).
- (* both negative *)
  change (Pos.compare_cont Eq mx my) with (Pos.compare mx my).
  destruct (Z.compare_spec ex ey) as [E|E|E].
  + subst. destruct (Pos.compare_spec mx my) as [F|F|F]; cbn [CompOpp];
      eexists; (split; [reflexivity|]); repeat split; intros H;
      try discriminate H; try lia; try congruence;
      try (injection H; lia).
  + eexists; (split; [reflexivity|]); repeat split; intros H;
      try discriminate H; try lia; try (injection H; lia).
  + eexists; (split; [reflexivity|]); repeat split; intros H;
      try discriminate H; try lia; try (injection H; lia).
- change (Pos.compare_cont Eq mx my) with (Pos.compare mx my).
  destruct (Z.compare_spec ex ey) as [E|E|E].
  + subst. destruct (Pos.compare_spec mx my) as [F|F|F];
      eexists; (split; [reflexivity|]); repeat split; intros H;
      try discriminate H; try lia; try congruence;
      try (injection H; lia).
  + eexists; (split; [reflexivity|]); repeat split; intros H;
      try discriminate H; try lia; try (injection H; lia).
  + eexists; (split; [reflexivity|]); repeat split; intros H;
      try discriminate H; try lia; try (injection H; lia).
Qed.


Lemma key_nan_l (x y : float) : key x = None -> SFcompare (Prim2SF x) (Prim2SF y) = None.
Proof.
unfold key. destruct (Prim2SF x) as [sx|sx| |sx mx ex]; try destruct sx; try discriminate.
reflexivity.
Qed.

Lemma key_nan_r (x y : float) : key y = None -> SFcompare (Prim2SF x) (Prim2SF y) = None.
Proof.
unfold key. destruct (Prim2SF y) as [sx|sx| |sx mx ex]; try destruct sx; try discriminate.
destruct (Prim2SF x); reflexivity.
Qed.

Lemma ltb_true (x y : float) :
(x <? y)%float = true <-> exists a b, key x = Some a /\ key y = Some b /\ klt a b.
Proof.
rewrite ltb_spec. unfold SFltb.
destruct (key x) as [a|] eqn:Ka; [destruct (key y) as [b|] eqn:Kb|].
- destruct (SFcompare_key x y a b Ka Kb) as (c & -> & HLt & HEq & HGt).
  split.
  + intros H. exists a, b. repeat split. apply HLt. destruct c; congruence.
  + intros (a' & b' & [= <-] & [= <-] & H). apply HLt in H. now subst.
- rewrite (key_nan_r x y Kb). split; [discriminate|].
  intros (a' & b' & _ & [=] & _).
- rewrite (key_nan_l x y Ka). split; [discriminate|].
  intros (a' & b' & [=] & _).
Qed.

Lemma leb_true (x y : float) :
(x <=? y)%float = true <-> exists a b, key x = Some a /\ key y = Some b /\ kle a b.
Proof.
rewrite leb_spec. unfold SFleb, kle.
destruct (key x) as [a|] eqn:Ka; [destruct (key y) as [b|] eqn:Kb|].
- destruct (SFcompare_key x y a b Ka Kb) as (c & -> & HLt & HEq & HGt).
  split.
  + intros H. exists a, b. repeat split.
    destruct c; [right; now apply HEq|left; now apply HLt|discriminate].
  + intros (a' & b' & [= <-] & [= <-] & [H|H]).
    * apply HLt in H. now subst.
    * apply HEq in H. now subst.
- rewrite (key_nan_r x y Kb). split; [discriminate|].
  intros (a' & b' & _ & [=] & _).
- rewrite (key_nan_l x y Ka). split; [discriminate|].
  intros (a' & b' & [=] & _).
Qed.

Lemma klt_trans a b c : klt a b -> klt b c -> klt a c.
Proof. destruct a as [[? ?] ?], b as [[? ?] ?], c as [[? ?] ?]. unfold klt. lia. Qed.

Lemma klt_irrefl a : ~ klt a a.
Proof. destruct a as [[? ?] ?]. unfold klt. lia. Qed.

Lemma klt_total a b : klt a b \/ a = b \/ klt b a.
Proof.
destruct a as [[a1 a2] a3], b as [[b1 b2] b3]. unfold klt.
destruct (Z.eq_dec a1 b1), (Z.eq_dec a2 b2), (Z.eq_dec a3 b3); subst; try lia.
right; left; reflexivity.
Qed.

Lemma ltb_false_leb (x y : float) a b :
key x = Some a -> key y = Some b -> (x <? y)%float = false -> (y <=? x)%float = true.
Proof.
intros Ka Kb H. apply leb_true. exists b, a. repeat split; trivial.
destruct (klt_total a b) as [L|[E|G]].
- assert ((x <? y)%float = true) by (apply ltb_true; eauto). congruence.
- right. congruence.
- left. exact G.
Qed.

Lemma leb_ltb_false (x y : float) : (x <=? y)%float = true -> (y <? x)%float = false.
Proof.
intros H. apply leb_true in H as (a & b & Ka & Kb & L).
destruct (y <? x)%float eqn:E; trivial.
apply ltb_true in E as (b' & a' & Kb' & Ka' & G).
rewrite Ka in Ka'. rewrite Kb in Kb'. injection Ka' as <-. injection Kb' as <-.
destruct L as [L| ->]; exfalso.
- exact (klt_irrefl _ (klt_trans _ _ _ L G)).
- exact (klt_irrefl _ G).
Qed.

Lemma leb_trans (x y z : float) : (x <=? y)%float = true -> (y <=? z)%float = true -> (x <=? z)%float = true.
Proof.
intros H1 H2. apply leb_true in H1 as (a & b & Ka & Kb & L1).
apply leb_true in H2 as (b' & c & Kb' & Kc & L2).
rewrite Kb in Kb'. injection Kb' as <-.
apply leb_true. exists a, c. repeat split; trivial.
destruct L1 as [L1| ->], L2 as [L2| <-]; unfold kle; eauto using klt_trans.
Qed.

Lemma ltb_leb_trans (x y z : float) : (x <? y)%float = true -> (y <=? z)%float = true -> (x <? z)%float = true.
Proof.
intros H1 H2. apply ltb_true in H1 as (a & b & Ka & Kb & L1).
apply leb_true in H2 as (b' & c & Kb' & Kc & L2).
rewrite Kb in Kb'. injection Kb' as <-.
apply ltb_true. exists a, c. repeat split; trivial.
destruct L2 as [L2| <-]; eauto using klt_trans.
Qed.

Lemma leb_ltb_trans (x y z : float) : (x <=? y)%float = true -> (y <? z)%float = true -> (x <? z)%float = true.
Proof.
intros H1 H2. apply leb_true in H1 as (a & b & Ka & Kb & L1).
apply ltb_true in H2 as (b' & c & Kb' & Kc & L2).
rewrite Kb in Kb'. injection Kb' as <-.
apply ltb_true. exists a, c. repeat split; trivial.
destruct L1 as [L1| ->]; eauto using klt_trans.
Qed.

Lemma ltb_leb (x y : float) : (x <? y)%float = true -> (x <=? y)%float = true.
Proof.
intros H. apply ltb_true in H as (a & b & Ka & Kb & L).
apply leb_true. exists a, b. repeat split; trivial. now left.
Qed.

Lemma leb_refl_key (x : float) : (x <=? x)%float = true <-> key x <> None.
Proof.
rewrite leb_true. split.
- intros (a & b & Ka & _). congruence.
- destruct (key x) as [a|]; [|congruence]. intros _. exists a, a. repeat split. now right.
Qed.

Lemma digits2_pos_size (m : positive) : digits2_pos m = Pos.size m.
Proof. induction m; simpl; congruence. Qed.

(** A normal number carries 53 digits. *)
Lemma valid_mantissa (x : float) (s : bool) (m : positive) (e : Z) :
Prim2SF x = S754_finite s m e -> -1074 < e -> 2 ^ 52 <= Zpos m.
Proof.
intros H He. pose proof (Prim2SF_valid x) as V. rewrite H in V.
cbn [valid_binary] in V. unfold bounded in V.
apply andb_prop in V as [V _]. unfold canonical_mantissa in V.
apply Z.eqb_eq in V. unfold fexp, SpecFloat.emin, emax, prec in V.
rewrite digits2_pos_size in V.
assert (S : Zpos (Pos.size m) = 53) by lia.
pose proof (Pos.size_le m) as L.
assert (Pos.size m = 53%positive) as E by lia.
rewrite E in L.
assert (2 ^ 53 <= Zpos m~0)%Z.
{ change (2 ^ 53) with (Zpos (2 ^ 53)). exact L. }
lia.
Qed.

Lemma trunc_mag_nonneg (m : positive) (e : Z) : 0 <= trunc_mag m e.
Proof.
unfold trunc_mag. destruct (0 <=? e) eqn:E.
- apply Z.shiftl_nonneg. lia.
- apply Z.shiftr_nonneg. lia.
Qed.

(** A finite number that is at least 1 is positive and its integer part,
  which is also its floor, is at least 1. *)
Lemma py_int_floor (x : float) :
finite x = true -> (1 <=? x)%float = true ->
exists n, py_int x = Ok n /\ floor x = Some n /\ 1 <= n.
Proof.
intros F L. rewrite leb_spec in L. unfold finite in F.
unfold py_int, floor.
change (Prim2SF 1) with (S754_finite false 4503599627370496 (-52)) in L.
destruct (Prim2SF x) as [s|s| |s m e] eqn:P; try discriminate.
destruct s; [cbn in L; discriminate L|].
exists (trunc_mag m e). repeat split.
unfold SFleb, SFcompare in L.
destruct (Z.compare_spec (-52) e) as [E|E|E].
- subst e. pose proof (valid_mantissa x _ _ _ P ltac:(lia)) as V.
    unfold trunc_mag. cbn [Z.leb Z.compare Z.opp].
    rewrite Z.shiftr_div_pow2 by lia.
    apply Z.div_le_lower_bound; lia.
- pose proof (valid_mantissa x _ _ _ P ltac:(lia)) as V.
    unfold trunc_mag. destruct (0 <=? e) eqn:Z0.
    * rewrite Z.shiftl_mul_pow2 by lia.
      assert (0 < 2 ^ e) by (apply Z.pow_pos_nonneg; lia). nia.
    * rewrite Z.shiftr_div_pow2 by lia.
      assert (0 < 2 ^ (- e)) by (apply Z.pow_pos_nonneg; lia).
      apply Z.div_le_lower_bound; [lia|].
      assert (2 ^ (- e) <= 2 ^ 52) by (apply Z.pow_le_mono_r; lia). lia.
- discriminate L.
Qed.


End Binary64Facts.

Module NumpyFacts.
Import Binary64 Numpy.

Lemma set_last_length (y : list float) (v : float) :
  length (set_last y v) = length y.
Proof.
  induction y as [|a [|b rest] IH]; simpl in *; auto.
Qed.

Lemma arange_length (num : Z) : length (arange num) = Z.to_nat num.
Proof. unfold arange. now rewrite length_map, length_seq. Qed.

(** [np.linspace] returns [num] items for every [num] that is not
    negative. *)
Lemma linspace_length (start stop : float) (num : Z) (endpoint : bool) :
  (0 <= num)%Z ->
  exists y, linspace start stop num endpoint = Ok y /\
            length y = Z.to_nat num.
Proof.
  intros H. unfold linspace.
  destruct (num <? 0)%Z eqn:E; [lia|].
  eexists. split; [reflexivity|].
  destruct (endpoint && (1 <? num)%Z);
    rewrite ?set_last_length, length_map;
    destruct (0 <? (if endpoint then num - 1 else num))%Z;
    try destruct (PrimFloat.eqb _ _);
    now rewrite length_map, arange_length.
Qed.

End NumpyFacts.

Module SynthesisFacts.
Import Binary64 Numpy Binary64Facts NumpyFacts.
Local Open Scope float_scope.

Lemma add_zip_length (xs ys : list float) :
  length (FreeAdd.add_zip xs ys) = length xs.
Proof.
  revert ys. induction xs as [|x xs IH]; intros [|y ys]; simpl; auto.
Qed.

Lemma add_tone_length np_sin (time signal : list float) (tone : Z * float) :
  length (FreeAdd.add_tone np_sin time signal tone) = length signal.
Proof.
  unfold FreeAdd.add_tone. destruct tone as [freq amp].
  destruct (0 <? freq)%Z; auto using add_zip_length.
Qed.

Lemma fold_add_tone_length np_sin (time : list float) tones signal :
  length (fold_left (FreeAdd.add_tone np_sin time) tones signal)
  = length signal.
Proof.
  revert signal. induction tones as [|tn tones IH]; intros signal; simpl; auto.
  now rewrite IH, add_tone_length.
Qed.

Lemma py_max_nonempty (l : list float) :
  l <> [] -> exists p, py_max l = Ok p.
Proof. destruct l; [congruence|]. intros _. eexists. reflexivity. Qed.

Lemma normalize_length (amplitude : float) (raw : list float) :
  raw <> [] ->
  exists audio, Noise.normalize amplitude raw = Ok audio /\
                length audio = length raw.
Proof.
  intros H. unfold Noise.normalize.
  destruct (py_max_nonempty (map abs raw)) as [p ->].
  { destruct raw; [congruence|discriminate]. }
  eexists. split; [reflexivity|]. now rewrite length_map.
Qed.

End SynthesisFacts.

Import Binary64 Numpy Binary64Facts NumpyFacts SynthesisFacts Fixtures.
Local Open Scope float_scope.

(** C9 (as amended).  For every duration and sample rate whose binary64
    product [duration * fs] is finite and at least 1, the pure tone, the
    sum of tones and the square wave are arrays of exactly
    [floor (duration * fs)] samples on a time axis of the same length.
    So is the noise when the sample-rate field holds an [fs] of at most
    48000 and the draw returns the samples asked for; when the draw
    raises, [plot_noise] raises with it: the time axis of that length is
    stored already and the samples are those of before. *)
Theorem sample_count
  (np_cos np_sin : float -> float) (signal_square : float -> float -> float)
  (powerlaw_psd_gaussian : Z -> Z -> result (list float))
  (duration : float) (fs : Z) :
  finite (duration * Z2F fs) = true ->
  (1 <=? duration * Z2F fs) = true ->
  exists n : nat,
    floor (duration * Z2F fs) = Some (Z.of_nat n) /\
    (forall amplitude phase offset frequency,
        exists time y,
          PureTone.tone np_cos duration amplitude phase offset frequency fs
          = Ok (time, y) /\ length y = n /\ length time = length y) /\
    (forall freqs amps,
        exists time y,
          FreeAdd.synthesize np_sin duration fs freqs amps = Ok (time, y) /\
          length y = n /\ length time = length y) /\
    (forall amplitude phase offset duty frequency,
        exists time y,
          SquareWave.wave signal_square duration amplitude phase offset duty
                          frequency fs
          = Ok (time, y) /\ length y = n /\ length time = length y) /\
    (forall self : Noise.t,
        Noise.duration self = duration ->
        Noise.fs_entry self = Some fs ->
        (fs <= 48000)%Z ->
        let draw :=
          powerlaw_psd_gaussian (Noise.beta_of (Noise.type_combo self))
                                (Z.of_nat n) in
        (forall noise_raw,
            draw = Ok noise_raw ->
            length noise_raw = n ->
            exists self' time y,
              Noise.plot_noise powerlaw_psd_gaussian self = (self', Ok tt) /\
              Noise.time self' = Some time /\ Noise.audio self' = Some y /\
              length y = n /\ length time = length y) /\
        (forall e,
            draw = Raise e ->
            exists self' time,
              Noise.plot_noise powerlaw_psd_gaussian self
              = (self', Raise e) /\
              Noise.time self' = Some time /\ length time = n /\
              Noise.audio self' = Noise.audio self)).
Proof.
  intros F L.
  destruct (py_int_floor _ F L) as (k & Hint & Hfloor & Hk).
  destruct (linspace_length 0 duration k false ltac:(lia)) as (time & Ht & Hlen).
  exists (Z.to_nat k). rewrite Z2Nat.id by lia.
  split; [exact Hfloor|]. split; [|split; [|split]].
  - intros. unfold PureTone.tone. rewrite Hint. cbn [bind]. rewrite Ht.
    cbn [bind]. do 2 eexists. split; [reflexivity|].
    now rewrite length_map.
  - intros. unfold FreeAdd.synthesize. rewrite Hint. cbn [bind]. rewrite Ht.
    cbn [bind]. do 2 eexists. split; [reflexivity|].
    rewrite fold_add_tone_length, repeat_length. auto.
  - intros. unfold SquareWave.wave. rewrite Hint. cbn [bind]. rewrite Ht.
    cbn [bind]. do 2 eexists. split; [reflexivity|].
    now rewrite length_map.
  - intros self Hd He Hfs draw.
    assert (P : forall r,
               draw = r ->
               Noise.plot_noise powerlaw_psd_gaussian self
               = let self1 :=
                   Noise.set_time (Noise.set_fs self fs (Some fs)) time in
                 match r with
                 | Raise e => (self1, Raise e)
                 | Ok noise_raw =>
                     match Noise.normalize (Noise.amplitude self) noise_raw with
                     | Raise e => (self1, Raise e)
                     | Ok audio => (Noise.set_audio self1 audio, Ok tt)
                     end
                 end).
    { intros r Hr. unfold Noise.plot_noise. rewrite He.
      destruct (48000 <? fs)%Z eqn:E; [apply Z.ltb_lt in E; lia|].
      cbn [Noise.set_fs Noise.duration Noise.fs Noise.type_combo].
      rewrite Hd, Hint, Ht.
      cbn [Noise.set_time Noise.amplitude Noise.type_combo].
      fold draw. rewrite Hr. reflexivity. }
    split.
    + intros noise_raw Hdraw Hraw. rewrite (P _ Hdraw). cbv zeta.
      destruct (normalize_length (Noise.amplitude self) noise_raw)
        as (y & Hy & Hl).
      { intros C. rewrite C in Hraw. simpl in Hraw. lia. }
      rewrite Hy. do 3 eexists. split; [reflexivity|].
      cbn. repeat split; try reflexivity; lia.
    + intros e Hdraw. rewrite (P _ Hdraw). cbv zeta.
      do 2 eexists. split; [reflexivity|]. cbn. repeat split. exact Hlen.
Qed.

Lemma sample_count_witness :
  exists n : nat,
    floor (1 * Z2F 8) = Some (Z.of_nat n) /\
    (exists time y,
        PureTone.tone (fun x => x) 1 0.5 0 0 440 8 = Ok (time, y) /\
        length y = n /\ length time = length y) /\
    (exists self' time y,
        Noise.plot_noise white_draw (noise_widget 8) = (self', Ok tt) /\
        Noise.time self' = Some time /\ Noise.audio self' = Some y /\
        length y = n /\ length time = length y).
Proof.
  destruct (sample_count (fun x => x) (fun x => x) (fun _ x => x) white_draw
                         1 8 eq_refl eq_refl)
    as (n & Hn & Hp & _ & _ & Hnoise).
  exists n. split; [exact Hn|]. split; [apply Hp|].
  assert (E : n = 8%nat).
  { assert (Hf : floor (1 * Z2F 8) = Some 8%Z) by reflexivity.
    rewrite Hf in Hn. injection Hn as Hn. lia. }
  subst n.
  apply (proj1 (Hnoise (noise_widget 8) eq_refl eq_refl ltac:(lia))
               (repeat 1 8));
    reflexivity.
Defined.

(** C9 fails as stated: with 1 s and 96000 Hz in the sample-rate field
    the product is 96000, yet the noise generator warns, puts 48000 back
    in the field and generates nothing. *)
Lemma sample_count_noise_counterexample :
  let self := noise_widget 96000 in
  let self' := fst (Noise.plot_noise white_draw self) in
  finite (Noise.duration self * Z2F 96000) = true /\
  (1 <=? Noise.duration self * Z2F 96000) = true /\
  floor (Noise.duration self * Z2F 96000) = Some 96000%Z /\
  Noise.plot_noise white_draw self
  = (Noise.warn (Noise.set_fs self 48000 (Some 48000%Z))
                Noise.WrongSampleFrequency, Ok tt) /\
  Noise.audio self' = None /\
  ~ (exists y, Noise.audio self' = Some y /\ Z.of_nat (length y) = 96000%Z).
Proof.
  cbv zeta. repeat split; try reflexivity.
  intros (y & H & _). discriminate H.
Qed.

(** With 1 s and 1 Hz in the field the product is 1, the draw of one
    sample raises IndexError and so does [plot_noise]: the time axis of
    one item is stored, there are no samples. *)
Example noise_of_one_sample :
  let r := Noise.plot_noise white_draw (noise_widget 1) in
  floor (1 * Z2F 1) = Some 1%Z /\
  snd r = Raise IndexError /\
  Noise.time (fst r) = Some [0] /\
  Noise.audio (fst r) = None.
Proof. cbv zeta. repeat split; reflexivity. Qed.

(** With 0.35 s at 44100 Hz the binary64 product is just below 15435:
    the tone has 15434 samples. *)
Example tone_035_44100 (np_cos : float -> float) :
  exists time y,
    PureTone.tone np_cos (Z2F 35 / 100) 0.5 0 0 440 44100 = Ok (time, y) /\
    Z.of_nat (length y) = 15434%Z.
Proof.
  assert (Hint : py_int (Z2F 35 / 100 * Z2F 44100) = Ok 15434%Z)
    by (vm_compute; reflexivity).
  destruct (linspace_length 0 (Z2F 35 / 100) 15434 false ltac:(lia))
    as (time & Ht & Hlen).
  exists time. eexists. unfold PureTone.tone. rewrite Hint. cbn [bind].
  rewrite Ht. cbn [bind]. split; [reflexivity|].
  rewrite length_map, Hlen. apply Z2Nat.id. lia.
Qed.

Module SpanMapperFacts.

Import Binary64 Binary64Facts Numpy SpanMapper.
Local Open Scope float_scope.

Lemma is_nan_key (x : float) : is_nan x = false <-> key x <> None.
Proof.
  unfold is_nan. rewrite FloatAxioms.eqb_spec. unfold SFeqb.
  destruct (key x) as [a|] eqn:K.
  - destruct (SFcompare_key x x a a K K) as (c & -> & _ & HEq & _).
    split; [congruence|]. intros _.
    assert (c = Eq) as -> by now apply HEq. reflexivity.
  - rewrite (key_nan_l x x K). split; [discriminate|congruence].
Qed.

Lemma leb_key_l (x y : float) : (x <=? y) = true -> key x <> None.
Proof. intros H. apply leb_true in H as (a & b & -> & _). discriminate. Qed.

Lemma leb_key_r (x y : float) : (x <=? y) = true -> key y <> None.
Proof. intros H. apply leb_true in H as (a & b & _ & -> & _). discriminate. Qed.

Lemma ltb_key_l (x y : float) : (x <? y) = true -> key x <> None.
Proof. intros H. apply ltb_true in H as (a & b & -> & _). discriminate. Qed.

Lemma ltb_key_r (x y : float) : (x <? y) = true -> key y <> None.
Proof. intros H. apply ltb_true in H as (a & b & _ & -> & _). discriminate. Qed.

Lemma ltb_false_leb' (x y : float) :
  key x <> None -> key y <> None -> (x <? y) = false -> (y <=? x) = true.
Proof.
  destruct (key x) as [a|] eqn:Ka; [|congruence].
  destruct (key y) as [b|] eqn:Kb; [|congruence].
  intros _ _. eauto using ltb_false_leb.
Qed.

(** For a key that is a number, NumPy's order is [<]. *)
Lemma np_less_ltb (a v : float) :
  key v <> None -> np_less a v = (a <? v).
Proof.
  intros K. unfold np_less. apply is_nan_key in K. rewrite K.
  now rewrite orb_false_r.
Qed.

Lemma increasing_key (time : list float) (i : nat) :
  increasing time -> (i < length time)%nat -> key (nth i time nan) <> None.
Proof.
  intros Inc Hi. apply (leb_key_l _ (nth i time nan)). apply Inc; lia.
Qed.

Section Search.

Variables (arr : list float) (v : float).
Hypothesis Inc : increasing arr.
Hypothesis Kv : key v <> None.

Let below (i : nat) : Prop := (nth i arr nan <? v) = true.
Let not_below (i : nat) : Prop := (nth i arr nan <? v) = false.

Lemma below_down (i j : nat) :
  (i <= j)%nat -> (j < length arr)%nat -> below j -> below i.
Proof.
  unfold below. intros Hij Hj H.
  exact (leb_ltb_trans _ _ _ (Inc i j Hij Hj) H).
Qed.

Lemma not_below_up (i j : nat) :
  (i <= j)%nat -> (j < length arr)%nat -> not_below i -> not_below j.
Proof.
  unfold not_below. intros Hij Hj H.
  destruct (nth j arr nan <? v) eqn:E; trivial.
  rewrite (leb_ltb_trans _ _ _ (Inc i j Hij Hj) E) in H. discriminate.
Qed.

(** The binary search keeps everything left of its window below the key
    and nothing right of it, and closes the window within its fuel. *)
Lemma binsearch_left_spec (fuel lo hi : nat) :
  (lo <= hi)%nat -> (hi <= length arr)%nat -> (hi - lo <= fuel)%nat ->
  (forall i, (i < lo)%nat -> below i) ->
  (forall i, (hi <= i)%nat -> (i < length arr)%nat -> not_below i) ->
  let r := binsearch_left fuel arr v lo hi in
  (r <= length arr)%nat /\
  (forall i, (i < r)%nat -> below i) /\
  (forall i, (r <= i)%nat -> (i < length arr)%nat -> not_below i).
Proof.
  revert lo hi. induction fuel as [|fuel IH]; intros lo hi Hle Hhi Hf HL HR.
  - assert (lo = hi) by lia. subst. simpl. repeat split; auto.
  - cbn [binsearch_left]. destruct (lo <? hi)%nat eqn:E.
    + apply Nat.ltb_lt in E.
      set (mid := (lo + (hi - lo) / 2)%nat).
      assert (Hmid : (lo <= mid < hi)%nat).
      { unfold mid. pose proof (Nat.div_mod_eq (hi - lo) 2).
        pose proof (Nat.mod_upper_bound (hi - lo) 2). lia. }
      rewrite np_less_ltb by exact Kv.
      destruct (nth mid arr nan <? v) eqn:M.
      * apply IH; try lia.
        -- intros i Hi. apply (below_down i mid); try lia. exact M.
        -- exact HR.
      * apply IH; try lia.
        -- exact HL.
        -- intros i Hi Hn. apply (not_below_up mid i); try lia. exact M.
    + apply Nat.ltb_ge in E. assert (lo = hi) by lia. subst.
      repeat split; auto.
Qed.

Lemma searchsorted_spec :
  let r := searchsorted arr v in
  (r <= length arr)%nat /\
  (forall i, (i < r)%nat -> (nth i arr nan <? v) = true) /\
  (forall i, (r <= i)%nat -> (i < length arr)%nat ->
             (nth i arr nan <? v) = false).
Proof.
  unfold searchsorted. apply binsearch_left_spec; lia.
Qed.

(** Within the axis, [np.searchsorted] finds the least index whose time
    is not below the key. *)
Lemma searchsorted_first_ge :
  (searchsorted arr v < length arr)%nat ->
  first_ge arr v (searchsorted arr v).
Proof.
  destruct searchsorted_spec as (_ & HL & HR). intros Hr.
  repeat split; trivial.
  - apply ltb_false_leb'; auto using increasing_key.
  - intros j Hj. destruct (v <=? nth j arr nan) eqn:E; trivial.
    apply leb_ltb_false in E. rewrite HL in E by exact Hj. discriminate.
Qed.

End Search.

(** The least index is unique. *)
Lemma first_ge_unique (time : list float) (x : float) (i j : nat) :
  first_ge time x i -> first_ge time x j -> i = j.
Proof.
  intros (Hi & Ti & Li) (Hj & Tj & Lj).
  destruct (Nat.lt_trichotomy i j) as [H|[H|H]]; trivial.
  - rewrite (Lj i H) in Ti. discriminate.
  - rewrite (Li j H) in Tj. discriminate.
Qed.

Lemma first_true_spec (time : list float) (x : float) (i : nat) :
  first_true (ge_mask time x) = Some i <-> first_ge time x i.
Proof.
  revert i. induction time as [|t time IH]; intros i; simpl.
  - split; [discriminate|]. intros (H & _). simpl in H. lia.
  - destruct (x <=? t) eqn:E.
    + split.
      * intros [= <-]. repeat split; simpl; trivial; lia.
      * intros (Hi & Ti & Li). destruct i as [|i]; trivial.
        specialize (Li O ltac:(lia)). simpl in Li. congruence.
    + destruct (first_true (ge_mask time x)) as [k|] eqn:F; simpl.
      * split.
        -- intros [= <-]. destruct (proj1 (IH k) eq_refl) as (Hk & Tk & Lk).
           repeat split; simpl; trivial; try lia.
           intros [|j] Hj; trivial. apply Lk. lia.
        -- intros (Hi & Ti & Li). destruct i as [|i]; simpl in *; [congruence|].
           assert (Some k = Some i) as [= ->]; [|reflexivity].
           apply IH. repeat split; trivial; try lia.
           intros j Hj. apply (Li (S j)). lia.
      * split; [discriminate|].
        intros (Hi & Ti & Li). destruct i as [|i]; simpl in *; [congruence|].
        assert (None = Some i) as C; [|discriminate C].
        apply IH. repeat split; trivial; try lia.
        intros j Hj. apply (Li (S j)). lia.
Qed.

Lemma first_true_none (time : list float) (x : float) :
  first_true (ge_mask time x) = None <->
  forall i, (i < length time)%nat -> (x <=? nth i time nan) = false.
Proof.
  induction time as [|t time IH]; simpl.
  - split; trivial. intros _ i Hi. lia.
  - destruct (x <=? t) eqn:E.
    + split; [discriminate|]. intros H. specialize (H O ltac:(lia)).
      simpl in H. congruence.
    + destruct (first_true (ge_mask time x)) as [k|] eqn:F; simpl.
      * split; [discriminate|]. intros H.
        assert (Some k = None) as C; [|discriminate C].
        apply IH. intros i Hi. apply (H (S i)). lia.
      * split; trivial. intros _ [|i] Hi; trivial.
        destruct IH as [IH _]. apply (IH eq_refl). lia.
Qed.

Lemma argmax_first_ge (time : list float) (x : float) (i : nat) :
  first_ge time x i -> argmax (ge_mask time x) = Ok i.
Proof.
  intros H. pose proof H as (Hi & _). apply first_true_spec in H.
  unfold argmax. rewrite H.
  destruct time; [simpl in Hi; lia|reflexivity].
Qed.

Lemma last_nth (l : list float) (d : float) :
  last l d = nth (length l - 1) l d.
Proof.
  induction l as [|a [|b rest] IH]; trivial.
  change (last (a :: b :: rest) d) with (last (b :: rest) d). rewrite IH.
  simpl. now rewrite Nat.sub_0_r.
Qed.

Lemma hd_nth (l : list float) (d : float) : hd d l = nth 0 l d.
Proof. now destruct l. Qed.

(** Adjacent items in order make the whole axis increasing. *)
Lemma increasingb_sound (time : list float) :
  increasingb time = true -> increasing time.
Proof.
  induction time as [|a [|b rest] IH]; intros H i j Hij Hj.
  - simpl in Hj. lia.
  - simpl in Hj. assert (i = O) by lia. assert (j = O) by lia. subst. exact H.
  - cbn [increasingb] in H. apply andb_prop in H as [Hab Hrest].
    specialize (IH Hrest).
    destruct i as [|i], j as [|j]; try lia.
    + cbn [nth]. apply leb_refl_key. exact (leb_key_l _ _ Hab).
    + apply (leb_trans _ b); [exact Hab|].
      change (nth (S j) (a :: b :: rest) nan) with (nth j (b :: rest) nan).
      change b with (nth 0 (b :: rest) nan) at 1.
      apply IH; simpl in *; lia.
    + change (nth (S i) (a :: b :: rest) nan) with (nth i (b :: rest) nan).
      change (nth (S j) (a :: b :: rest) nan) with (nth j (b :: rest) nan).
      apply IH; simpl in *; lia.
Qed.

End SpanMapperFacts.

Import SpanMapper SpanMapperFacts.

(** C4.  On an increasing time axis, for a selection [xmin <= xmax] whose
    ends lie within the axis, both span mappers (the binary search of the
    noise and additive dialogs, the [argmax] of the pure-tone and
    square-wave dialogs) return [startIdx <= endIdx], each the least
    index whose time is not below its end of the selection. *)
Theorem span_mapping_least_index (time : list float) (xmin xmax : float) :
  increasing time ->
  (xmin <=? xmax) = true ->
  (hd nan time <=? xmin) = true ->
  (xmax <=? last time nan) = true ->
  exists startIdx endIdx,
    by_searchsorted time xmin xmax = (startIdx, endIdx) /\
    by_argmax time xmin xmax = Ok (startIdx, endIdx) /\
    first_ge time xmin startIdx /\
    first_ge time xmax endIdx /\
    (startIdx <= endIdx)%nat.
Proof.
  intros Inc Hsel Hlo Hhi.
  pose proof (leb_key_l _ _ Hsel) as Kmin.
  pose proof (leb_key_r _ _ Hsel) as Kmax.
  assert (Hne : (0 < length time)%nat).
  { destruct time; [|simpl; lia]. simpl in Hlo.
    apply leb_key_l in Hlo. exfalso. apply Hlo. reflexivity. }
  rewrite last_nth in Hhi.
  assert (Hin : forall v, key v <> None ->
                          (v <=? nth (length time - 1) time nan) = true ->
                          (searchsorted time v < length time)%nat).
  { intros v Kv Hv. destruct (searchsorted_spec time v Inc Kv) as (Hr & HL & _).
    destruct (Nat.eq_dec (searchsorted time v) (length time)) as [E|E]; [|lia].
    apply leb_ltb_false in Hv. rewrite HL in Hv by lia. discriminate. }
  assert (H1 : first_ge time xmin (searchsorted time xmin)).
  { apply searchsorted_first_ge; trivial. apply Hin; trivial.
    exact (leb_trans _ _ _ Hsel Hhi). }
  assert (H2 : first_ge time xmax (searchsorted time xmax)).
  { apply searchsorted_first_ge; trivial. apply Hin; trivial. }
  exists (searchsorted time xmin), (searchsorted time xmax).
  split; [reflexivity|]. split.
  - unfold by_argmax.
    rewrite (argmax_first_ge _ _ _ H1), (argmax_first_ge _ _ _ H2).
    reflexivity.
  - repeat split; try apply H1; try apply H2.
    destruct (Nat.le_gt_cases (searchsorted time xmin) (searchsorted time xmax))
      as [L|G]; trivial.
    destruct H1 as (_ & _ & L1). destruct H2 as (_ & T2 & _).
    pose proof (L1 _ G) as C. rewrite (leb_trans _ _ _ Hsel T2) in C.
    discriminate.
Qed.

(** C2 (as amended).  On an increasing, non-empty time axis: a selection
    wholly below the axis maps to index 0 at both ends, in both mappers;
    a selection wholly above it maps, in the binary-search mapper, to the
    length of the axis at both ends, one past the last index. *)
Theorem span_outside_axis (time : list float) (xmin xmax : float) :
  increasing time ->
  time <> [] ->
  (xmin <=? xmax) = true ->
  ((xmax <? hd nan time) = true ->
   by_searchsorted time xmin xmax = (O, O) /\
   by_argmax time xmin xmax = Ok (O, O)) /\
  ((last time nan <? xmin) = true ->
   by_searchsorted time xmin xmax = (length time, length time)).
Proof.
  intros Inc Hne Hsel.
  pose proof (leb_key_l _ _ Hsel) as Kmin.
  pose proof (leb_key_r _ _ Hsel) as Kmax.
  assert (Hlen : (0 < length time)%nat) by (destruct time; [congruence|simpl; lia]).
  split.
  - intros Hbelow. rewrite hd_nth in Hbelow.
    assert (Hmax : (xmax <=? nth 0 time nan) = true) by now apply ltb_leb.
    assert (Hmin : (xmin <=? nth 0 time nan) = true)
      by exact (leb_trans _ _ _ Hsel Hmax).
    assert (F : forall v, (v <=? nth 0 time nan) = true -> first_ge time v O).
    { intros v Hv. repeat split; trivial. intros j Hj. lia. }
    assert (S0 : forall v, key v <> None -> (v <=? nth 0 time nan) = true ->
                           searchsorted time v = O).
    { intros v Kv Hv. destruct (searchsorted_spec time v Inc Kv) as (_ & HL & _).
      destruct (searchsorted time v) as [|r] eqn:E; trivial.
      apply leb_ltb_false in Hv. rewrite HL in Hv by lia. discriminate. }
    split.
    + unfold by_searchsorted, searchsorted2. cbn [fst snd].
      now rewrite (S0 xmin), (S0 xmax).
    + unfold by_argmax.
      rewrite (argmax_first_ge _ _ _ (F xmin Hmin)),
              (argmax_first_ge _ _ _ (F xmax Hmax)).
      reflexivity.
  - intros Habove. rewrite last_nth in Habove.
    assert (Sn : forall v, key v <> None ->
                           (nth (length time - 1) time nan <? v) = true ->
                           searchsorted time v = length time).
    { intros v Kv Hv. destruct (searchsorted_spec time v Inc Kv) as (Hr & _ & HR).
      destruct (Nat.eq_dec (searchsorted time v) (length time)) as [E|E]; trivial.
      rewrite (HR (length time - 1)%nat) in Hv by lia. discriminate. }
    unfold by_searchsorted, searchsorted2. cbn [fst snd].
    rewrite (Sn xmin), (Sn xmax); trivial.
    exact (ltb_leb_trans _ _ _ Habove Hsel).
Qed.

Lemma axis4_increasing : increasing axis4.
Proof. apply increasingb_sound. reflexivity. Qed.

Lemma span_mapping_least_index_witness :
  exists startIdx endIdx,
    by_searchsorted axis4 0.2 0.6 = (startIdx, endIdx) /\
    by_argmax axis4 0.2 0.6 = Ok (startIdx, endIdx) /\
    first_ge axis4 0.2 startIdx /\
    first_ge axis4 0.6 endIdx /\
    (startIdx <= endIdx)%nat.
Proof.
  apply span_mapping_least_index;
    [apply increasingb_sound; reflexivity | reflexivity..].
Defined.

Lemma span_outside_axis_witness :
  ((-1 <? hd nan axis4) = true ->
   by_searchsorted axis4 (-2) (-1) = (O, O) /\
   by_argmax axis4 (-2) (-1) = Ok (O, O)) /\
  ((last axis4 nan <? -2) = true ->
   by_searchsorted axis4 (-2) (-1) = (length axis4, length axis4)).
Proof.
  apply span_outside_axis;
    [apply increasingb_sound; reflexivity | discriminate | reflexivity].
Defined.

(** C2 fails as stated: on the axis 0, 0.25, 0.5, 0.75 the selection
    (2, 3) lies wholly above the axis, whose last index is 3; the binary
    search returns 4 for both ends and [argmax] returns 0. *)
Lemma span_above_counterexample :
  increasing axis4 /\
  (last axis4 nan <? 2) = true /\
  (2 <=? 3) = true /\
  (length axis4 - 1)%nat = 3%nat /\
  by_searchsorted axis4 2 3 = (4%nat, 4%nat) /\
  by_argmax axis4 2 3 = Ok (O, O) /\
  by_searchsorted axis4 2 3 <> (3%nat, 3%nat) /\
  by_argmax axis4 2 3 <> Ok (3%nat, 3%nat).
Proof.
  split; [exact axis4_increasing|].
  repeat split; try reflexivity; discriminate.
Qed.

Module WorkerFacts.

Import Sounddevice FreeAdd.

(** One turn of the loop on a request: whatever the device does, the
    error is printed and the loop goes on with the rest of the queue. *)
Lemma worker_request (dev : device) (l : log) (data : list float)
      (fs : option Z) (rest : list item) :
  raises_exceptions dev ->
  _audio_worker ((Some data, fs) :: rest) dev l
  = _audio_worker rest dev (l ++ request_events dev l data fs).
Proof.
  intros Hdev. cbn [_audio_worker].
  unfold try_print, seq_io, call, print, request_events.
  destruct (dev (length l)) as [e|] eqn:E1.
  - rewrite (Hdev _ _ E1). now rewrite <- app_assoc.
  - rewrite length_app, Nat.add_1_r.
    destruct (dev (S (length l))) as [e|] eqn:E2.
    + rewrite (Hdev _ _ E2). now rewrite <- !app_assoc.
    + now rewrite <- app_assoc.
Qed.

Lemma filter_is_play_request dev l data fs :
  filter is_play (request_events dev l data fs) = [sd_play data fs true].
Proof.
  unfold request_events.
  destruct (dev (length l)); [reflexivity|].
  destruct (dev (S (length l))); reflexivity.
Qed.

End WorkerFacts.

Import Sounddevice FreeAdd WorkerFacts.

(** C7.  When the worker comes back to [audio_queue.get()] after the
    requests in flight and dequeues the sentinel, it leaves its loop: the
    thread is stopped, the sentinel has caused no call to the device, and
    whatever is behind the sentinel stays on the queue, unprocessed. *)
Theorem worker_stops_at_sentinel (before after : list item)
        (fs : option Z) (dev : device) (l l1 : log) :
  _audio_worker before dev l = ((Waiting, []), l1) ->
  _audio_worker (before ++ (None, fs) :: after) dev l
  = ((Stopped, after), l1).
Proof.
  revert l. induction before as [|[signal sfs] before IH]; intros l H.
  - cbn in H. injection H as <-. reflexivity.
  - cbn [_audio_worker app] in *. destruct signal as [data|]; [|discriminate H].
    destruct (try_print _ dev l) as [[u|e] l2]; [|discriminate H].
    now apply IH.
Qed.

(** C8.  Whatever [Exception]s the device raises, the worker never
    crashes: on a queue of requests it attempts every one of them, in
    order, and ends up waiting for the next; a request whose playback
    fails has its error printed and the next request is taken. *)
Theorem worker_survives_device_errors (queue : list item) (dev : device)
        (l : log) :
  raises_exceptions dev ->
  requests queue ->
  (forall data fs rest l0,
      _audio_worker ((Some data, fs) :: rest) dev l0
      = _audio_worker rest dev (l0 ++ request_events dev l0 data fs)) /\
  exists events,
    _audio_worker queue dev l = ((Waiting, []), l ++ events) /\
    filter is_play events = flat_map play_of queue.
Proof.
  intros Hdev Hq. split.
  - intros. now apply worker_request.
  - revert l. induction Hq as [|[signal fs] queue Hs Hq IH]; intros l.
    + exists []. cbn. now rewrite app_nil_r.
    + destruct signal as [data|]; [|now elim Hs].
      rewrite worker_request by exact Hdev.
      destruct (IH (l ++ request_events dev l data fs)) as (events & -> & Hf).
      exists (request_events dev l data fs ++ events).
      rewrite <- app_assoc. split; [reflexivity|].
      rewrite filter_app, filter_is_play_request, Hf. reflexivity.
Qed.

Import Fixtures.

Lemma worker_stops_at_sentinel_witness :
  _audio_worker (two_requests ++ (None, None) :: two_requests)
                sound_device []
  = ((Stopped, two_requests),
     [sd_play [1; 0.5]%float (Some 48000%Z) true; sd_wait;
      sd_play [0.25]%float (Some 48000%Z) true; sd_wait]).
Proof.
  apply (worker_stops_at_sentinel two_requests two_requests None
                                  sound_device []).
  reflexivity.
Defined.

Lemma worker_survives_device_errors_witness :
  (forall data fs rest l0,
      _audio_worker ((Some data, fs) :: rest) first_call_fails l0
      = _audio_worker rest first_call_fails
                      (l0 ++ request_events first_call_fails l0 data fs)) /\
  exists events,
    _audio_worker two_requests first_call_fails []
    = ((Waiting, []), [] ++ events) /\
    filter is_play events = flat_map play_of two_requests.
Proof.
  apply (worker_survives_device_errors two_requests first_call_fails []).
  - intros n e. unfold first_call_fails.
    destruct (n =? 0)%nat; [|discriminate]. now intros [= <-].
  - repeat constructor; discriminate.
Defined.

(** The failed first playback is printed and the second request is played
    and waited for. *)
Example worker_after_a_failure :
  _audio_worker two_requests first_call_fails []
  = ((Waiting, []),
     [sd_play [1; 0.5]%float (Some 48000%Z) true; print_error PortAudioError;
      sd_play [0.25]%float (Some 48000%Z) true; sd_wait]).
Proof. reflexivity. Qed.

(** What [except Exception] does not catch ends the thread. *)
Example worker_not_an_exception :
  _audio_worker two_requests (fun _ => Some KeyboardInterrupt) []
  = ((Crashed KeyboardInterrupt, [(Some [0.25]%float, Some 48000%Z)]),
     [sd_play [1; 0.5]%float (Some 48000%Z) true]).
Proof. reflexivity. Qed.

Module PreviewFacts.

Import Numpy Sounddevice Store.

(** A stop, then a play: what the two calls leave in the log, whatever
    the device answers. *)
Lemma stop_then_play (ev : event) (dev : device) (l : log) :
  is_play ev = true ->
  exists events,
    snd (seq_io (call sd_stop) (call ev) dev l) = l ++ events /\
    stop_before_play events = true.
Proof.
  intros Hev. unfold seq_io, call.
  destruct (dev (length l)).
  - exists [sd_stop]. split; reflexivity.
  - exists [sd_stop; ev]. cbn [snd]. rewrite <- app_assoc. split; trivial.
    destruct ev; try discriminate Hev. reflexivity.
Qed.

Lemma try_stop_then_play (ev : event) (dev : device) (l : log) :
  is_play ev = true ->
  exists events,
    snd (try_print (seq_io (call sd_stop) (call ev)) dev l) = l ++ events /\
    stop_before_play events = true.
Proof.
  intros Hev. unfold try_print, seq_io, call, print.
  destruct ev; try discriminate Hev.
  destruct (dev (length l)) as [e|].
  - destruct (is_Exception e); cbn [snd].
    + exists [sd_stop; print_error e]. rewrite <- app_assoc. split; reflexivity.
    + exists [sd_stop]. split; reflexivity.
  - destruct (dev (length (l ++ [sd_stop]))) as [e|].
    + destruct (is_Exception e); cbn [snd].
      * eexists [sd_stop; sd_play _ _ _; print_error e].
        rewrite <- !app_assoc. split; reflexivity.
      * eexists [sd_stop; sd_play _ _ _].
        rewrite <- !app_assoc. split; reflexivity.
    + cbn [snd]. eexists [sd_stop; sd_play _ _ _].
      rewrite <- !app_assoc. split; reflexivity.
Qed.

(** The pure-tone preview stops the device right before it plays. *)
Lemma pure_tone_preview_stops_first (self : PureTone.t) (xmin xmax : float)
      (dev : device) (l : log) :
  exists events,
    snd (PureTone.on_select_region self xmin xmax dev l) = l ++ events /\
    stop_before_play events = true.
Proof.
  unfold PureTone.on_select_region.
  destruct (length (PureTone.selectedAudio self) <=? 1)%nat.
  - exists []. now rewrite app_nil_r.
  - destruct (bind _ _) as [[idx_min idx_max]|e].
    + now apply stop_then_play.
    + exists []. now rewrite app_nil_r.
Qed.

(** So does the square-wave preview. *)
Lemma square_wave_preview_stops_first (self : SquareWave.t)
      (xmin xmax : float) (dev : device) (l : log) :
  exists events,
    snd (SquareWave.on_select_region self xmin xmax dev l) = l ++ events /\
    stop_before_play events = true.
Proof.
  unfold SquareWave.on_select_region.
  destruct (length (SquareWave.selectedAudio self) <=? 1)%nat.
  - exists []. now rewrite app_nil_r.
  - destruct (bind _ _) as [[idx_min idx_max]|e].
    + now apply stop_then_play.
    + exists []. now rewrite app_nil_r.
Qed.

(** And the preview of the additive dialog. *)
Lemma free_add_preview_stops_first (h : heap) (self : FreeAdd.t)
      (xmin xmax : float) (dev : device) (l : log) :
  exists events,
    snd (snd (FreeAdd.onselect h self xmin xmax) dev l) = l ++ events /\
    stop_before_play events = true.
Proof.
  unfold FreeAdd.onselect.
  destruct (len (FreeAdd.full_audio self) <=? 1)%nat.
  - exists []. now rewrite app_nil_r.
  - destruct (SpanMapper.by_searchsorted _ _ _) as [ini end_].
    destruct (copy _ _) as [h1 selected_audio].
    destruct (FreeAdd.apply_fade _ _ _) as [h2|e]; cbn [snd].
    + now apply try_stop_then_play.
    + exists []. now rewrite app_nil_r.
Qed.

End PreviewFacts.

Module StreamFacts.

Import Numpy Sounddevice Store Preview.











End StreamFacts.

Import Numpy Sounddevice Preview PreviewFacts StreamFacts Fixtures.



(** The noise callback on a plot of four samples, while two samples are
    playing: one call, a play; the stream halts what was playing, then
    starts the fragment. *)
Example noise_preview_evaluated :
  let previous := Some ([1; 1]%float, Some 44100%Z) in
  let events :=
    snd (run (noise (Scenes.plotted_widget 44100 [0%float]))
             0.25%float 0.5%float sound_device []) in
  events = [sd_play [2; 3]%float (Some 44100%Z) false] /\
  carry_out sound_device 0 events previous
  = (Some ([2; 3]%float, Some 44100%Z),
     [halted previous; started ([2; 3]%float, Some 44100%Z)]).
Proof. split; reflexivity. Qed.

(** The pure-tone callback in the same situation: two calls, a stop and a
    play; the stop halts what was playing, the play finds nothing to
    halt and starts the fragment. *)
Example pure_tone_preview_evaluated :
  let previous := Some ([1; 1]%float, Some 44100%Z) in
  let events :=
    snd (run (pure_tone Scenes.tone4) 0.25%float 0.5%float
             sound_device []) in
  events = [sd_stop; sd_play [2]%float (Some 44100%Z) false] /\
  carry_out sound_device 0 events previous
  = (Some ([2]%float, Some 44100%Z),
     [halted previous; halted None; started ([2]%float, Some 44100%Z)]).
Proof. split; reflexivity. Qed.

(** When the device cannot open the stream, the noise callback has
    stopped what was playing and nothing plays. *)
Example noise_preview_device_fails :
  let previous := Some ([1; 1]%float, Some 44100%Z) in
  let r := run (noise (Scenes.plotted_widget 44100 [0%float]))
               0.25%float 0.5%float first_call_fails [] in
  fst r = Raise PortAudioError /\
  carry_out first_call_fails 0 (snd r) previous
  = (None, [halted previous]).
Proof. split; reflexivity. Qed.

Module NoiseFacts.

Import Noise.
Local Open Scope Q_scope.






End NoiseFacts.

Import Noise NoiseFacts.


Import Binary64 Numpy Fixtures.


Local Open Scope float_scope.


Module StoreFacts.

Import Store.

Lemma set_nth_fresh (h : heap) (x v : list float) :
  set_nth (length h) v (h ++ [x]) = h ++ [v].
Proof. induction h as [|b h IH]; simpl; congruence. Qed.

Lemma buffer_fresh (h : heap) (x : list float) :
  buffer (h ++ [x]) (length h) = x.
Proof. unfold buffer. now rewrite app_nth2, Nat.sub_diag by lia. Qed.

Lemma buffer_old (h : heap) (x : list float) (b : nat) :
  b <> length h -> buffer (h ++ [x]) b = buffer h b.
Proof.
  intros Hb. unfold buffer.
  destruct (Nat.lt_ge_cases b (length h)) as [L|G].
  - now apply app_nth1.
  - rewrite !nth_overflow; trivial. rewrite length_app. simpl. lia.
Qed.

Lemma mul_zip_length (xs fs : list float) :
  length (mul_zip xs fs) = Nat.min (length xs) (length fs).
Proof.
  revert fs. induction xs as [|x xs IH]; intros [|f fs]; simpl; auto.
Qed.

Lemma mul_zip_nth (xs fs : list float) (i : nat) (d : float) :
  (i < length xs)%nat -> (i < length fs)%nat ->
  nth i (mul_zip xs fs) d = (nth i xs d * nth i fs d)%float.
Proof.
  revert fs i. induction xs as [|x xs IH]; intros [|f fs] [|i] Hx Hf;
    simpl in *; try lia; trivial.
  apply IH; lia.
Qed.

(** An in-place product on an array that owns the last buffer of the
    store rewrites that buffer and no other. *)
Lemma imul_fresh (h : heap) (buf factors : list float) (o n : nat) :
  length factors = n ->
  imul (h ++ [buf]) {| base := length h; off := o; len := n |} factors
  = Ok (h ++ [firstn o buf
              ++ mul_zip (firstn n (skipn o buf)) factors
              ++ skipn (o + n) buf]).
Proof.
  intros Hn. unfold imul. cbn [base off len].
  rewrite Hn, Nat.eqb_refl, buffer_fresh, set_nth_fresh. reflexivity.
Qed.

End StoreFacts.

Module FadeFacts.

Import Binary64 Numpy Store FreeAdd NumpyFacts StoreFacts.
Local Open Scope float_scope.

Lemma fade_in_ok (f : Z) :
  (0 <= f)%Z ->
  exists fi, fade_in_of f = Ok fi /\ length fi = Z.to_nat f.
Proof.
  intros H. unfold fade_in_of.
  destruct (linspace_length 0 1 f true H) as (y & -> & Hy).
  eexists. split; [reflexivity|]. now rewrite length_map.
Qed.

Lemma fade_out_ok (f : Z) :
  (0 <= f)%Z ->
  exists fo, fade_out_of f = Ok fo /\ length fo = Z.to_nat f.
Proof.
  intros H. unfold fade_out_of.
  destruct (linspace_length 1 0 f true H) as (y & -> & Hy).
  eexists. split; [reflexivity|]. now rewrite length_map.
Qed.

(** The two in-place products of lines 578-579 on an array that owns its
    buffer: the first [n] samples take the fade-in, the last [n] the
    fade-out, the samples between are left alone. *)
Lemma fade_products (h : heap) (sel fi fo : list float) (f : Z) :
  (1 <= f)%Z -> (4 * f <= Z.of_nat (length sel))%Z ->
  length fi = Z.to_nat f -> length fo = Z.to_nat f ->
  let a := {| base := length h; off := 0; len := length sel |} in
  let n := Z.to_nat f in
  exists faded,
    (h1 <- imul (h ++ [sel]) (view a None (Some f)) fi ;;
     imul h1 (view a (Some (- f)%Z) None) fo) = Ok (h ++ [faded]) /\
    length faded = length sel /\
    (forall i, (i < n)%nat ->
               nth i faded nan = nth i sel nan * nth i fi nan) /\
    (forall i, (n <= i)%nat -> (i < length sel - n)%nat ->
               nth i faded nan = nth i sel nan) /\
    (forall i, (i < n)%nat ->
               nth (length sel - n + i) faded nan
               = nth (length sel - n + i) sel nan * nth i fo nan).
Proof.
  intros Hf HL Hfi Hfo a n.
  set (L := length sel) in *.
  assert (Hn : (1 <= n /\ 4 * n <= L)%nat) by (unfold n; lia).
  assert (V1 : view a None (Some f)
               = {| base := length h; off := 0; len := n |}).
  { unfold view, norm_index, a. cbn [base off len].
    destruct (f <? 0)%Z eqn:E; [lia|]. f_equal. unfold n. lia. }
  assert (V2 : view a (Some (- f)%Z) None
               = {| base := length h; off := L - n; len := n |}).
  { unfold view, norm_index, a. cbn [base off len].
    destruct (- f <? 0)%Z eqn:E; [|lia]. f_equal; unfold n; lia. }
  rewrite V1, V2.
  rewrite imul_fresh by exact Hfi. cbn [bind].
  rewrite imul_fresh by exact Hfo.
  cbn [firstn skipn app Nat.add].
  set (first := mul_zip (firstn n sel) fi ++ skipn n sel).
  assert (Lz : length (mul_zip (firstn n sel) fi) = n).
  { rewrite mul_zip_length, length_firstn. fold L. lia. }
  assert (Lfirst : length first = L).
  { unfold first. rewrite length_app, Lz, length_skipn. fold L. lia. }
  assert (N1 : forall i, (i < n)%nat ->
                         nth i first nan = nth i sel nan * nth i fi nan).
  { intros i Hi. unfold first. rewrite app_nth1 by lia.
    rewrite mul_zip_nth; [|rewrite length_firstn; fold L; lia|lia].
    rewrite nth_firstn. destruct (i <? n)%nat eqn:E; trivial.
    apply Nat.ltb_ge in E. lia. }
  assert (N2 : forall i, (n <= i)%nat -> nth i first nan = nth i sel nan).
  { intros i Hi. unfold first. rewrite app_nth2 by lia.
    rewrite Lz, nth_skipn. f_equal. lia. }
  assert (Lz2 : length (mul_zip (firstn n (skipn (L - n) first)) fo) = n).
  { rewrite mul_zip_length, length_firstn, length_skipn, Lfirst. lia. }
  eexists. split; [reflexivity|]. repeat split.
  - rewrite !length_app, Lz2, length_firstn, length_skipn, Lfirst. lia.
  - intros i Hi. rewrite app_nth1 by (rewrite length_firstn, Lfirst; lia).
    rewrite nth_firstn. destruct (i <? L - n)%nat eqn:E.
    + now apply N1.
    + apply Nat.ltb_ge in E. lia.
  - intros i Hi1 Hi2.
    rewrite app_nth1 by (rewrite length_firstn, Lfirst; lia).
    rewrite nth_firstn. destruct (i <? L - n)%nat eqn:E.
    + now apply N2.
    + apply Nat.ltb_ge in E. lia.
  - intros i Hi.
    rewrite app_nth2 by (rewrite length_firstn, Lfirst; lia).
    rewrite length_firstn, Lfirst.
    replace (L - n + i - Nat.min (L - n) L)%nat with i by lia.
    rewrite app_nth1 by lia.
    rewrite mul_zip_nth;
      [|rewrite length_firstn, length_skipn, Lfirst; lia|lia].
    rewrite nth_firstn. destruct (i <? n)%nat eqn:E;
      [|apply Nat.ltb_ge in E; lia].
    rewrite nth_skipn. now rewrite N2 by lia.
Qed.

Lemma zrange_in (lo : Z) (n : nat) (z : Z) :
  (lo <= z < lo + Z.of_nat n)%Z -> In z (zrange lo n).
Proof.
  revert lo. induction n as [|n IH]; intros lo H; [lia|].
  cbn [zrange]. destruct (Z.eq_dec lo z) as [E|E]; [now left|].
  right. apply IH. lia.
Qed.

(** Checked on every sample rate from 0 to 48000. *)
Lemma fade_length_checked :
  forallb fade_length_ok (zrange 0 (Z.to_nat 48001)) = true.
Proof. vm_compute. reflexivity. Qed.

Lemma fade_length_in_range (fs : Z) :
  (0 <= fs <= 48000)%Z ->
  exists k, py_int (0.02 * Z2F fs) = Ok k /\
            floor (0.02 * Z2F fs) = Some k /\ (0 <= k <= 960)%Z.
Proof.
  intros H. pose proof fade_length_checked as C.
  rewrite forallb_forall in C.
  assert (I : In fs (zrange 0 (Z.to_nat 48001)))
    by (apply zrange_in; rewrite Z2Nat.id; lia).
  specialize (C fs I).
  unfold fade_length_ok in C.
  destruct (py_int _) as [k|]; [|discriminate].
  destruct (floor _) as [k'|]; [|discriminate].
  apply andb_prop in C as [C C3]. apply andb_prop in C as [C1 C2].
  exists k. apply Z.eqb_eq in C1. subst k'. repeat split; lia.
Qed.

(** Checked on every fade of 2 to 960 samples. *)
Lemma fade_in_checked :
  forallb fade_in_starts_at_zero (zrange 1 959) = true.
Proof. vm_compute. reflexivity. Qed.

Lemma set_last_head (a b : float) (rest : list float) (v : float) :
  nth 0 (set_last (a :: b :: rest) v) nan = a.
Proof. reflexivity. Qed.

Lemma linspace_head (start stop : float) (num : Z) (y : list float) :
  (2 <= num)%Z ->
  linspace start stop num true = Ok y ->
  nth 0 y nan = linspace_first start stop (num - 1).
Proof.
  intros H. unfold linspace, linspace_first.
  destruct (num <? 0)%Z eqn:E; [lia|].
  destruct (0 <? num - 1)%Z eqn:E1; [|lia].
  destruct (1 <? num)%Z eqn:E2; [|lia].
  cbn [andb]. intros [= <-].
  unfold arange.
  destruct (Z.to_nat num) as [|[|k]] eqn:Ek; try lia.
  cbn [seq map].
  destruct (PrimFloat.eqb _ _); reflexivity.
Qed.

(** The fade-in ramp starts at zero. *)
Lemma fade_in_first (f : Z) (fi : list float) :
  (1 <= f <= 960)%Z -> fade_in_of f = Ok fi ->
  is_zero_val (nth 0 fi nan) = true.
Proof.
  intros H. destruct (Z.eq_dec f 1) as [->|N].
  - intros [= <-]. reflexivity.
  - unfold fade_in_of.
    destruct (linspace 0 1 f true) as [y|] eqn:Ey; [|discriminate].
    intros [= <-].
    pose proof (linspace_head 0 1 f y ltac:(lia) Ey) as Hd.
    assert (Hy : y <> []).
    { destruct (linspace_length 0 1 f true ltac:(lia)) as (y' & Ey' & Ly).
      rewrite Ey in Ey'. injection Ey' as <-. intros ->. simpl in Ly. lia. }
    destruct y as [|a y]; [congruence|]. cbn [map nth] in *. subst a.
    pose proof fade_in_checked as C. rewrite forallb_forall in C.
    apply (C (f - 1)%Z). apply zrange_in. lia.
Qed.

Lemma set_last_last (y : list float) (v : float) :
  y <> [] -> last (set_last y v) nan = v.
Proof.
  induction y as [|a [|b rest] IH]; intros H; [congruence|reflexivity|].
  change (set_last (a :: b :: rest) v) with (a :: set_last (b :: rest) v).
  destruct (set_last (b :: rest) v) as [|c r] eqn:E.
  - destruct rest; discriminate E.
  - change (last (a :: c :: r) nan) with (last (c :: r) nan).
    apply IH. discriminate.
Qed.

Lemma last_map_sq (y : list float) :
  y <> [] ->
  last (map (fun v => v * v) y) nan = last y nan * last y nan.
Proof.
  induction y as [|a [|b rest] IH]; intros H; [congruence|reflexivity|].
  change (last (map (fun v => v * v) (a :: b :: rest)) nan)
    with (last (map (fun v => v * v) (b :: rest)) nan).
  change (last (a :: b :: rest) nan) with (last (b :: rest) nan).
  apply IH. discriminate.
Qed.

(** The fade-out ramp of two samples or more ends at zero. *)
Lemma fade_out_last (f : Z) (fo : list float) :
  (2 <= f)%Z -> fade_out_of f = Ok fo ->
  is_zero_val (last fo nan) = true.
Proof.
  intros H. unfold fade_out_of, linspace.
  destruct (f <? 0)%Z eqn:E; [lia|].
  destruct (1 <? f)%Z eqn:E2; [|lia].
  cbn [andb bind]. intros [= <-].
  set (y := map (fun v => v + 1) _).
  assert (Hy : y <> []).
  { assert (Ly : length y = Z.to_nat f).
    { unfold y. rewrite length_map.
      destruct (0 <? f - 1)%Z; try destruct (PrimFloat.eqb _ _);
        unfold arange; now rewrite !length_map, length_seq. }
    intros C. rewrite C in Ly. simpl in Ly. lia. }
  assert (Hs : set_last y 0 <> []).
  { destruct y as [|a [|b r]]; [congruence|discriminate|discriminate]. }
  rewrite last_map_sq by exact Hs.
  rewrite set_last_last by exact Hy. reflexivity.
Qed.

(** A finite sample times a zero is a zero. *)
Lemma mul_zero_val (x z : float) :
  finite x = true -> is_zero_val z = true -> is_zero_val (x * z) = true.
Proof.
  unfold finite, is_zero_val. rewrite mul_spec.
  destruct (Prim2SF x), (Prim2SF z); try discriminate; reflexivity.
Qed.

Lemma arange_nth (num : Z) (i : nat) :
  (i < Z.to_nat num)%nat -> nth i (arange num) nan = Z2F (Z.of_nat i).
Proof.
  intros H. unfold arange.
  rewrite (nth_indep _ nan (Z2F (Z.of_nat 0))) by now rewrite length_map, length_seq.
  rewrite (map_nth (fun i => Z2F (Z.of_nat i))). now rewrite seq_nth.
Qed.

Lemma set_last_nth (y : list float) (v : float) (i : nat) :
  (i < length y)%nat ->
  nth i (set_last y v) nan
  = if (i =? length y - 1)%nat then v else nth i y nan.
Proof.
  revert i. induction y as [|a [|b rest] IH]; intros i H.
  - simpl in H. lia.
  - simpl in H. assert (i = 0%nat) as -> by lia. reflexivity.
  - change (set_last (a :: b :: rest) v) with (a :: set_last (b :: rest) v).
    destruct i as [|i]; [reflexivity|].
    cbn [nth]. rewrite IH by (simpl in *; lia).
    cbn [length]. replace (S (S (length rest)) - 1)%nat with (S (length rest)) by lia.
    replace (S (length rest) - 1)%nat with (length rest) by lia.
    reflexivity.
Qed.

Lemma linspace_items (start stop : float) (num : Z) (y : list float) :
  (2 <= num)%Z ->
  ((stop - start) / Z2F (num - 1) =? 0) = false ->
  linspace start stop num true = Ok y ->
  forall i, (i < Z.to_nat num)%nat ->
            nth i y nan = linspace_item start stop num i.
Proof.
  intros H Hs. unfold linspace, linspace_item.
  destruct (num <? 0)%Z eqn:E; [lia|].
  destruct (0 <? num - 1)%Z eqn:E1; [|lia].
  destruct (1 <? num)%Z eqn:E2; [|lia].
  cbn [andb]. rewrite Hs. intros [= <-] i Hi.
  rewrite set_last_nth by now rewrite !length_map, arange_length.
  rewrite !length_map, arange_length.
  destruct (i =? Z.to_nat num - 1)%nat eqn:Ei.
  - apply Nat.eqb_eq in Ei.
    destruct (Z.of_nat i =? num - 1)%Z eqn:Ez; [reflexivity|].
    apply Z.eqb_neq in Ez. lia.
  - apply Nat.eqb_neq in Ei.
    destruct (Z.of_nat i =? num - 1)%Z eqn:Ez; [apply Z.eqb_eq in Ez; lia|].
    rewrite (nth_indep _ nan ((fun v => v + start) nan))
      by now rewrite !length_map, arange_length.
    rewrite (map_nth (fun v => v + start)).
    rewrite (nth_indep _ nan ((fun v => v * ((stop - start) / Z2F (num - 1))) nan))
      by now rewrite !length_map, arange_length.
    rewrite (map_nth (fun v => v * ((stop - start) / Z2F (num - 1)))).
    now rewrite arange_nth.
Qed.

(** Checked on every fade of 2 to 960 samples. *)
Lemma fade_steps_checked :
  forallb fade_steps_ok (zrange 1 959) = true.
Proof. vm_compute. reflexivity. Qed.

Lemma nth_map_sq (y : list float) (i : nat) :
  (i < length y)%nat ->
  nth i (map (fun v => v * v) y) nan = nth i y nan * nth i y nan.
Proof.
  intros H.
  rewrite (nth_indep _ nan ((fun v => v * v) nan)) by now rewrite length_map.
  now rewrite (map_nth (fun v => v * v)).
Qed.

(** The items of the two ramps of two samples or more. *)
Lemma fade_ramps (f : Z) (fi fo : list float) :
  (2 <= f <= 960)%Z ->
  fade_in_of f = Ok fi -> fade_out_of f = Ok fo ->
  forall i, (i < Z.to_nat f)%nat ->
            nth i fi nan = ramp_item 0 1 f i /\
            nth i fo nan = ramp_item 1 0 f i.
Proof.
  intros H. unfold fade_in_of, fade_out_of.
  destruct (linspace_length 0 1 f true ltac:(lia)) as (y & Ey & Ly).
  destruct (linspace_length 1 0 f true ltac:(lia)) as (z & Ez & Lz).
  rewrite Ey, Ez. cbn [bind]. intros [= <-] [= <-] i Hi.
  pose proof fade_steps_checked as C. rewrite forallb_forall in C.
  specialize (C (f - 1)%Z (zrange_in 1 959 (f - 1) ltac:(lia))).
  unfold fade_steps_ok in C. apply andb_prop in C as [C1 C2].
  apply negb_true_iff in C1, C2.
  rewrite !nth_map_sq by lia. unfold ramp_item. cbv zeta.
  rewrite (linspace_items 0 1 f y) by (trivial; lia).
  rewrite (linspace_items 1 0 f z) by (trivial; lia).
  split; reflexivity.
Qed.

End FadeFacts.

Import Binary64 Numpy Store FreeAdd StoreFacts FadeFacts Fixtures.
Local Open Scope float_scope.

Lemma read_fresh (h : heap) (x : list float) :
  read (h ++ [x]) {| base := length h; off := 0; len := length x |} = x.
Proof.
  unfold read. cbn [base off len]. rewrite buffer_fresh.
  cbn [skipn]. apply firstn_all.
Qed.

(** C6 (as amended).  For a sample rate from 0 to 48000 and an extracted
    copy of [L] finite samples, the fade length is
    [min (floor (0.02 * fs)) (L / 4)]; a fade length of 0 leaves the copy
    as it is; from 1 on the first [fade_samples] samples are the original
    ones times [np.linspace(0, 1, fade_samples) ** 2] and the last
    [fade_samples] the original ones times
    [np.linspace(1, 0, fade_samples) ** 2], item by item; the ramps are
    [[0]] and [[1]] for a fade length of 1 and, from 2 on, the squares of
    [i * (1 / (fade_samples - 1)) + 0] and of
    [i * (-1 / (fade_samples - 1)) + 1], with the last items 1 and 0
    themselves; so the first sample of the faded copy is 0, from 2 on the
    last one is 0 too; and every sample from index [fade_samples] up to,
    not including, index [L - fade_samples] is the original one. *)
Theorem fade_boundaries (h : heap) (fs : Z) (sel : list float) :
  (0 <= fs <= 48000)%Z ->
  Forall (fun x => finite x = true) sel ->
  let h1 := fst (alloc h sel) in
  let selected_audio := snd (alloc h sel) in
  exists k fade_samples h2,
    floor (0.02 * Z2F fs) = Some k /\
    fade_samples = Z.min k (Z.of_nat (length sel) / 4) /\
    fade_samples_of fs (length sel) = Ok fade_samples /\
    apply_fade h1 fs selected_audio = Ok h2 /\
    let faded := read h2 selected_audio in
    length faded = length sel /\
    (fade_samples <= 0 -> faded = sel)%Z /\
    (1 <= fade_samples -> is_zero_val (nth 0 faded nan) = true)%Z /\
    (2 <= fade_samples -> is_zero_val (last faded nan) = true)%Z /\
    (forall i, (fade_samples <= Z.of_nat i)%Z ->
               (Z.of_nat i < Z.of_nat (length sel) - fade_samples)%Z ->
               nth i faded nan = nth i sel nan) /\
    (sel <> [] ->
     nth (Z.to_nat fade_samples) faded nan
     = nth (Z.to_nat fade_samples) sel nan) /\
    ((1 <= fade_samples)%Z ->
     exists fade_in fade_out,
       fade_in_of fade_samples = Ok fade_in /\
       fade_out_of fade_samples = Ok fade_out /\
       (forall i, (i < Z.to_nat fade_samples)%nat ->
                  let j := (length sel - Z.to_nat fade_samples + i)%nat in
                  nth i faded nan = nth i sel nan * nth i fade_in nan /\
                  nth j faded nan = nth j sel nan * nth i fade_out nan) /\
       (fade_samples = 1%Z -> fade_in = [0] /\ fade_out = [1]) /\
       ((2 <= fade_samples)%Z ->
        forall i, (i < Z.to_nat fade_samples)%nat ->
                  nth i fade_in nan = ramp_item 0 1 fade_samples i /\
                  nth i fade_out nan = ramp_item 1 0 fade_samples i)).
Proof.
  intros Hfs Hfin. cbn [alloc fst snd].
  destruct (fade_length_in_range fs Hfs) as (k & Hint & Hfloor & Hk).
  set (L := length sel).
  set (f := Z.min k (Z.of_nat L / 4)).
  assert (Hfade : fade_samples_of fs L = Ok f).
  { unfold fade_samples_of. now rewrite Hint. }
  exists k, f. unfold apply_fade. cbn [len]. fold L. rewrite Hfade. cbn [bind].
  assert (H4 : (4 * f <= Z.of_nat L)%Z).
  { pose proof (Z.mul_div_le (Z.of_nat L) 4 ltac:(lia)). unfold f. lia. }
  destruct (0 <? f)%Z eqn:E.
  - apply Z.ltb_lt in E.
    destruct (fade_in_ok f ltac:(lia)) as (fi & Hfi & Lfi).
    destruct (fade_out_ok f ltac:(lia)) as (fo & Hfo & Lfo).
    rewrite Hfi, Hfo. cbn [bind].
    destruct (fade_products h sel fi fo f ltac:(lia) H4 Lfi Lfo)
      as (faded & Hp & Lf & N1 & N2 & N3).
    fold L in Hp, Lf, N2, N3.
    assert (R : read (h ++ [faded])
                     {| base := length h; off := 0; len := L |} = faded).
    { rewrite <- Lf. apply read_fresh. }
    exists (h ++ [faded]). cbv zeta. rewrite R.
    split; [exact Hfloor|]. split; [reflexivity|]. split; [reflexivity|].
    split; [exact Hp|]. split; [exact Lf|]. split; [lia|].
    split; [|split; [|split; [|split]]].
    + intros _. rewrite N1 by lia. apply mul_zero_val.
      * rewrite Forall_forall in Hfin. apply Hfin. apply nth_In. fold L. lia.
      * apply (fade_in_first f); trivial. unfold f. lia.
    + intros H2. rewrite SpanMapperFacts.last_nth, Lf.
      replace (L - 1)%nat with (L - Z.to_nat f + (Z.to_nat f - 1))%nat by lia.
      rewrite N3 by lia. apply mul_zero_val.
      * rewrite Forall_forall in Hfin. apply Hfin. apply nth_In. fold L. lia.
      * replace (Z.to_nat f - 1)%nat with (length fo - 1)%nat by lia.
        rewrite <- SpanMapperFacts.last_nth. now apply (fade_out_last f).
    + intros i Hi1 Hi2. apply N2; lia.
    + intros _. apply N2; lia.
    + intros _. exists fi, fo.
      split; [reflexivity|]. split; [reflexivity|].
      split; [|split].
      * intros i Hi. split; [now apply N1|now apply N3].
      * intros F1. rewrite F1 in Hfi, Hfo.
        injection Hfi as <-. injection Hfo as <-. now split.
      * intros H2. apply (fade_ramps f); trivial. unfold f. lia.
  - apply Z.ltb_ge in E.
    exists (h ++ [sel]). cbv zeta. unfold L. rewrite read_fresh. fold L.
    split; [exact Hfloor|]. split; [reflexivity|]. split; [reflexivity|].
    repeat split; trivial; intros; exfalso; lia.
Qed.

Lemma imul_fresh_shape (h : heap) (x : list float) (v : ndarray)
      (factors : list float) (h2 : heap) :
  base v = length h ->
  imul (h ++ [x]) v factors = Ok h2 ->
  exists x', h2 = h ++ [x'].
Proof.
  intros Hb. unfold imul. rewrite Hb.
  destruct (length factors =? len v)%nat.
  - intros [= <-]. eexists. apply set_nth_fresh.
  - destruct factors as [|f [|g r]]; try discriminate.
    intros [= <-]. eexists. apply set_nth_fresh.
Qed.

(** The fade writes the buffer of the array it is given, and no other. *)
Lemma apply_fade_fresh_shape (h : heap) (x : list float) (fs : Z)
      (a : ndarray) (h2 : heap) :
  base a = length h ->
  apply_fade (h ++ [x]) fs a = Ok h2 ->
  exists x', h2 = h ++ [x'].
Proof.
  intros Hb. unfold apply_fade.
  destruct (fade_samples_of fs (len a)) as [f|]; [|discriminate]. cbn [bind].
  destruct (0 <? f)%Z.
  - destruct (fade_in_of f) as [fi|]; [|discriminate].
    destruct (fade_out_of f) as [fo|]; [|discriminate]. cbn [bind].
    destruct (imul (h ++ [x]) _ fi) as [h1|] eqn:E1; [|discriminate].
    cbn [bind]. apply imul_fresh_shape in E1 as (x1 & ->); [|exact Hb].
    intros E2. apply imul_fresh_shape in E2; [exact E2|exact Hb].
  - intros [= <-]. now exists x.
Qed.

(** C10.  Selecting a span of the additive dialog, with the extraction,
    the fade and the submission to the device, leaves every buffer the
    store held before as it was: [full_audio] is the same array on the
    same samples. *)
Theorem selection_leaves_source (h : heap) (self : FreeAdd.t)
        (xmin xmax : float) :
  (base (full_audio self) < length h)%nat ->
  let r := onselect h self xmin xmax in
  let h' := fst (fst r) in
  let self' := snd (fst r) in
  full_audio self' = full_audio self /\
  read h' (full_audio self') = read h (full_audio self) /\
  (forall b, (b < length h)%nat -> buffer h' b = buffer h b).
Proof.
  intros Hb. cbv zeta. unfold onselect.
  destruct (len (full_audio self) <=? 1)%nat; [repeat split|].
  destruct (SpanMapper.by_searchsorted _ _ _) as [ini end_].
  unfold copy, alloc.
  set (x := read h _).
  destruct (apply_fade _ _ _) as [h2|e] eqn:E; cbn [fst snd].
  - apply apply_fade_fresh_shape in E as (x' & ->); [|reflexivity].
    assert (B : forall b, (b < length h)%nat ->
                          buffer (h ++ [x']) b = buffer h b).
    { intros b Hlt. apply buffer_old. lia. }
    repeat split; trivial. unfold read. now rewrite B.
  - assert (B : forall b, (b < length h)%nat ->
                          buffer (h ++ [x]) b = buffer h b).
    { intros b Hlt. apply buffer_old. lia. }
    repeat split; trivial. unfold read. now rewrite B.
Qed.

Lemma fade_boundaries_witness :
  exists k fade_samples h2,
    floor (0.02 * Z2F 200) = Some k /\
    fade_samples = Z.min k (Z.of_nat (length sixteen_ones) / 4) /\
    fade_samples_of 200 (length sixteen_ones) = Ok fade_samples /\
    apply_fade (fst (alloc [] sixteen_ones)) 200
               (snd (alloc [] sixteen_ones)) = Ok h2 /\
    let faded := read h2 (snd (alloc [] sixteen_ones)) in
    length faded = length sixteen_ones /\
    (fade_samples <= 0 -> faded = sixteen_ones)%Z /\
    (1 <= fade_samples -> is_zero_val (nth 0 faded nan) = true)%Z /\
    (2 <= fade_samples -> is_zero_val (last faded nan) = true)%Z /\
    (forall i, (fade_samples <= Z.of_nat i)%Z ->
               (Z.of_nat i < Z.of_nat (length sixteen_ones) - fade_samples)%Z ->
               nth i faded nan = nth i sixteen_ones nan) /\
    (sixteen_ones <> [] ->
     nth (Z.to_nat fade_samples) faded nan
     = nth (Z.to_nat fade_samples) sixteen_ones nan) /\
    ((1 <= fade_samples)%Z ->
     exists fade_in fade_out,
       fade_in_of fade_samples = Ok fade_in /\
       fade_out_of fade_samples = Ok fade_out /\
       (forall i, (i < Z.to_nat fade_samples)%nat ->
                  let j := (length sixteen_ones - Z.to_nat fade_samples + i)%nat in
                  nth i faded nan = nth i sixteen_ones nan * nth i fade_in nan /\
                  nth j faded nan = nth j sixteen_ones nan * nth i fade_out nan) /\
       (fade_samples = 1%Z -> fade_in = [0] /\ fade_out = [1]) /\
       ((2 <= fade_samples)%Z ->
        forall i, (i < Z.to_nat fade_samples)%nat ->
                  nth i fade_in nan = ramp_item 0 1 fade_samples i /\
                  nth i fade_out nan = ramp_item 1 0 fade_samples i)).
Proof.
  apply (fade_boundaries [] 200 sixteen_ones).
  - lia.
  - repeat constructor.
Defined.

(** The selection of the witness, faded: four samples rise along
    [(i/3)^2], four fall along [(1 - i/3)^2], eight are untouched. *)
Example fade_evaluated :
  fade_samples_of 200 (length sixteen_ones) = Ok 4%Z /\
  fade_in_of 4 = Ok [0; 0x1.c71c71c71c71cp-4; 0x1.c71c71c71c71cp-2; 1] /\
  fade_out_of 4 = Ok [1; 0x1.c71c71c71c71ep-2; 0x1.c71c71c71c71ep-4; 0] /\
  apply_fade (fst (alloc [] sixteen_ones)) 200 (snd (alloc [] sixteen_ones))
  = Ok [[0; 0x1.c71c71c71c71cp-4; 0x1.c71c71c71c71cp-2; 1;
         1; 1; 1; 1; 1; 1; 1; 1;
         1; 0x1.c71c71c71c71ep-2; 0x1.c71c71c71c71ep-4; 0]].
Proof. repeat split. Qed.

(** C6 fails as stated.  A selection of three samples has fade length 0
    and is played as it is: its first and last samples are not 0.  (A
    selection of four samples has fade length 1: the first sample becomes
    0, the last one is multiplied by 1.) *)
Lemma fade_short_selection_counterexample :
  let three := [1; 1; 1] in
  let four := [1; 1; 1; 1] in
  fade_samples_of 48000 (length three) = Ok 0%Z /\
  apply_fade (fst (alloc [] three)) 48000 (snd (alloc [] three))
  = Ok [three] /\
  is_zero_val (nth 0 (read [three] (snd (alloc [] three))) nan) = false /\
  is_zero_val (last (read [three] (snd (alloc [] three))) nan) = false /\
  fade_samples_of 48000 (length four) = Ok 1%Z /\
  apply_fade (fst (alloc [] four)) 48000 (snd (alloc [] four))
  = Ok [[0; 1; 1; 1]] /\
  is_zero_val (last (read [[0; 1; 1; 1]] (snd (alloc [] four))) nan) = false.
Proof. cbv zeta. repeat split; reflexivity. Qed.

Lemma selection_leaves_source_witness :
  let r := onselect [ten_ones] dialog 0.1 0.35 in
  let h' := fst (fst r) in
  let self' := snd (fst r) in
  full_audio self' = full_audio dialog /\
  read h' (full_audio self') = read [ten_ones] (full_audio dialog) /\
  (forall b, (b < length [ten_ones])%nat ->
             buffer h' b = buffer [ten_ones] b).
Proof.
  apply (selection_leaves_source [ten_ones] dialog 0.1 0.35).
  simpl. lia.
Defined.

(** The selection of the witness, evaluated: the copy is the second
    buffer, faded; the first buffer is the source, untouched. *)
Example selection_evaluated :
  fst (fst (onselect [ten_ones] dialog 0.1 0.35))
  = [ten_ones; [0; 1; 1; 1]].
Proof. reflexivity. Qed.

(** Without the copy the fade would reach the source: a fade through a
    window writes the buffer the window is on. *)
Example fade_through_a_window :
  apply_fade [ten_ones] 48000
             (view (full_audio dialog) (Some 1%Z) (Some 9%Z))
  = Ok [[1; 0; 1; 1; 1; 1; 1; 1; 0; 1]].
Proof. reflexivity. Qed.

Module PianoFacts.

Import Piano.
Local Open Scope R_scope.

Lemma Int_part_between (x : R) (n : Z) :
  IZR n <= x < IZR n + 1 -> Int_part x = n.
Proof.
  intros [H1 H2]. symmetry. apply Int_part_spec. lra.
Qed.

(** Rounding a real that lies strictly within one half of an integer. *)
Lemma py_round_near (x : R) (n : Z) :
  IZR n - 1 / 2 < x < IZR n + 1 / 2 -> py_round x = n.
Proof.
  intros [H1 H2]. unfold py_round.
  destruct (Rlt_le_dec x (IZR n)) as [L|G].
  - assert (E : Int_part x = (n - 1)%Z).
    { apply Int_part_between. rewrite minus_IZR. lra. }
    rewrite E, minus_IZR.
    destruct (Rlt_dec _ _) as [A|A]; [lra|].
    destruct (Rlt_dec _ _) as [B|B]; [lia|lra].
  - assert (E : Int_part x = n) by (apply Int_part_between; lra).
    rewrite E.
    destruct (Rlt_dec _ _) as [A|A]; [reflexivity|lra].
Qed.

Lemma py_round_IZR (n : Z) : py_round (IZR n) = n.
Proof. apply py_round_near. lra. Qed.

(** MIDI note 69 is 440 Hz. *)
Lemma fundfreq_69 : fundfreq 69 = 440.
Proof.
  unfold fundfreq. replace ((69 - 69) / 12) with 0 by lra.
  rewrite Rpower_O by lra. lra.
Qed.

(** MIDI note 48: the fourth power of the frequency is 440^4 / 2^7. *)
Lemma fundfreq_48_pow4 : fundfreq 48 ^ 4 = 440 ^ 4 / 2 ^ 7.
Proof.
  unfold fundfreq. rewrite Rpow_mult_distr.
  rewrite <- (Rpower_pow 4 (Rpower 2 _)) by (unfold Rpower; apply exp_pos).
  rewrite Rpower_mult.
  replace ((48 - 69) / 12 * INR 4) with (- INR 7) by (simpl; lra).
  rewrite Rpower_Ropp, Rpower_pow by lra. reflexivity.
Qed.

Lemma fundfreq_pos (m : Z) : 0 < fundfreq m.
Proof.
  unfold fundfreq. apply Rmult_lt_0_compat; [lra|].
  unfold Rpower. apply exp_pos.
Qed.

Lemma pow4_lt_inv (a b : R) : 0 <= a -> 0 <= b -> a ^ 4 < b ^ 4 -> a < b.
Proof.
  intros Ha Hb H. destruct (Rlt_le_dec a b) as [L|G]; trivial.
  exfalso. pose proof (pow_incr b a 4 (conj Hb G)). lra.
Qed.

(** MIDI note 48 is about 130.81 Hz. *)
Lemma fundfreq_48_bounds : 130.81 < fundfreq 48 < 130.82.
Proof.
  pose proof (fundfreq_pos 48) as P.
  pose proof fundfreq_48_pow4 as E.
  split; apply pow4_lt_inv; try lra; rewrite E; lra.
Qed.

End PianoFacts.

Module HarmonicsFacts.

Import Binary64 Numpy Store FreeAdd Piano PianoFacts.

(** Plotting leaves the spin boxes and the sliders as they are. *)
Lemma plotFAPT_boxes (np_sin : float -> float) (h : heap) (self : t) :
  freq_spinboxes (snd (fst (plotFAPT np_sin h self))) = freq_spinboxes self /\
  amp_sliders (snd (fst (plotFAPT np_sin h self))) = amp_sliders self.
Proof.
  unfold plotFAPT.
  destruct (synthesize _ _ _ _ _) as [[time signal]|e]; [|now split].
  unfold alloc. destruct (py_max _) as [p|e]; [|now split].
  unfold addLoadButton. destruct (linspace _ _ _ _); now split.
Qed.

Lemma harmonic_amplitudes :
  map (fun ha : Z * float => py_int (snd ha * 100)) harmonics
  = [Ok 83%Z; Ok 67%Z; Ok 50%Z; Ok 33%Z; Ok 17%Z].
Proof. reflexivity. Qed.

Lemma set_nth_length {A : Type} (n : nat) (x : A) (l : list A) :
  length (set_nth n x l) = length l.
Proof.
  revert n. induction l as [|a l IH]; intros [|n]; simpl; auto.
Qed.

Section Harmonics.

Variable f0 : R.

(** One turn of the loop of lines 477-481, within the boxes. *)
Lemma set_harmonics_cons (i : nat) (multiple : Z) (amp : float) (a : Z)
      (rest : list (Z * float)) (self : t) :
  (i < length (freq_spinboxes self))%nat ->
  (i < length (amp_sliders self))%nat ->
  py_int (amp * 100) = Ok a ->
  set_harmonics f0 i ((multiple, amp) :: rest) self
  = set_harmonics f0 (S i) rest
      (set_amp_sliders
         (set_freq_spinboxes self
            (set_nth i (Qt.setValue 0 24000 (py_round (f0 * IZR multiple)%R))
                     (freq_spinboxes self)))
         (set_nth i (Qt.setValue 0 100 a) (amp_sliders self))).
Proof.
  intros Hf Ha Hamp. cbn [set_harmonics].
  apply Nat.ltb_lt in Hf. rewrite Hf.
  unfold spin_setValue. rewrite Hf. rewrite Hamp.
  unfold slider_setValue. cbn [amp_sliders set_freq_spinboxes].
  apply Nat.ltb_lt in Ha. rewrite Ha. reflexivity.
Qed.

End Harmonics.

Lemma spin_setValue_ok (self : t) (i : nat) (v : Z) :
  (i < length (freq_spinboxes self))%nat ->
  spin_setValue self i v
  = (set_freq_spinboxes self
       (set_nth i (Qt.setValue 0 24000 v) (freq_spinboxes self)), Ok tt).
Proof.
  intros H. unfold spin_setValue. apply Nat.ltb_lt in H. now rewrite H.
Qed.

Lemma slider_setValue_ok (self : t) (i : nat) (v : Z) :
  (i < length (amp_sliders self))%nat ->
  slider_setValue self i v
  = (set_amp_sliders self
       (set_nth i (Qt.setValue 0 100 v) (amp_sliders self)), Ok tt).
Proof.
  intros H. unfold slider_setValue. apply Nat.ltb_lt in H. now rewrite H.
Qed.

(** What [notesHarmonics] leaves in six spin boxes and six sliders, in
    terms of the rounded frequencies. *)
Lemma notesHarmonics_boxes (np_sin : float -> float) (h : heap) (self : t)
      (note_value octave : Z) :
  octave_spinbox self = Some octave ->
  length (freq_spinboxes self) = 6%nat ->
  length (amp_sliders self) = 6%nat ->
  let f0 := fundfreq (midi_note note_value octave) in
  let self' := snd (fst (notesHarmonics np_sin h self note_value)) in
  getFrequencies self'
  = Qt.setValue 0 24000 (py_round f0)
    :: map (fun k => Qt.setValue 0 24000 (py_round (f0 * IZR k)%R))
           [2; 3; 4; 5; 6]%Z /\
  amp_sliders self' = [100; 83; 67; 50; 33; 17]%Z.
Proof.
  intros Ho Hf Ha.
  destruct self as [fs0 boxes sliders dur oct full sel ad span tm q].
  cbn [freq_spinboxes amp_sliders octave_spinbox] in Hf, Ha, Ho.
  destruct boxes as [|b1 [|b2 [|b3 [|b4 [|b5 [|b6 [|]]]]]]];
    try discriminate Hf.
  destruct sliders as [|s1 [|s2 [|s3 [|s4 [|s5 [|s6 [|]]]]]]];
    try discriminate Ha.
  subst oct. clear Hf Ha. cbv zeta.
  unfold notesHarmonics, notesHarmonics_body. cbn [octave_spinbox].
  generalize (fundfreq (midi_note note_value octave)). intros f0.
  rewrite spin_setValue_ok by (cbn; lia).
  rewrite slider_setValue_ok by (cbn; lia).
  unfold harmonics.
  rewrite (set_harmonics_cons f0 1 2 0.83 83)
    by (try (cbn; lia); vm_compute; reflexivity).
  rewrite (set_harmonics_cons f0 2 3 0.67 67)
    by (try (cbn; lia); vm_compute; reflexivity).
  rewrite (set_harmonics_cons f0 3 4 0.5 50)
    by (try (cbn; lia); vm_compute; reflexivity).
  rewrite (set_harmonics_cons f0 4 5 0.33 33)
    by (try (cbn; lia); vm_compute; reflexivity).
  rewrite (set_harmonics_cons f0 5 6 0.17 17)
    by (try (cbn; lia); vm_compute; reflexivity).
  cbn [set_harmonics].
  match goal with
  | |- context [plotFAPT np_sin h ?st] =>
      destruct (plotFAPT_boxes np_sin h st) as [Pf Pa];
      destruct (plotFAPT np_sin h st) as [[h' st'] [u|e]]
  end.
  all: cbn [fst snd] in *; unfold getFrequencies; rewrite Pf, Pa.
  all: cbn [freq_spinboxes amp_sliders set_freq_spinboxes set_amp_sliders
            set_nth map]; split; reflexivity.
Qed.

End HarmonicsFacts.

Import Binary64 Numpy Store FreeAdd Piano PianoFacts HarmonicsFacts Fixtures.

(** C1 (as amended).  A piano key whose semitone offset and octave give
    MIDI note 69 (for instance offset 21 at octave 4, or offset 9 at
    octave 5) sets the six tones to 440, 880, 1320, 1760, 2200 and 2640 Hz
    with amplitudes 1.0, 0.83, 0.67, 0.5, 0.33 and 0.17. *)
Theorem harmonic_ladder_of_A440 (np_sin : float -> float) (h : heap)
        (self : t) (note_value octave : Z) :
  octave_spinbox self = Some octave ->
  length (freq_spinboxes self) = 6%nat ->
  length (amp_sliders self) = 6%nat ->
  midi_note note_value octave = 69%Z ->
  let self' := snd (fst (notesHarmonics np_sin h self note_value)) in
  getFrequencies self' = [440; 880; 1320; 1760; 2200; 2640]%Z /\
  getAmplitudes self' = [1; 0.83; 0.67; 0.5; 0.33; 0.17]%float.
Proof.
  intros Ho Hf Ha Hm.
  destruct (notesHarmonics_boxes np_sin h self note_value octave Ho Hf Ha)
    as [Ef Ea].
  cbv zeta in *. rewrite Hm, fundfreq_69 in Ef. split.
  - rewrite Ef. cbn [map]. rewrite <- !mult_IZR, !py_round_IZR. reflexivity.
  - unfold getAmplitudes. rewrite Ea. reflexivity.
Qed.

Lemma harmonic_ladder_of_A440_witness :
  let self' := snd (fst (notesHarmonics (fun x => x) [ten_ones] dialog 21)) in
  getFrequencies self' = [440; 880; 1320; 1760; 2200; 2640]%Z /\
  getAmplitudes self' = [1; 0.83; 0.67; 0.5; 0.33; 0.17]%float.
Proof.
  apply (harmonic_ladder_of_A440 (fun x => x) [ten_ones] dialog 21 4);
    reflexivity.
Defined.

(** C1 fails as stated: semitone offset 0 at octave 4 is MIDI note 48,
    about 130.81 Hz; the six tones are set to 131, 262, 392, 523, 654 and
    785 Hz, not to 440 Hz and its multiples. *)
Lemma harmonic_ladder_counterexample :
  let self' := snd (fst (notesHarmonics (fun x => x) [ten_ones] dialog 0)) in
  midi_note 0 4 = 48%Z /\
  getFrequencies self' = [131; 262; 392; 523; 654; 785]%Z /\
  getFrequencies self' <> [440; 880; 1320; 1760; 2200; 2640]%Z.
Proof.
  cbv zeta. split; [reflexivity|].
  destruct (notesHarmonics_boxes (fun x => x) [ten_ones] dialog 0 4
                                 eq_refl eq_refl eq_refl) as [Ef _].
  cbv zeta in Ef. change (midi_note 0 4) with 48%Z in Ef.
  pose proof fundfreq_48_bounds as [B1 B2].
  assert (E : getFrequencies
                (snd (fst (notesHarmonics (fun x => x) [ten_ones] dialog 0)))
              = [131; 262; 392; 523; 654; 785]%Z).
  { rewrite Ef. cbn [map].
    rewrite (py_round_near (fundfreq 48) 131) by lra.
    rewrite (py_round_near (fundfreq 48 * 2) 262) by lra.
    rewrite (py_round_near (fundfreq 48 * 3) 392) by lra.
    rewrite (py_round_near (fundfreq 48 * 4) 523) by lra.
    rewrite (py_round_near (fundfreq 48 * 5) 654) by lra.
    rewrite (py_round_near (fundfreq 48 * 6) 785) by lra.
    reflexivity. }
  split; [exact E|]. rewrite E. discriminate.
Qed.

(* ================================================================= *)
(** * Further properties of the dialogs *)

(** ** The keyboard: labels, octaves, pitch *)

Module KeyboardFacts.

Import Piano FreeAdd Keyboard.
Local Open Scope Z_scope.

(** The twelve note names are distinct. *)
Lemma note_names_distinct (i j : nat) :
  (i < 12)%nat -> (j < 12)%nat ->
  nth i note_names EmptyString = nth j note_names EmptyString -> i = j.
Proof.
  intros Hi Hj.
  do 12 (destruct i as [|i]; [ do 12 (destruct j as [|j];
         [ cbn; intros H; try reflexivity; discriminate H | ]); lia | ]).
  lia.
Qed.

Lemma midi_note_split (note_value octave : Z) :
  midi_note note_value octave
  = 12 * (octave + note_value / 12) + note_value mod 12.
Proof.
  unfold midi_note.
  pose proof (Z.div_mod note_value 12 ltac:(lia)). lia.
Qed.

Lemma fundfreq_increasing (m n : Z) : m < n -> (fundfreq m < fundfreq n)%R.
Proof.
  intros H. unfold fundfreq.
  apply Rmult_lt_compat_l; [lra|].
  apply Rpower_lt; [lra|].
  apply IZR_lt in H. lra.
Qed.

Lemma setValue_in_range (lo hi v : Z) :
  lo <= hi -> lo <= Qt.setValue lo hi v <= hi.
Proof. unfold Qt.setValue. lia. Qed.

Lemma setValue_id (lo hi v : Z) : lo <= v <= hi -> Qt.setValue lo hi v = v.
Proof. unfold Qt.setValue. lia. Qed.

Lemma click_octave (b : button) (self : t) (o : Z) :
  octave_spinbox self = Some o -> 1 <= o <= 8 ->
  exists self',
    click b self = Ok self' /\
    octave_spinbox self'
    = Some (match b with
            | PreviousOctave => Z.max 1 (o - 1)
            | NextOctave => Z.min 8 (o + 1)
            end).
Proof.
  intros Ho Hr.
  destruct b; cbn [click]; unfold decrease_octave, increase_octave;
    rewrite Ho.
  - destruct (1 <? o) eqn:E.
    + eexists; split; [reflexivity|]. cbn.
      apply Z.ltb_lt in E. rewrite setValue_id by lia. f_equal; lia.
    + eexists; split; [reflexivity|]. apply Z.ltb_ge in E.
      rewrite Ho. f_equal; lia.
  - destruct (o <? 8) eqn:E.
    + eexists; split; [reflexivity|]. cbn.
      apply Z.ltb_lt in E. rewrite setValue_id by lia. f_equal; lia.
    + eexists; split; [reflexivity|]. apply Z.ltb_ge in E.
      rewrite Ho. f_equal; lia.
Qed.

End KeyboardFacts.

(** X1.  The label [update_piano_labels] writes on a key and the pitch
    [notesHarmonics] computes for it go together: two keys, at whatever
    octave settings, carry the same note name and octave number exactly
    when they have the same note number; and the note number is twelve
    times the octave on the label plus the place of the name among the
    twelve. *)
Theorem label_determines_pitch (o1 v1 o2 v2 : Z) :
  (Keyboard.key_label o1 v1 = Keyboard.key_label o2 v2
   <-> Piano.midi_note v1 o1 = Piano.midi_note v2 o2) /\
  Piano.midi_note v1 o1
  = (12 * snd (Keyboard.key_label o1 v1) + v1 mod 12)%Z.
Proof.
  split; [split|].
  - unfold Keyboard.key_label. intros [= Hn Ho].
    apply KeyboardFacts.note_names_distinct in Hn.
    + rewrite !KeyboardFacts.midi_note_split.
      apply Z2Nat.inj in Hn;
        try (apply Z.mod_pos_bound; lia). lia.
    + pose proof (Z.mod_pos_bound v1 12 ltac:(lia)). lia.
    + pose proof (Z.mod_pos_bound v2 12 ltac:(lia)). lia.
  - intros H. rewrite !KeyboardFacts.midi_note_split in H.
    pose proof (Z.mod_pos_bound v1 12 ltac:(lia)).
    pose proof (Z.mod_pos_bound v2 12 ltac:(lia)).
    unfold Keyboard.key_label.
    assert (v1 mod 12 = v2 mod 12 /\ o1 + v1 / 12 = o2 + v2 / 12)%Z
      as [-> ->] by lia.
    reflexivity.
  - apply KeyboardFacts.midi_note_split.
Qed.

Lemma label_determines_pitch_witness :
  Keyboard.key_label 4 12 = Keyboard.key_label 5 0.
Proof.
  apply (proj2 (proj1 (label_determines_pitch 4 12 5 0))). reflexivity.
Defined.

(** X2.  The octave stays on the keyboard: from an octave between 1 and 8,
    any series of clicks on the two navigation buttons raises nothing and
    leaves an octave between 1 and 8; a click on "Next Octave" below
    octave 8 adds one to the octave and twelve to the note number of
    every key, a click on "Previous Octave" above octave 1 takes them
    away, and at the two ends the click changes nothing. *)
Theorem octave_stays_on_keyboard (bs : list Keyboard.button)
        (self : FreeAdd.t) (o : Z) :
  FreeAdd.octave_spinbox self = Some o ->
  (1 <= o <= 8)%Z ->
  (exists self' o',
      Keyboard.clicks bs self = Ok self' /\
      FreeAdd.octave_spinbox self' = Some o' /\ (1 <= o' <= 8)%Z) /\
  (forall note_value,
      exists up down o_up o_down,
        Keyboard.increase_octave self = Ok up /\
        Keyboard.decrease_octave self = Ok down /\
        FreeAdd.octave_spinbox up = Some o_up /\
        FreeAdd.octave_spinbox down = Some o_down /\
        ((o < 8)%Z ->
         o_up = (o + 1)%Z /\
         Piano.midi_note note_value o_up
         = (Piano.midi_note note_value o + 12)%Z) /\
        ((1 < o)%Z ->
         o_down = (o - 1)%Z /\
         Piano.midi_note note_value o_down
         = (Piano.midi_note note_value o - 12)%Z) /\
        (o = 8 -> up = self)%Z /\
        (o = 1 -> down = self)%Z).
Proof.
  intros Ho Hr. split.
  - revert self o Ho Hr.
    induction bs as [|b rest IH]; intros self o Ho Hr.
    + exists self, o. cbn. auto.
    + destruct (KeyboardFacts.click_octave b self o Ho Hr)
        as (self1 & Hc & Ho1).
      cbn [Keyboard.clicks]. rewrite Hc. cbn [bind].
      eapply IH; [exact Ho1|]. destruct b; lia.
  - intros note_value.
    destruct (KeyboardFacts.click_octave Keyboard.NextOctave self o Ho Hr)
      as (up & Hup & Hou).
    destruct (KeyboardFacts.click_octave Keyboard.PreviousOctave self o Ho Hr)
      as (down & Hdown & Hod).
    cbn [Keyboard.click] in Hup, Hdown.
    exists up, down, (Z.min 8 (o + 1)), (Z.max 1 (o - 1)).
    repeat (split; [assumption|]).
    split; [|split; [|split]].
    + intros H. rewrite Z.min_r by lia.
      split; [reflexivity|]. unfold Piano.midi_note. lia.
    + intros H. rewrite Z.max_r by lia.
      split; [reflexivity|]. unfold Piano.midi_note. lia.
    + intros ->. unfold Keyboard.increase_octave in Hup.
      rewrite Ho in Hup. cbn in Hup. congruence.
    + intros ->. unfold Keyboard.decrease_octave in Hdown.
      rewrite Ho in Hdown. cbn in Hdown. congruence.
Qed.

Lemma octave_stays_on_keyboard_witness :
  (exists self' o',
      Keyboard.clicks [Keyboard.NextOctave; Keyboard.NextOctave;
                       Keyboard.NextOctave; Keyboard.NextOctave;
                       Keyboard.NextOctave; Keyboard.PreviousOctave]
                      Fixtures.dialog = Ok self' /\
      FreeAdd.octave_spinbox self' = Some o' /\ (1 <= o' <= 8)%Z) /\
  (forall note_value,
      exists up down o_up o_down,
        Keyboard.increase_octave Fixtures.dialog = Ok up /\
        Keyboard.decrease_octave Fixtures.dialog = Ok down /\
        FreeAdd.octave_spinbox up = Some o_up /\
        FreeAdd.octave_spinbox down = Some o_down /\
        ((4 < 8)%Z ->
         o_up = (4 + 1)%Z /\
         Piano.midi_note note_value o_up
         = (Piano.midi_note note_value 4 + 12)%Z) /\
        ((1 < 4)%Z ->
         o_down = (4 - 1)%Z /\
         Piano.midi_note note_value o_down
         = (Piano.midi_note note_value 4 - 12)%Z) /\
        (4 = 8 -> up = Fixtures.dialog)%Z /\
        (4 = 1 -> down = Fixtures.dialog)%Z).
Proof.
  apply (octave_stays_on_keyboard _ Fixtures.dialog 4); [reflexivity | lia].
Defined.

(** Five clicks on "Next Octave" from octave 4 stop at 8; one on
    "Previous Octave" then gives 7. *)
Example octave_after_six_clicks :
  match Keyboard.clicks [Keyboard.NextOctave; Keyboard.NextOctave;
                         Keyboard.NextOctave; Keyboard.NextOctave;
                         Keyboard.NextOctave; Keyboard.PreviousOctave]
                        Fixtures.dialog with
  | Ok self' => FreeAdd.octave_spinbox self' = Some 7%Z
  | Raise _ => False
  end.
Proof. reflexivity. Qed.

(** The key labelled A in octave 4 is the key of value 9 at the octave
    setting 4; its note number is 57, not the 69 of the A of 440 Hz. *)
Example key_labelled_A4 :
  Keyboard.key_label 4 9 = ("A"%string, 4%Z) /\
  Piano.midi_note 9 4 = 57%Z.
Proof. split; reflexivity. Qed.

(** ** The worker on any queue and any device *)

Module QueueFacts.

Import Sounddevice FreeAdd.

(** What the worker does with one request, whatever the device does. *)
Lemma worker_step (dev : device) (l : log) (data : list float)
      (fs : option Z) (rest : list item) :
  exists tail,
    filter is_play tail = [] /\
    (_audio_worker ((Some data, fs) :: rest) dev l
     = _audio_worker rest dev (l ++ sd_play data fs true :: tail) \/
     exists e, _audio_worker ((Some data, fs) :: rest) dev l
               = ((Crashed e, rest), l ++ sd_play data fs true :: tail)).
Proof.
  cbn [_audio_worker]. unfold try_print, seq_io, call, print.
  destruct (dev (length l)) as [e|].
  - destruct (is_Exception e).
    + exists [print_error e]. split; [reflexivity|]. left.
      rewrite <- app_assoc. reflexivity.
    + exists []. split; [reflexivity|]. right. exists e. reflexivity.
  - destruct (dev (length (l ++ [sd_play data fs true]))) as [e|].
    + destruct (is_Exception e).
      * exists [sd_wait; print_error e]. split; [reflexivity|]. left.
        rewrite <- !app_assoc. reflexivity.
      * exists [sd_wait]. split; [reflexivity|]. right. exists e.
        rewrite <- app_assoc. reflexivity.
    + exists [sd_wait]. split; [reflexivity|]. left.
      rewrite <- app_assoc. reflexivity.
Qed.

Lemma flat_map_play_of_app (a b : list item) :
  flat_map play_of (a ++ b) = flat_map play_of a ++ flat_map play_of b.
Proof. apply flat_map_app. Qed.

End QueueFacts.

(** X3.  The worker plays nothing that was not queued, and in the order of
    the queue: whatever the queue holds and whatever the device does, the
    log only grows, and the plays added are those of the requests taken
    off the queue, one each, in order; what was taken off holds no
    sentinel, and between it and what is left there is nothing, or the
    sentinel. *)
Theorem worker_plays_what_was_queued (queue : list FreeAdd.item)
        (dev : Sounddevice.device) (l : Sounddevice.log) :
  exists taken skipped events,
    queue = taken ++ skipped ++ snd (fst (FreeAdd._audio_worker queue dev l)) /\
    FreeAdd.requests taken /\
    (skipped = [] \/ exists fs, skipped = [(None, fs)]) /\
    snd (FreeAdd._audio_worker queue dev l) = l ++ events /\
    filter Sounddevice.is_play events = flat_map FreeAdd.play_of taken.
Proof.
  remember (FreeAdd._audio_worker queue dev l) as r eqn:Hr.
  revert l r Hr.
  induction queue as [|[[data|] fs] rest IH]; intros l r Hr.
  - exists [], [], []. subst r. cbn. rewrite app_nil_r.
    repeat split; auto. constructor.
  - destruct (QueueFacts.worker_step dev l data fs rest)
      as (tail & Ht & [Hs | [e Hs]]); pose proof (eq_trans Hr Hs) as Hr'.
    + destruct (IH (l ++ Sounddevice.sd_play data fs true :: tail) r Hr')
        as (taken & skipped & events & Hq & Hk & Hm & Hl & Hp).
      exists ((Some data, fs) :: taken), skipped,
        (Sounddevice.sd_play data fs true :: tail ++ events).
      split; [cbn; f_equal; exact Hq|].
      split; [constructor; [discriminate | exact Hk]|].
      split; [exact Hm|].
      split.
      * rewrite Hl, <- app_assoc. reflexivity.
      * cbn. f_equal. rewrite filter_app, Ht, Hp. reflexivity.
    + exists [(Some data, fs)], [], (Sounddevice.sd_play data fs true :: tail).
      rewrite Hr'. cbn. rewrite Ht.
      repeat split; auto. constructor; [discriminate | constructor].
  - exists [], [(None, fs)], []. subst r. cbn. rewrite app_nil_r.
    repeat split; eauto. constructor.
Qed.

(** X4.  Closing the window drains the queue: with requests waiting and a
    device that raises nothing but [Exception]s, the worker started on
    the queue [closeEvent] leaves behind attempts every request, once and
    in order, and then leaves its loop with nothing left on the queue. *)
Theorem close_drains_queue (self : FreeAdd.t) (dev : Sounddevice.device)
        (l : Sounddevice.log) :
  FreeAdd.raises_exceptions dev ->
  FreeAdd.requests (FreeAdd.audio_queue self) ->
  exists events,
    FreeAdd._audio_worker (FreeAdd.audio_queue (FreeAdd.closeEvent self))
                          dev l
    = ((FreeAdd.Stopped, []), l ++ events) /\
    filter Sounddevice.is_play events
    = flat_map FreeAdd.play_of (FreeAdd.audio_queue self).
Proof.
  intros Hdev Hq. cbn [FreeAdd.closeEvent FreeAdd.audio_queue
                       FreeAdd.set_audio_queue].
  revert l. induction Hq as [|[[data|] fs] rest Hx Hrest IH]; intros l.
  - exists []. cbn. rewrite app_nil_r. auto.
  - cbn [app]. rewrite WorkerFacts.worker_request by exact Hdev.
    destruct (IH (l ++ FreeAdd.request_events dev l data fs))
      as (events & He & Hp).
    exists (FreeAdd.request_events dev l data fs ++ events). split.
    + rewrite He, <- app_assoc. reflexivity.
    + rewrite filter_app, WorkerFacts.filter_is_play_request, Hp.
      reflexivity.
  - exfalso. apply Hx. reflexivity.
Qed.

(** ** Synthesis: which tones are heard *)

Module ToneFacts.

Import FreeAdd.

(** Pairing the frequencies of the tones with their amplitudes gives the
    tones back. *)
Lemma tones_recombined (tones : list (Z * float)) :
  combine (map fst tones) (map snd tones) = tones.
Proof.
  induction tones as [|[freq amp] rest IH]; [reflexivity|].
  cbn [map combine fst snd]. now f_equal.
Qed.

Lemma fold_heard np_sin (time : list float) (tones : list (Z * float))
      (signal : list float) :
  fold_left (add_tone np_sin time) tones signal
  = fold_left (add_tone np_sin time)
              (filter (fun tone => (0 <? fst tone)%Z) tones) signal.
Proof.
  revert signal. induction tones as [|[freq amp] rest IH]; intros signal.
  - reflexivity.
  - cbn [fold_left filter fst].
    destruct (0 <? freq)%Z eqn:E; cbn [fold_left].
    + apply IH.
    + replace (add_tone np_sin time signal (freq, amp)) with signal
        by (unfold add_tone; now rewrite E).
      apply IH.
Qed.

Lemma fold_silent np_sin (time : list float) (tones : list (Z * float))
      (signal : list float) :
  Forall (fun tone => (fst tone <= 0)%Z) tones ->
  fold_left (add_tone np_sin time) tones signal = signal.
Proof.
  intros H. revert signal.
  induction H as [|[freq amp] rest Hx Hrest IH]; intros signal.
  - reflexivity.
  - cbn [fold_left]. cbn [fst] in Hx.
    replace (add_tone np_sin time signal (freq, amp)) with signal.
    + apply IH.
    + unfold add_tone.
      destruct (0 <? freq)%Z eqn:E; [apply Z.ltb_lt in E; lia|reflexivity].
Qed.

Lemma Forall_combine_fst (freqs : list Z) (amps : list float)
      (P : Z -> Prop) :
  Forall P freqs -> Forall (fun tone => P (fst tone)) (combine freqs amps).
Proof.
  intros H. revert amps. induction H as [|f rest Hf Hrest IH]; intros amps.
  - constructor.
  - destruct amps as [|a amps]; cbn; constructor; auto.
Qed.

End ToneFacts.

(** X5.  Only the tones with a positive frequency are heard: [plotFAPT]'s
    sum is the sum over the pairs of frequency and amplitude whose
    frequency is above zero, whatever the amplitude sliders of the others
    say; and when no frequency is above zero the signal is silence,
    one zero per sample of the time axis. *)
Theorem tones_at_zero_are_silent (np_sin : float -> float)
        (duration : float) (fs : Z) (freqs : list Z) (amps : list float) :
  let heard :=
    filter (fun tone => (0 <? fst tone)%Z) (combine freqs amps) in
  FreeAdd.synthesize np_sin duration fs freqs amps
  = FreeAdd.synthesize np_sin duration fs (map fst heard) (map snd heard) /\
  (Forall (fun f => (f <= 0)%Z) freqs ->
   forall time signal,
     FreeAdd.synthesize np_sin duration fs freqs amps = Ok (time, signal) ->
     signal = repeat 0%float (length time)).
Proof.
  intros heard. unfold FreeAdd.synthesize. split.
  - destruct (Binary64.py_int _) as [samples|e]; [|reflexivity].
    cbn [bind].
    destruct (Numpy.linspace _ _ _ _) as [time|e]; [|reflexivity].
    cbn [bind]. do 2 f_equal.
    rewrite ToneFacts.tones_recombined. apply ToneFacts.fold_heard.
  - intros Hf time signal.
    destruct (Binary64.py_int _) as [samples|e]; [|discriminate].
    cbn [bind].
    destruct (Numpy.linspace _ _ _ _) as [time'|e] eqn:El; [|discriminate].
    cbn [bind]. intros [= <- <-].
    rewrite ToneFacts.fold_silent
      by (apply ToneFacts.Forall_combine_fst with (P := fun f => (f <= 0)%Z);
          exact Hf).
    f_equal.
    destruct (samples <? 0)%Z eqn:Es.
    + unfold Numpy.linspace in El. rewrite Es in El. discriminate.
    + apply Z.ltb_ge in Es.
      destruct (NumpyFacts.linspace_length 0%float duration samples false Es)
        as (y & Hy & Hlen).
      rewrite El in Hy. injection Hy as ->. symmetry. exact Hlen.
Qed.

Lemma close_drains_queue_witness :
  exists events,
    FreeAdd._audio_worker
      (FreeAdd.audio_queue (FreeAdd.closeEvent Scenes.queued_dialog))
      Fixtures.first_call_fails []
    = ((FreeAdd.Stopped, []), [] ++ events) /\
    filter Sounddevice.is_play events
    = flat_map FreeAdd.play_of (FreeAdd.audio_queue Scenes.queued_dialog).
Proof.
  apply (close_drains_queue Scenes.queued_dialog Fixtures.first_call_fails []).
  - intros n e. unfold Fixtures.first_call_fails.
    destruct (n =? 0)%nat; [|discriminate]. now intros [= <-].
  - repeat constructor; discriminate.
Defined.

Lemma tones_at_zero_are_silent_witness :
  Forall (fun f => (f <= 0)%Z) [0; 0]%Z /\
  forall time signal,
    FreeAdd.synthesize (fun x => x) (Binary64.Z2F 1 / 100)%float 48000
                       [0; 0]%Z [1; 0.5]%float
    = Ok (time, signal) ->
    signal = repeat 0%float (length time).
Proof.
  assert (H : Forall (fun f => (f <= 0)%Z) [0; 0]%Z)
    by (repeat constructor; lia).
  split; [exact H|].
  exact (proj2 (tones_at_zero_are_silent
                  (fun x => x) (Binary64.Z2F 1 / 100)%float
                  48000 [0; 0]%Z [1; 0.5]%float) H).
Defined.

(** ** The noise widget's controls *)

Module ControlsFacts.

Import Binary64 Numpy Noise NoiseControls.
Local Open Scope float_scope.

Lemma amplitude_hundredths_checked :
  forallb (hundredth_between 0 1) (FreeAdd.zrange 0 101) = true.
Proof. vm_compute. reflexivity. Qed.

Lemma duration_hundredths_checked :
  forallb (hundredth_between 0.01 30) (FreeAdd.zrange 1 3000) = true.
Proof. vm_compute. reflexivity. Qed.

Lemma amplitude_comes_back_checked :
  forallb amplitude_comes_back (FreeAdd.zrange 0 101) = true.
Proof. vm_compute. reflexivity. Qed.

Lemma duration_comes_back_checked :
  forallb duration_comes_back (FreeAdd.zrange 1 3000) = true.
Proof. vm_compute. reflexivity. Qed.

Lemma amplitude_hundredth (k : Z) :
  (0 <= k <= 100)%Z -> hundredth_between 0 1 k = true.
Proof.
  intros H.
  apply (proj1 (forallb_forall _ _) amplitude_hundredths_checked).
  apply FadeFacts.zrange_in. lia.
Qed.

Lemma duration_hundredth (k : Z) :
  (1 <= k <= 3000)%Z -> hundredth_between 0.01 30 k = true.
Proof.
  intros H.
  apply (proj1 (forallb_forall _ _) duration_hundredths_checked).
  apply FadeFacts.zrange_in. lia.
Qed.

Lemma setValue_range (lo hi v : Z) :
  (lo <= hi)%Z -> (lo <= Qt.setValue lo hi v <= hi)%Z.
Proof. unfold Qt.setValue. lia. Qed.

Lemma ampl_slider_setValue_in_range (c : controls) (v : Z) :
  in_range c -> in_range (ampl_slider_setValue c v).
Proof.
  intros (Ha & Hd & Hs & Ht). unfold ampl_slider_setValue.
  pose proof (setValue_range 0 100 v ltac:(lia)) as Hv.
  destruct (Qt.setValue 0 100 v =? ampl_slider c)%Z.
  - exact (conj Ha (conj Hd (conj Hs Ht))).
  - unfold in_range. cbn.
    split; [exact (amplitude_hundredth _ Hv)|].
    split; [exact Hd|]. split; [exact Hv|exact Ht].
Qed.

Lemma dura_slider_setValue_in_range (c : controls) (v : Z) :
  in_range c -> in_range (dura_slider_setValue c v).
Proof.
  intros (Ha & Hd & Hs & Ht). unfold dura_slider_setValue.
  pose proof (setValue_range 1 3000 v ltac:(lia)) as Hv.
  destruct (Qt.setValue 1 3000 v =? dura_slider c)%Z.
  - exact (conj Ha (conj Hd (conj Hs Ht))).
  - unfold in_range. cbn.
    split; [exact Ha|].
    split; [exact (duration_hundredth _ Hv)|]. split; [exact Hs|exact Hv].
Qed.

Lemma set_same_amplitude (c : controls) :
  set_widget c (set_amplitude (widget c) (amplitude (widget c))) = c.
Proof. destruct c as [[] ? ?]. reflexivity. Qed.

Lemma set_same_duration (c : controls) :
  set_widget c (set_duration (widget c) (duration (widget c))) = c.
Proof. destruct c as [[] ? ?]. reflexivity. Qed.

End ControlsFacts.

(** X6.  The entry fields keep the controls within their ranges: whatever
    is typed, after [update_amplitude_from_entry] and after
    [update_duration_from_entry] the amplitude is between 0 and 1, the
    duration between 0.01 and 30 and the sliders within 0..100 and
    1..3000, if they were before; a text that is no number, and a number
    outside the range (a NaN included), leave the controls as they
    were. *)
Theorem entries_keep_ranges (c : NoiseControls.controls)
        (text : option float) :
  NoiseControls.in_range c ->
  NoiseControls.in_range
    (fst (NoiseControls.update_amplitude_from_entry c text)) /\
  NoiseControls.in_range
    (fst (NoiseControls.update_duration_from_entry c text)) /\
  (text = None ->
   NoiseControls.update_amplitude_from_entry c text = (c, Ok tt) /\
   NoiseControls.update_duration_from_entry c text = (c, Ok tt)) /\
  (forall value,
      text = Some value ->
      ((0 <=? value) && (value <=? 1) = false ->
       NoiseControls.update_amplitude_from_entry c text = (c, Ok tt)) /\
      ((0.01 <=? value) && (value <=? 30) = false ->
       NoiseControls.update_duration_from_entry c text = (c, Ok tt)))%float.
Proof.
  intros Hc. pose proof Hc as (Ha & Hd & Hs & Ht).
  split; [|split; [|split]].
  - unfold NoiseControls.update_amplitude_from_entry.
    destruct text as [value|]; [|exact Hc].
    destruct ((0 <=? value) && (value <=? 1))%float eqn:E; [|exact Hc].
    assert (Hc1 : NoiseControls.in_range
                    (NoiseControls.set_widget c
                       (NoiseControls.set_amplitude
                          (NoiseControls.widget c) value)))
      by exact (conj E (conj Hd (conj Hs Ht))).
    destruct (Binary64.py_int (value * 100)) as [k|[]]; cbn [fst];
      try exact Hc1.
    apply ControlsFacts.ampl_slider_setValue_in_range. exact Hc1.
  - unfold NoiseControls.update_duration_from_entry.
    destruct text as [value|]; [|exact Hc].
    destruct ((0.01 <=? value) && (value <=? 30))%float eqn:E; [|exact Hc].
    assert (Hc1 : NoiseControls.in_range
                    (NoiseControls.set_widget c
                       (NoiseControls.set_duration
                          (NoiseControls.widget c) value)))
      by exact (conj Ha (conj E (conj Hs Ht))).
    destruct (Binary64.py_int (value * 100)) as [k|[]]; cbn [fst];
      try exact Hc1.
    apply ControlsFacts.dura_slider_setValue_in_range. exact Hc1.
  - intros ->. split; reflexivity.
  - intros value ->. split; intros E;
      [unfold NoiseControls.update_amplitude_from_entry
      |unfold NoiseControls.update_duration_from_entry];
      rewrite E; reflexivity.
Qed.

(** X7.  A value does not always come back from its entry field.  With the
    amplitude slider at [k] and the amplitude [k / 100] it set, reading
    that same value back through [update_amplitude_from_entry] leaves the
    controls as they are, except at 29, 57 and 58, where
    [int(value * 100)] is [k - 1]: the slider moves there and the
    amplitude becomes [(k - 1) / 100].  For the duration the same reading
    never raises the slider and lowers it by at most one. *)
Theorem entry_round_trip (c : NoiseControls.controls) (k : Z) :
  (NoiseControls.ampl_slider c = k ->
   Noise.amplitude (NoiseControls.widget c) = (Binary64.Z2F k / 100)%float ->
   (0 <= k <= 100)%Z ->
   let r := NoiseControls.update_amplitude_from_entry
              c (Some (Binary64.Z2F k / 100)%float) in
   snd r = Ok tt /\
   (In k NoiseControls.amplitude_drifts ->
    NoiseControls.ampl_slider (fst r) = (k - 1)%Z /\
    Noise.amplitude (NoiseControls.widget (fst r))
    = (Binary64.Z2F (k - 1) / 100)%float) /\
   (~ In k NoiseControls.amplitude_drifts -> fst r = c)) /\
  (NoiseControls.dura_slider c = k ->
   Noise.duration (NoiseControls.widget c) = (Binary64.Z2F k / 100)%float ->
   (1 <= k <= 3000)%Z ->
   let r := NoiseControls.update_duration_from_entry
              c (Some (Binary64.Z2F k / 100)%float) in
   snd r = Ok tt /\
   (fst r = c \/
    NoiseControls.dura_slider (fst r) = (k - 1)%Z /\
    Noise.duration (NoiseControls.widget (fst r))
    = (Binary64.Z2F (k - 1) / 100)%float)).
Proof.
  split.
  - intros Hs Ha Hk r.
    assert (Hchk : NoiseControls.amplitude_comes_back k = true).
    { apply (proj1 (forallb_forall _ _)
                   ControlsFacts.amplitude_comes_back_checked).
      apply FadeFacts.zrange_in. lia. }
    unfold NoiseControls.amplitude_comes_back in Hchk.
    apply andb_prop in Hchk as [Hrange Hback].
    unfold NoiseControls.hundredth_between in Hrange.
    unfold NoiseControls.comes_back_as in Hback.
    subst r. unfold NoiseControls.update_amplitude_from_entry.
    rewrite Hrange.
    destruct (Binary64.py_int (Binary64.Z2F k / 100 * 100)) as [k'|e];
      [|discriminate].
    cbn [fst snd]. split; [reflexivity|].
    replace (NoiseControls.set_widget c
               (NoiseControls.set_amplitude (NoiseControls.widget c)
                  (Binary64.Z2F k / 100)%float)) with c
      by (rewrite <- Ha; symmetry; apply ControlsFacts.set_same_amplitude).
    unfold NoiseControls.ampl_slider_setValue.
    destruct (existsb (Z.eqb k) NoiseControls.amplitude_drifts) eqn:D.
    + apply Z.eqb_eq in Hback. subst k'.
      rewrite (KeyboardFacts.setValue_id 0 100 (k - 1)).
      2:{ apply existsb_exists in D as (x & Hx & Ex).
          apply Z.eqb_eq in Ex. subst x.
          unfold NoiseControls.amplitude_drifts in Hx. cbn in Hx. lia. }
      rewrite Hs.
      replace (k - 1 =? k)%Z with false by (symmetry; apply Z.eqb_neq; lia).
      split.
      * intros _. split; reflexivity.
      * intros N. exfalso. apply N.
        apply existsb_exists in D as (x & Hx & Ex).
        apply Z.eqb_eq in Ex. now subst x.
    + apply Z.eqb_eq in Hback. subst k'.
      rewrite (KeyboardFacts.setValue_id 0 100 k) by lia.
      rewrite Hs, Z.eqb_refl. split; [|reflexivity].
      intros I. exfalso.
      assert (existsb (Z.eqb k) NoiseControls.amplitude_drifts = true)
        as C; [|rewrite C in D; discriminate].
      apply existsb_exists. exists k. split; [exact I|apply Z.eqb_refl].
  - intros Hs Ha Hk r.
    assert (Hchk : NoiseControls.duration_comes_back k = true).
    { apply (proj1 (forallb_forall _ _)
                   ControlsFacts.duration_comes_back_checked).
      apply FadeFacts.zrange_in. lia. }
    unfold NoiseControls.duration_comes_back in Hchk.
    apply andb_prop in Hchk as [Hrange Hback].
    unfold NoiseControls.hundredth_between in Hrange.
    unfold NoiseControls.comes_back_as in Hback.
    subst r. unfold NoiseControls.update_duration_from_entry.
    rewrite Hrange.
    destruct (Binary64.py_int (Binary64.Z2F k / 100 * 100)) as [k'|e];
      [|discriminate].
    cbn [fst snd]. split; [reflexivity|].
    replace (NoiseControls.set_widget c
               (NoiseControls.set_duration (NoiseControls.widget c)
                  (Binary64.Z2F k / 100)%float)) with c
      by (rewrite <- Ha; symmetry; apply ControlsFacts.set_same_duration).
    unfold NoiseControls.dura_slider_setValue.
    apply andb_prop in Hback as [Hk' Hlo]. apply Z.leb_le in Hlo.
    apply orb_prop in Hk' as [E|E]; apply Z.eqb_eq in E; subst k'.
    + rewrite (KeyboardFacts.setValue_id 1 3000 k) by lia.
      rewrite Hs, Z.eqb_refl. left. reflexivity.
    + rewrite (KeyboardFacts.setValue_id 1 3000 (k - 1)) by lia.
      rewrite Hs.
      replace (k - 1 =? k)%Z with false by (symmetry; apply Z.eqb_neq; lia).
      right. split; reflexivity.
Qed.

Lemma entries_keep_ranges_witness :
  NoiseControls.in_range
    (fst (NoiseControls.update_amplitude_from_entry
            (Scenes.controls_at 50) (Some 0.75%float))).
Proof.
  apply (entries_keep_ranges (Scenes.controls_at 50) (Some 0.75%float)).
  repeat split; (reflexivity || (cbn; lia)).
Defined.

Lemma entry_round_trip_witness :
  NoiseControls.ampl_slider
    (fst (NoiseControls.update_amplitude_from_entry
            (Scenes.controls_at 29)
            (Some (Binary64.Z2F 29 / 100)%float))) = 28%Z.
Proof.
  apply (proj1 (entry_round_trip (Scenes.controls_at 29) 29));
    [reflexivity | reflexivity | lia | cbn; auto].
Defined.

(** ** Replotting the noise *)

Module ReplotFacts.

Import Binary64 Numpy Noise.
Local Open Scope float_scope.

(** [plot_noise] leaves the selection, the duration, the amplitude and
    the noise type alone. *)
Lemma plot_noise_keeps (g : Z -> Z -> result (list float)) (self : t) :
  let self' := fst (plot_noise g self) in
  selectedAudio self' = selectedAudio self /\
  duration self' = duration self /\
  amplitude self' = amplitude self /\
  type_combo self' = type_combo self.
Proof.
  unfold plot_noise. destruct (fs_entry self) as [v|]; [|cbn; auto].
  destruct (48000 <? v)%Z; [cbn; auto|].
  destruct (py_int _) as [samples|e]; [|cbn; auto].
  destruct (linspace _ _ _ _) as [time|e]; [|cbn; auto].
  destruct (g _ _) as [noise_raw|e]; [|cbn; auto].
  destruct (normalize _ _) as [audio|e]; cbn; auto.
Qed.

End ReplotFacts.

(** X8.  [load_to_controller] hands the selected fragment over, not the
    noise it has just drawn: once a fragment of more than one sample is
    selected and the replot succeeds, the new window gets that fragment,
    whatever the new draw is, together with the sample rate the replot
    has set and the duration of the whole noise. *)
Theorem fragment_is_handed_over (powerlaw_psd_gaussian : Z -> Z -> result (list float))
        (self self' : Noise.t) :
  (1 < length (Noise.selectedAudio self))%nat ->
  Noise.plot_noise powerlaw_psd_gaussian self = (self', Ok tt) ->
  NoiseControls.load_to_controller powerlaw_psd_gaussian self
  = (self',
     Ok {| NoiseControls.title_type := Noise.type_combo self;
           NoiseControls.title_duration := Noise.duration self;
           NoiseControls.window_fs := Noise.fs self';
           NoiseControls.audio_to_load := Noise.selectedAudio self;
           NoiseControls.window_duration := Noise.duration self |}).
Proof.
  intros Hsel Hplot.
  destruct (ReplotFacts.plot_noise_keeps powerlaw_psd_gaussian self)
    as (Ks & Kd & _ & Kt).
  rewrite Hplot in Ks, Kd, Kt. cbn [fst] in Ks, Kd, Kt.
  unfold NoiseControls.load_to_controller. rewrite Hplot.
  rewrite Ks, Kd, Kt.
  apply Nat.ltb_lt in Hsel. rewrite Hsel. reflexivity.
Qed.

(** X9.  A negative sample rate stops [plot_noise] after it has taken the
    rate: when the entry holds an integer [v], not above 48000, and
    [int(duration * v)] is negative, [np.linspace] raises ValueError; [fs] is [v] from then on,
    while the time axis, the samples and the selection are those of
    before, so that [listen_fragment] goes on playing the old samples, at
    the rate [v]. *)
Theorem plot_noise_negative_rate
        (powerlaw_psd_gaussian : Z -> Z -> result (list float))
        (self : Noise.t) (v samples : Z) (time audio : list float)
        (xmin xmax : float) (dev : Sounddevice.device)
        (l : Sounddevice.log) :
  Noise.fs_entry self = Some v ->
  (v <= 48000)%Z ->
  Binary64.py_int (Noise.duration self * Binary64.Z2F v)%float = Ok samples ->
  (samples < 0)%Z ->
  Noise.time self = Some time ->
  Noise.audio self = Some audio ->
  let r := Noise.plot_noise powerlaw_psd_gaussian self in
  snd r = Raise ValueError /\
  Noise.fs (fst r) = v /\
  Noise.time (fst r) = Some time /\
  Noise.audio (fst r) = Some audio /\
  Noise.selectedAudio (fst r) = Noise.selectedAudio self /\
  Noise.warnings (fst r) = Noise.warnings self /\
  snd (snd (Noise.listen_fragment (fst r) xmin xmax) dev l)
  = l ++ [Sounddevice.sd_play
            (Numpy.slice audio (Numpy.searchsorted time xmin)
                         (Numpy.searchsorted time xmax + 1))
            (Some v) false].
Proof.
  intros He Hv Hs Hneg Ht Ha r. subst r.
  apply Z.ltb_ge in Hv.
  unfold Noise.plot_noise. rewrite He, Hv.
  cbn [Noise.duration Noise.fs Noise.set_fs]. rewrite Hs.
  replace (Numpy.linspace 0 (Noise.duration self) samples false)
    with (@Raise (list float) ValueError).
  - destruct self as [d a f e c t au s w]. cbn in Ht, Ha. subst t au.
    cbn. repeat split; reflexivity.
  - unfold Numpy.linspace.
    replace (samples <? 0)%Z with true by (symmetry; apply Z.ltb_lt; lia).
    reflexivity.
Qed.

(** X10.  A rejected sample rate changes the speed of the preview: when the
    entry holds a rate above 48000, [plot_noise] warns and returns
    without drawing, but [fs] is 48000 from then on; the samples and the
    time axis are the old ones, and [listen_fragment] plays the old
    samples at 48000 Hz, whatever rate they were drawn at. *)
Theorem rejected_rate_changes_preview
        (powerlaw_psd_gaussian : Z -> Z -> result (list float))
        (self : Noise.t) (v : Z) (time audio : list float)
        (xmin xmax : float) (dev : Sounddevice.device)
        (l : Sounddevice.log) :
  Noise.fs_entry self = Some v ->
  (48000 < v)%Z ->
  Noise.time self = Some time ->
  Noise.audio self = Some audio ->
  let self1 := fst (Noise.plot_noise powerlaw_psd_gaussian self) in
  snd (Noise.plot_noise powerlaw_psd_gaussian self) = Ok tt /\
  Noise.warnings self1
  = Noise.warnings self ++ [Noise.WrongSampleFrequency] /\
  Noise.fs self1 = 48000%Z /\
  Noise.fs_entry self1 = Some 48000%Z /\
  Noise.time self1 = Some time /\
  Noise.audio self1 = Some audio /\
  snd (snd (Noise.listen_fragment self1 xmin xmax) dev l)
  = l ++ [Sounddevice.sd_play
            (Numpy.slice audio (Numpy.searchsorted time xmin)
                         (Numpy.searchsorted time xmax + 1))
            (Some 48000%Z) false].
Proof.
  intros He Hv Ht Ha self1. subst self1.
  unfold Noise.plot_noise. rewrite He.
  replace (48000 <? v)%Z with true by (symmetry; apply Z.ltb_lt; lia).
  destruct self as [d a f e c t au s w]. cbn in Ht, Ha. subst t au.
  cbn [fst snd Noise.warn Noise.set_fs Noise.warnings Noise.fs
       Noise.fs_entry Noise.time Noise.audio].
  repeat (split; [reflexivity|]).
  reflexivity.
Qed.

Lemma fragment_is_handed_over_witness :
  snd (NoiseControls.load_to_controller
         Fixtures.white_draw (Scenes.plotted_widget 8 [2; 3]%float))
  = Ok {| NoiseControls.title_type := "White noise"%string;
          NoiseControls.title_duration := 1%float;
          NoiseControls.window_fs := 8%Z;
          NoiseControls.audio_to_load := [2; 3]%float;
          NoiseControls.window_duration := 1%float |}.
Proof.
  rewrite (fragment_is_handed_over
             Fixtures.white_draw (Scenes.plotted_widget 8 [2; 3]%float)
             (fst (Noise.plot_noise Fixtures.white_draw
                     (Scenes.plotted_widget 8 [2; 3]%float)))).
  - reflexivity.
  - cbn. lia.
  - reflexivity.
Defined.

Lemma plot_noise_negative_rate_witness :
  snd (Noise.plot_noise Fixtures.white_draw
                        (Scenes.plotted_widget (-5) [0]%float))
  = Raise ValueError.
Proof.
  apply (plot_noise_negative_rate
           Fixtures.white_draw (Scenes.plotted_widget (-5) [0]%float)
           (-5) (-5) Fixtures.axis4 [1; 2; 3; 4]%float 0.2 0.6
           Fixtures.sound_device []);
    [reflexivity | lia | reflexivity | lia | reflexivity | reflexivity].
Defined.

Lemma rejected_rate_changes_preview_witness :
  snd (snd (Noise.listen_fragment
              (fst (Noise.plot_noise
                      Fixtures.white_draw
                      (Scenes.plotted_widget 96000 [0]%float)))
              0.2 0.6) Fixtures.sound_device [])
  = [] ++ [Sounddevice.sd_play
             (Numpy.slice [1; 2; 3; 4]%float
                          (Numpy.searchsorted Fixtures.axis4 0.2)
                          (Numpy.searchsorted Fixtures.axis4 0.6 + 1))
             (Some 48000%Z) false].
Proof.
  apply (rejected_rate_changes_preview
           Fixtures.white_draw (Scenes.plotted_widget 96000 [0]%float)
           96000 Fixtures.axis4 [1; 2; 3; 4]%float 0.2 0.6
           Fixtures.sound_device []);
    [reflexivity | lia | reflexivity | reflexivity].
Defined.

(** ** What a selection plays *)

Module SelectionFacts.

Import Binary64 Binary64Facts Numpy SpanMapper SpanMapperFacts Sounddevice.
Local Open Scope float_scope.

Lemma slice_length {A : Type} (a : list A) (lo hi : nat) :
  length (slice a lo hi) = Nat.min (hi - lo) (length a - lo).
Proof. unfold slice. now rewrite length_firstn, length_skipn. Qed.

Lemma slice_nothing {A : Type} (a : list A) (lo hi : nat) :
  (hi <= lo)%nat -> slice a lo hi = [].
Proof.
  intros H. unfold slice. replace (hi - lo)%nat with O by lia. reflexivity.
Qed.

(** The binary search is monotone in the key. *)
Lemma searchsorted_mono (time : list float) (x y : float) :
  increasing time -> (x <=? y) = true ->
  (searchsorted time x <= searchsorted time y)%nat.
Proof.
  intros Inc Hxy.
  pose proof (leb_key_l _ _ Hxy) as Kx.
  pose proof (leb_key_r _ _ Hxy) as Ky.
  destruct (searchsorted_spec time x Inc Kx) as (Hx & Lx & _).
  destruct (searchsorted_spec time y Inc Ky) as (Hy & _ & Ry).
  destruct (Nat.le_gt_cases (searchsorted time x) (searchsorted time y))
    as [L|G]; trivial.
  exfalso.
  pose proof (Lx _ G) as B.
  pose proof (Ry (searchsorted time y) (Nat.le_refl _) ltac:(lia)) as NB.
  apply ltb_false_leb' in NB; auto using increasing_key with arith.
  2:{ apply increasing_key; [exact Inc|lia]. }
  pose proof (leb_ltb_trans _ _ _ NB B) as C.
  apply leb_ltb_false in Hxy. congruence.
Qed.

(** A key not above the last time is found within the axis. *)
Lemma searchsorted_within (time : list float) (v : float) :
  increasing time -> key v <> None ->
  (v <=? last time nan) = true ->
  (searchsorted time v < length time)%nat.
Proof.
  intros Inc Kv Hv. rewrite last_nth in Hv.
  destruct (searchsorted_spec time v Inc Kv) as (Hr & HL & _).
  destruct (Nat.eq_dec (searchsorted time v) (length time)) as [E|E]; [|lia].
  assert (Hne : (0 < length time)%nat).
  { destruct time; [|simpl; lia]. simpl in Hv.
    apply leb_key_r in Hv. exfalso. apply Hv. reflexivity. }
  apply leb_ltb_false in Hv. rewrite HL in Hv by lia. discriminate.
Qed.

(** A key above the last time is found past the axis. *)
Lemma searchsorted_past (time : list float) (v : float) :
  increasing time -> (last time nan <? v) = true ->
  searchsorted time v = length time.
Proof.
  intros Inc Hv. rewrite last_nth in Hv.
  pose proof (ltb_key_r _ _ Hv) as Kv.
  destruct (searchsorted_spec time v Inc Kv) as (Hr & _ & HR).
  destruct (Nat.eq_dec (searchsorted time v) (length time)) as [E|E]; trivial.
  rewrite (HR (length time - 1)%nat) in Hv by lia. discriminate.
Qed.

Lemma beyond_argmax (time : list float) (xmax : float) :
  time <> [] -> Preview.beyond xmax time = true ->
  argmax (ge_mask time xmax) = Ok O.
Proof.
  intros Hne Hb. unfold argmax.
  assert (F : first_true (ge_mask time xmax) = None).
  { apply first_true_none. intros i Hi.
    unfold Preview.beyond in Hb.
    pose proof (proj1 (forallb_forall _ _) Hb (nth i time nan)
                      (nth_In _ _ Hi)) as H.
    now apply negb_true_iff in H. }
  rewrite F. destruct time; [congruence|reflexivity].
Qed.

Lemma stop_then_play_log (data : list float) (sr : option Z) (b : bool)
      (dev : device) (l : log) :
  snd (seq_io (call sd_stop) (call (sd_play data sr b)) dev l)
  = l ++ sd_stop :: match dev (length l) with
                    | None => [sd_play data sr b]
                    | Some _ => []
                    end.
Proof.
  unfold seq_io, call. destruct (dev (length l)); cbn [snd].
  - reflexivity.
  - now rewrite <- app_assoc.
Qed.

End SelectionFacts.

Import SpanMapper.

(** X11.  The binary-search mapper never turns a selection round: on an
    increasing time axis, for any selection [xmin <= xmax], within the
    axis or not, the two indices of [np.searchsorted] come in order and
    neither is above the length of the axis. *)
Theorem span_indices_in_order (time : list float) (xmin xmax : float) :
  increasing time ->
  (xmin <=? xmax)%float = true ->
  exists ini end_,
    by_searchsorted time xmin xmax = (ini, end_) /\
    (ini <= end_ <= length time)%nat.
Proof.
  intros Inc Hsel.
  exists (Numpy.searchsorted time xmin), (Numpy.searchsorted time xmax).
  split; [reflexivity|]. split.
  - apply SelectionFacts.searchsorted_mono; assumption.
  - apply SpanMapperFacts.searchsorted_spec;
      [exact Inc | exact (SpanMapperFacts.leb_key_r _ _ Hsel)].
Qed.

(** X12.  The fragment [listen_fragment] keeps includes the sample at the
    end of the selection.  With as many samples as times on an increasing
    axis and [xmin <= xmax]: the fragment has
    min(end + 1, len) - ini samples; when [xmax] is not above the last
    time that is end - ini + 1, so a click without a drag keeps one
    sample; the fragment is empty exactly when [xmin] is above the last
    time. *)
Theorem noise_fragment_includes_end (self : Noise.t)
        (time audio : list float) (xmin xmax : float) :
  Noise.time self = Some time ->
  Noise.audio self = Some audio ->
  length audio = length time ->
  increasing time ->
  (xmin <=? xmax)%float = true ->
  let fragment :=
    Noise.selectedAudio (fst (Noise.listen_fragment self xmin xmax)) in
  let ini := Numpy.searchsorted time xmin in
  let end_ := Numpy.searchsorted time xmax in
  fragment = Numpy.slice audio ini (end_ + 1) /\
  length fragment = (Nat.min (end_ + 1) (length time) - ini)%nat /\
  ((xmax <=? last time nan)%float = true ->
   length fragment = (end_ - ini + 1)%nat) /\
  ((xmin <=? last time nan)%float = true -> fragment <> []) /\
  ((last time nan <? xmin)%float = true -> fragment = []).
Proof.
  intros Ht Ha Hlen Inc Hsel fragment ini end_.
  pose proof (SpanMapperFacts.leb_key_l _ _ Hsel) as Kmin.
  pose proof (SpanMapperFacts.leb_key_r _ _ Hsel) as Kmax.
  pose proof (SelectionFacts.searchsorted_mono time xmin xmax Inc Hsel) as Hmono.
  destruct (SpanMapperFacts.searchsorted_spec time xmax Inc Kmax)
    as (Hend & _ & _).
  fold ini end_ in Hmono, Hend.
  assert (Hf : fragment = Numpy.slice audio ini (end_ + 1)).
  { subst fragment. unfold Noise.listen_fragment. rewrite Ht, Ha.
    reflexivity. }
  assert (Hl : length fragment
               = (Nat.min (end_ + 1) (length time) - ini)%nat).
  { rewrite Hf, SelectionFacts.slice_length, Hlen. lia. }
  split; [exact Hf|]. split; [exact Hl|]. split; [|split].
  - intros Hmax.
    pose proof (SelectionFacts.searchsorted_within time xmax Inc Kmax Hmax)
      as Hin.
    fold end_ in Hin. rewrite Hl. lia.
  - intros Hmin.
    pose proof (SelectionFacts.searchsorted_within time xmin Inc Kmin Hmin)
      as Hin.
    fold ini in Hin. intros C. rewrite C in Hl. cbn in Hl. lia.
  - intros Hmin.
    pose proof (SelectionFacts.searchsorted_past time xmin Inc Hmin) as Hp.
    fold ini in Hp. apply length_zero_iff_nil. rewrite Hl. lia.
Qed.

(** X13.  The segment the pure-tone preview plays stops before the sample
    at the end of the selection.  With more than one sample, an
    increasing time axis and a selection within it, [on_select_region]
    stops the playback and, if that call succeeds, plays the samples from
    the least index at or after [xmin] up to, but without, the least
    index at or after [xmax]; a click without a drag plays an array
    without samples. *)
Theorem pure_tone_segment_excludes_end (self : PureTone.t)
        (time : list float) (xmin xmax : float)
        (dev : Sounddevice.device) (l : Sounddevice.log) :
  (1 < length (PureTone.selectedAudio self))%nat ->
  Numpy.linspace 0 (Binary64.Z2F (PureTone.Duration self) / 100)
                 (Z.of_nat (length (PureTone.selectedAudio self))) false
  = Ok time ->
  increasing time ->
  (xmin <=? xmax)%float = true ->
  (xmax <=? last time nan)%float = true ->
  exists idx_min idx_max segment,
    first_ge time xmin idx_min /\
    first_ge time xmax idx_max /\
    segment = Numpy.slice (PureTone.selectedAudio self) idx_min idx_max /\
    length segment = (idx_max - idx_min)%nat /\
    (idx_min = idx_max -> segment = []) /\
    snd (PureTone.on_select_region self xmin xmax dev l)
    = l ++ Sounddevice.sd_stop
        :: match dev (length l) with
           | None => [Sounddevice.sd_play segment
                                          (Some (PureTone.fs self)) false]
           | Some _ => []
           end.
Proof.
  intros Hn Hlin Inc Hsel Hmax.
  pose proof (SpanMapperFacts.leb_key_l _ _ Hsel) as Kmin.
  pose proof (SpanMapperFacts.leb_key_r _ _ Hsel) as Kmax.
  assert (Hlen : length time = length (PureTone.selectedAudio self)).
  { destruct (NumpyFacts.linspace_length
                0%float (Binary64.Z2F (PureTone.Duration self) / 100)%float
                (Z.of_nat (length (PureTone.selectedAudio self))) false
                ltac:(lia)) as (y & Hy & Hl).
    rewrite Hlin in Hy. injection Hy as <-. rewrite Hl. apply Nat2Z.id. }
  pose proof (SelectionFacts.searchsorted_within time xmax Inc Kmax Hmax)
    as Hin2.
  pose proof (SelectionFacts.searchsorted_mono time xmin xmax Inc Hsel)
    as Hmono.
  assert (Hin1 : (Numpy.searchsorted time xmin < length time)%nat) by lia.
  pose proof (SpanMapperFacts.searchsorted_first_ge time xmin Inc Kmin Hin1)
    as F1.
  pose proof (SpanMapperFacts.searchsorted_first_ge time xmax Inc Kmax Hin2)
    as F2.
  exists (Numpy.searchsorted time xmin), (Numpy.searchsorted time xmax),
    (Numpy.slice (PureTone.selectedAudio self)
                 (Numpy.searchsorted time xmin)
                 (Numpy.searchsorted time xmax)).
  split; [exact F1|]. split; [exact F2|]. split; [reflexivity|].
  split; [rewrite SelectionFacts.slice_length; lia|].
  split; [intros E; apply SelectionFacts.slice_nothing; lia|].
  unfold PureTone.on_select_region.
  replace (length (PureTone.selectedAudio self) <=? 1)%nat with false
    by (symmetry; apply Nat.leb_gt; exact Hn).
  rewrite Hlin. cbn [bind]. unfold by_argmax.
  rewrite (SpanMapperFacts.argmax_first_ge _ _ _ F1),
          (SpanMapperFacts.argmax_first_ge _ _ _ F2).
  cbn [bind]. apply SelectionFacts.stop_then_play_log.
Qed.

(** X14.  A selection drawn past the last sample plays nothing in the
    pure-tone and square-wave dialogs: when [xmax] lies beyond every time
    of the axis, [np.argmax] finds no time at or after it and answers 0,
    the slice ends at 0, and whatever [xmin] is, every [sd.play] of
    [on_select_region] is given an array without samples. *)
Theorem past_the_end_plays_nothing (xmin xmax : float)
        (dev : Sounddevice.device) (l : Sounddevice.log) :
  (forall (self : PureTone.t) (time : list float),
      Numpy.linspace 0 (Binary64.Z2F (PureTone.Duration self) / 100)
                     (Z.of_nat (length (PureTone.selectedAudio self))) false
      = Ok time ->
      Preview.beyond xmax time = true ->
      exists events,
        snd (PureTone.on_select_region self xmin xmax dev l) = l ++ events /\
        Preview.plays_nothing events = true) /\
  (forall (self : SquareWave.t) (time : list float),
      Numpy.linspace 0 (Binary64.Z2F (SquareWave.Duration self) / 100)
                     (Z.of_nat (length (SquareWave.selectedAudio self))) false
      = Ok time ->
      Preview.beyond xmax time = true ->
      exists events,
        snd (SquareWave.on_select_region self xmin xmax dev l) = l ++ events /\
        Preview.plays_nothing events = true).
Proof.
  split; intros self time Hlin Hb.
  - unfold PureTone.on_select_region.
    destruct (length (PureTone.selectedAudio self) <=? 1)%nat eqn:E.
    + exists []. cbn. now rewrite app_nil_r.
    + apply Nat.leb_gt in E. rewrite Hlin. cbn [bind].
      assert (Hne : time <> []).
      { destruct (NumpyFacts.linspace_length
                    0%float (Binary64.Z2F (PureTone.Duration self) / 100)%float
                    (Z.of_nat (length (PureTone.selectedAudio self))) false
                    ltac:(lia)) as (y & Hy & Hl).
        rewrite Hlin in Hy. injection Hy as <-. rewrite Nat2Z.id in Hl.
        intros ->. cbn in Hl. lia. }
      unfold by_argmax.
      rewrite (SelectionFacts.beyond_argmax time xmax Hne Hb).
      destruct (Numpy.argmax (Numpy.ge_mask time xmin)) as [idx_min|e];
        cbn [bind].
      * rewrite SelectionFacts.stop_then_play_log.
        rewrite SelectionFacts.slice_nothing by lia.
        eexists; split; [reflexivity|]. now destruct (dev (length l)).
      * exists []. cbn. now rewrite app_nil_r.
  - unfold SquareWave.on_select_region.
    destruct (length (SquareWave.selectedAudio self) <=? 1)%nat eqn:E.
    + exists []. cbn. now rewrite app_nil_r.
    + apply Nat.leb_gt in E. rewrite Hlin. cbn [bind].
      assert (Hne : time <> []).
      { destruct (NumpyFacts.linspace_length
                    0%float
                    (Binary64.Z2F (SquareWave.Duration self) / 100)%float
                    (Z.of_nat (length (SquareWave.selectedAudio self))) false
                    ltac:(lia)) as (y & Hy & Hl).
        rewrite Hlin in Hy. injection Hy as <-. rewrite Nat2Z.id in Hl.
        intros ->. cbn in Hl. lia. }
      unfold by_argmax.
      rewrite (SelectionFacts.beyond_argmax time xmax Hne Hb).
      destruct (Numpy.argmax (Numpy.ge_mask time xmin)) as [idx_min|e];
        cbn [bind].
      * rewrite SelectionFacts.stop_then_play_log.
        rewrite SelectionFacts.slice_nothing by lia.
        eexists; split; [reflexivity|]. now destruct (dev (length l)).
      * exists []. cbn. now rewrite app_nil_r.
Qed.

Lemma span_indices_in_order_witness :
  exists ini end_,
    by_searchsorted Fixtures.axis4 0.6 3 = (ini, end_) /\
    (ini <= end_ <= length Fixtures.axis4)%nat.
Proof.
  apply span_indices_in_order;
    [apply SpanMapperFacts.increasingb_sound; reflexivity | reflexivity].
Defined.

Lemma noise_fragment_includes_end_witness :
  let fragment :=
    Noise.selectedAudio
      (fst (Noise.listen_fragment (Scenes.plotted_widget 44100 [0]%float)
                                  0.3 0.3)) in
  let ini := Numpy.searchsorted Fixtures.axis4 0.3 in
  let end_ := Numpy.searchsorted Fixtures.axis4 0.3 in
  fragment = Numpy.slice [1; 2; 3; 4]%float ini (end_ + 1) /\
  length fragment = (Nat.min (end_ + 1) (length Fixtures.axis4) - ini)%nat /\
  ((0.3 <=? last Fixtures.axis4 nan)%float = true ->
   length fragment = (end_ - ini + 1)%nat) /\
  ((0.3 <=? last Fixtures.axis4 nan)%float = true -> fragment <> []) /\
  ((last Fixtures.axis4 nan <? 0.3)%float = true -> fragment = []).
Proof.
  apply (noise_fragment_includes_end
           (Scenes.plotted_widget 44100 [0]%float)
           Fixtures.axis4 [1; 2; 3; 4]%float 0.3 0.3);
    [reflexivity | reflexivity | reflexivity
     | apply SpanMapperFacts.increasingb_sound; reflexivity | reflexivity].
Defined.

(** A click at 0.3 s keeps the one sample at 0.5 s. *)
Example noise_click_keeps_one_sample :
  Noise.selectedAudio
    (fst (Noise.listen_fragment (Scenes.plotted_widget 44100 [0]%float)
                                0.3 0.3))
  = [3]%float.
Proof. reflexivity. Qed.

Lemma pure_tone_segment_excludes_end_witness :
  exists idx_min idx_max segment,
    first_ge Fixtures.axis4 0.2 idx_min /\
    first_ge Fixtures.axis4 0.6 idx_max /\
    segment = Numpy.slice (PureTone.selectedAudio Scenes.tone4)
                          idx_min idx_max /\
    length segment = (idx_max - idx_min)%nat /\
    (idx_min = idx_max -> segment = []) /\
    snd (PureTone.on_select_region Scenes.tone4 0.2 0.6
                                   Fixtures.sound_device [])
    = [] ++ Sounddevice.sd_stop
         :: match Fixtures.sound_device (length (@nil Sounddevice.event)) with
            | None => [Sounddevice.sd_play
                         segment (Some (PureTone.fs Scenes.tone4)) false]
            | Some _ => []
            end.
Proof.
  apply (pure_tone_segment_excludes_end Scenes.tone4 Fixtures.axis4 0.2 0.6
                                        Fixtures.sound_device []);
    [cbn; lia | reflexivity
     | apply SpanMapperFacts.increasingb_sound; reflexivity
     | reflexivity | reflexivity].
Defined.

(** On the axis 0, 0.25, 0.5, 0.75 the selection from 0.2 to 0.6 plays
    the samples at 0.25 and 0.5 in the pure-tone dialog, and a selection
    from 0.2 to 0.9 plays none. *)
Example pure_tone_selections :
  snd (PureTone.on_select_region Scenes.tone4 0.2 0.6
                                 Fixtures.sound_device [])
  = [Sounddevice.sd_stop;
     Sounddevice.sd_play [2; 3]%float (Some 44100%Z) false] /\
  snd (PureTone.on_select_region Scenes.tone4 0.2 0.9
                                 Fixtures.sound_device [])
  = [Sounddevice.sd_stop;
     Sounddevice.sd_play []%float (Some 44100%Z) false].
Proof. split; reflexivity. Qed.

Lemma past_the_end_plays_nothing_witness :
  exists events,
    snd (PureTone.on_select_region Scenes.tone4 0.2 0.9
                                   Fixtures.sound_device [])
    = [] ++ events /\
    Preview.plays_nothing events = true.
Proof.
  apply (proj1 (past_the_end_plays_nothing 0.2 0.9 Fixtures.sound_device [])
               Scenes.tone4 Fixtures.axis4);
    reflexivity.
Defined.

(** ** From the selection to the new window *)

Module HandoverFacts.

Import Binary64 Numpy Sounddevice Store FreeAdd StoreFacts FadeFacts.
Local Open Scope float_scope.

(** On a fresh copy the fade succeeds and keeps the number of samples. *)
Lemma apply_fade_fresh_ok (h : heap) (fs : Z) (sel : list float) :
  (0 <= fs <= 48000)%Z ->
  exists faded,
    apply_fade (h ++ [sel]) fs
               {| base := length h; off := 0; len := length sel |}
    = Ok (h ++ [faded]) /\
    length faded = length sel.
Proof.
  intros Hfs.
  destruct (fade_length_in_range fs Hfs) as (k & Hint & _ & Hk).
  set (L := length sel).
  set (f := Z.min k (Z.of_nat L / 4)).
  assert (Hfade : fade_samples_of fs L = Ok f).
  { unfold fade_samples_of. now rewrite Hint. }
  unfold apply_fade. cbn [len]. fold L. rewrite Hfade. cbn [bind].
  assert (H4 : (4 * f <= Z.of_nat L)%Z).
  { pose proof (Z.mul_div_le (Z.of_nat L) 4 ltac:(lia)). unfold f. lia. }
  destruct (0 <? f)%Z eqn:E.
  - apply Z.ltb_lt in E.
    destruct (fade_in_ok f ltac:(lia)) as (fi & Hfi & Lfi).
    destruct (fade_out_ok f ltac:(lia)) as (fo & Hfo & Lfo).
    rewrite Hfi, Hfo. cbn [bind].
    destruct (fade_products h sel fi fo f ltac:(lia) H4 Lfi Lfo)
      as (faded & Hp & Lf & _).
    exists faded. split; [exact Hp | exact Lf].
  - exists sel. split; reflexivity.
Qed.

(** An array on an old buffer reads the same once a buffer is added. *)
Lemma read_old (h : heap) (x : list float) (a : ndarray) :
  (base a < length h)%nat -> read (h ++ [x]) a = read h a.
Proof. intros H. unfold read. rewrite buffer_old by lia. reflexivity. Qed.

End HandoverFacts.

(** X15.  What "Load to Controller" hands over after a selection is what
    the selection played.  For a sample rate from 1 to 48000 and a signal
    of more than one sample, [onselect] asks the device, after a stop, to
    play the faded copy it stores in [selectedAudio]; when that copy has
    more than one sample and the two ends of the span are finite numbers
    [load_to_controller] hands the same samples over, titled with the
    two ends of the span, with the duration len / fs; when it has one
    sample or none, the whole signal is handed over instead. *)
Theorem selection_is_handed_over (h : Store.heap) (self : FreeAdd.t)
        (xmin xmax : float) :
  (1 <= FreeAdd.fs self <= 48000)%Z ->
  (1 < Store.len (FreeAdd.full_audio self))%nat ->
  (Store.base (FreeAdd.full_audio self) < length h)%nat ->
  let r := FreeAdd.onselect h self xmin xmax in
  let h' := fst (fst r) in
  let self' := snd (fst r) in
  let segment := Store.read h' (FreeAdd.selectedAudio self') in
  snd r
  = Sounddevice.try_print
      (Sounddevice.seq_io
         (Sounddevice.call Sounddevice.sd_stop)
         (Sounddevice.call
            (Sounddevice.sd_play segment (Some (FreeAdd.fs self)) false))) /\
  ((1 < length segment)%nat ->
   Binary64.finite xmin = true -> Binary64.finite xmax = true ->
   FreeAddLoad.load_to_controller h' self'
   = Some {| FreeAddLoad.window_title :=
               FreeAddLoad.FreeAdditionSpan xmin xmax;
             FreeAddLoad.window_fs := FreeAdd.fs self;
             FreeAddLoad.audio_to_load := segment;
             FreeAddLoad.duration :=
               (Binary64.Z2F (Z.of_nat (length segment))
                / Binary64.Z2F (FreeAdd.fs self))%float |}) /\
  ((length segment <= 1)%nat ->
   FreeAddLoad.load_to_controller h' self'
   = Some {| FreeAddLoad.window_title := FreeAddLoad.FreeAddition;
             FreeAddLoad.window_fs := FreeAdd.fs self;
             FreeAddLoad.audio_to_load :=
               Store.read h (FreeAdd.full_audio self);
             FreeAddLoad.duration := FreeAdd.audio_duration self |}).
Proof.
  intros Hfs Hn Hb. cbv zeta. unfold FreeAdd.onselect.
  replace (Store.len (FreeAdd.full_audio self) <=? 1)%nat with false
    by (symmetry; apply Nat.leb_gt; exact Hn).
  destruct (SpanMapper.by_searchsorted _ _ _) as [ini end_].
  unfold Store.copy, Store.alloc.
  set (x := Store.read h _).
  cbn [FreeAdd.fs FreeAdd.set_selected_span].
  destruct (HandoverFacts.apply_fade_fresh_ok h (FreeAdd.fs self) x
              ltac:(lia)) as (faded & Hfade & Hlen).
  rewrite Hfade. cbn [fst snd FreeAdd.selectedAudio FreeAdd.set_selectedAudio
                      FreeAdd.fs FreeAdd.set_selected_span].
  assert (R : Store.read (h ++ [faded])
                {| Store.base := length h; Store.off := 0;
                   Store.len := length x |} = faded).
  { rewrite <- Hlen. apply read_fresh. }
  rewrite R. split; [reflexivity|].
  unfold FreeAddLoad.load_to_controller.
  cbn [FreeAdd.selectedAudio FreeAdd.set_selectedAudio FreeAdd.fs
       FreeAdd.set_selected_span FreeAdd.selected_span FreeAdd.full_audio
       FreeAdd.audio_duration Store.len].
  rewrite R, <- Hlen. split.
  - intros Hseg Fmin Fmax. apply Nat.ltb_lt in Hseg. rewrite Hseg.
    replace (FreeAdd.fs self =? 0)%Z with false
      by (symmetry; apply Z.eqb_neq; lia).
    unfold FreeAddLoad.format_timestamp_ok. rewrite Fmin, Fmax.
    reflexivity.
  - intros Hseg. apply Nat.ltb_ge in Hseg. rewrite Hseg.
    rewrite HandoverFacts.read_old by exact Hb. reflexivity.
Qed.

(** X16.  A selection outlives the replot: once a selection of more than
    one sample is stored, [plotFAPT] with whatever frequencies and
    amplitudes, whether it succeeds or raises, leaves
    [load_to_controller] handing over what it handed over before: the
    old selection, not the signal now on the plot. *)
Theorem replot_keeps_selection (np_sin : float -> float) (h : Store.heap)
        (self : FreeAdd.t) :
  (Store.base (FreeAdd.selectedAudio self) < length h)%nat ->
  (1 < Store.len (FreeAdd.selectedAudio self))%nat ->
  let r := FreeAdd.plotFAPT np_sin h self in
  FreeAddLoad.load_to_controller (fst (fst r)) (snd (fst r))
  = FreeAddLoad.load_to_controller h self.
Proof.
  intros Hb Hn. cbv zeta. unfold FreeAdd.plotFAPT.
  apply Nat.ltb_lt in Hn.
  destruct (FreeAdd.synthesize _ _ _ _ _) as [[time signal]|e];
    [|reflexivity].
  unfold Store.alloc.
  assert (K : forall self',
             FreeAdd.selectedAudio self' = FreeAdd.selectedAudio self ->
             FreeAdd.selected_span self' = FreeAdd.selected_span self ->
             FreeAdd.fs self' = FreeAdd.fs self ->
             FreeAddLoad.load_to_controller (h ++ [signal]) self'
             = FreeAddLoad.load_to_controller h self).
  { intros self' Ks Kp Kf. unfold FreeAddLoad.load_to_controller.
    rewrite Ks, Kp, Kf, Hn.
    rewrite HandoverFacts.read_old by exact Hb. reflexivity. }
  destruct (Numpy.py_max _) as [p|e]; cbn [fst snd].
  - unfold FreeAdd.addLoadButton.
    destruct (Numpy.linspace _ _ _ _) as [t|e]; cbn [fst snd];
      apply K; reflexivity.
  - apply K; reflexivity.
Qed.

(** ** The harmonic boxes *)

Module BoxFacts.

Import Piano.
Local Open Scope R_scope.



End BoxFacts.


Lemma selection_is_handed_over_witness :
  let r := FreeAdd.onselect [Fixtures.ten_ones] Fixtures.dialog 0.1 0.35 in
  let h' := fst (fst r) in
  let self' := snd (fst r) in
  let segment := Store.read h' (FreeAdd.selectedAudio self') in
  (1 < length segment)%nat /\
  FreeAddLoad.load_to_controller h' self'
  = Some {| FreeAddLoad.window_title :=
              FreeAddLoad.FreeAdditionSpan 0.1 0.35;
            FreeAddLoad.window_fs := FreeAdd.fs Fixtures.dialog;
            FreeAddLoad.audio_to_load := segment;
            FreeAddLoad.duration :=
              (Binary64.Z2F (Z.of_nat (length segment))
               / Binary64.Z2F (FreeAdd.fs Fixtures.dialog))%float |}.
Proof.
  assert (H : (1 < length (Store.read
                             (fst (fst (FreeAdd.onselect
                                          [Fixtures.ten_ones]
                                          Fixtures.dialog 0.1 0.35)))
                             (FreeAdd.selectedAudio
                                (snd (fst (FreeAdd.onselect
                                             [Fixtures.ten_ones]
                                             Fixtures.dialog 0.1 0.35))))))%nat)
    by (vm_compute; lia).
  split; [exact H|].
  apply (selection_is_handed_over [Fixtures.ten_ones] Fixtures.dialog
                                  0.1 0.35);
    [cbn; lia | cbn; lia | cbn; lia | exact H | reflexivity | reflexivity].
Defined.

(** The selection from 0.1 s to 0.35 s of ten ones is handed over as the
    four samples 0, 1, 1, 1 it played, with the duration 4 / 48000. *)
Example selection_handed_over :
  let r := FreeAdd.onselect [Fixtures.ten_ones] Fixtures.dialog 0.1 0.35 in
  FreeAddLoad.load_to_controller (fst (fst r)) (snd (fst r))
  = Some {| FreeAddLoad.window_title :=
              FreeAddLoad.FreeAdditionSpan 0.1 0.35;
            FreeAddLoad.window_fs := 48000;
            FreeAddLoad.audio_to_load := [0; 1; 1; 1]%float;
            FreeAddLoad.duration := (4 / 48000)%float |}.
Proof. reflexivity. Qed.

Lemma replot_keeps_selection_witness :
  let r := FreeAdd.plotFAPT (fun x => x) [Fixtures.ten_ones]
                            Fixtures.dialog in
  FreeAddLoad.load_to_controller (fst (fst r)) (snd (fst r))
  = FreeAddLoad.load_to_controller [Fixtures.ten_ones] Fixtures.dialog.
Proof.
  apply (replot_keeps_selection (fun x => x) [Fixtures.ten_ones]
                                Fixtures.dialog);
    cbn; lia.
Defined.


(** ** The sound of a piano key *)

Module NoteFacts.

Import Binary64 Numpy Store FreeAdd PianoNote.
Local Open Scope float_scope.

Lemma note_length_checked :
  forallb note_length_ok (zrange 0 (Z.to_nat 48001)) = true.
Proof. vm_compute. reflexivity. Qed.

Lemma note_length_in_range (fs : Z) :
  (0 <= fs <= 48000)%Z ->
  exists k,
    py_int (0.5 * Z2F fs) = Ok (fs / 2)%Z /\
    py_int (0.02 * Z2F fs) = Ok k /\
    floor (0.02 * Z2F fs) = Some k /\
    (0 <= k <= 960)%Z /\ (4 * k <= fs / 2)%Z.
Proof.
  intros H.
  destruct (FadeFacts.fade_length_in_range fs H) as (k & Hk & Hf & Hr).
  exists k.
  assert (C : note_length_ok fs = true).
  { apply (proj1 (forallb_forall _ _) note_length_checked).
    apply FadeFacts.zrange_in. lia. }
  unfold note_length_ok in C. rewrite Hk in C.
  destruct (py_int (0.5 * Z2F fs)) as [n|e]; [|discriminate].
  apply andb_prop in C as [Cn C4].
  apply Z.eqb_eq in Cn. apply Z.leb_le in C4. subst n.
  repeat split; trivial; lia.
Qed.

Lemma nth_map_in {A : Type} (f : A -> float) (l : list A) (i : nat) (d : A) :
  (i < length l)%nat -> nth i (map f l) nan = f (nth i l d).
Proof.
  intros H. rewrite <- (map_nth f l d i).
  apply nth_indep. now rewrite length_map.
Qed.

End NoteFacts.

(** X18.  A piano key sounds without a click.  With the piano shown, a
    frequency Python can compute, a sample rate from 0 to 48000 and a
    mix that is finite at the times of the axis, the signal
    [playPianoNote] writes has [fs // 2] samples (half a second); with
    [k = floor(0.02 * fs)], its first sample is zero when
    [k >= 1], its last one too when [k >= 2], and the samples from index
    [k] up to, not including, [fs // 2 - k] are the mix
    0.6 sin(2 pi f t) + 0.3 sin(2 pi 2 f t) + 0.1 sin(2 pi 3 f t) at
    their time. *)
Theorem piano_note_is_click_free
        (np_sin : float -> float) (pow2 : float -> result float)
        (self : FreeAdd.t) (note_value octave : Z) (frequency : float) :
  FreeAdd.octave_spinbox self = Some octave ->
  PianoNote.frequency_of pow2 (Piano.midi_note note_value octave)
  = Ok frequency ->
  (0 <= FreeAdd.fs self <= 48000)%Z ->
  PianoNote.finite_mix np_sin frequency (FreeAdd.fs self / 2) = true ->
  let samples := (FreeAdd.fs self / 2)%Z in
  exists k time signal,
    Binary64.floor (0.02 * Binary64.Z2F (FreeAdd.fs self))%float = Some k /\
    Numpy.linspace 0 0.5 samples false = Ok time /\
    PianoNote.playPianoNote_signal np_sin pow2 self note_value = Ok signal /\
    Z.of_nat (length signal) = samples /\
    length time = length signal /\
    ((1 <= k)%Z -> Binary64.is_zero_val (nth 0 signal nan) = true) /\
    ((2 <= k)%Z -> Binary64.is_zero_val (last signal nan) = true) /\
    (forall i : nat,
        (k <= Z.of_nat i)%Z -> (Z.of_nat i < samples - k)%Z ->
        nth i signal nan
        = PianoNote.note_sample np_sin frequency (nth i time nan)).
Proof.
  intros Ho Hfreq Hfs Hfin samples.
  destruct (NoteFacts.note_length_in_range _ Hfs)
    as (k & Hn & Hk & Hfloor & Hkr & H4).
  fold samples in Hn, H4.
  assert (Hs : (0 <= samples)%Z) by (unfold samples; apply Z.div_pos; lia).
  destruct (NumpyFacts.linspace_length 0%float 0.5%float samples false Hs)
    as (time & Ht & Lt).
  exists k, time.
  unfold PianoNote.playPianoNote_signal. rewrite Ho, Hfreq. cbn [bind].
  rewrite Hn. cbn [bind]. rewrite Hk. cbn [bind].
  rewrite Ht. cbn [bind].
  set (raw := map (PianoNote.note_sample np_sin frequency) time).
  assert (Lraw : length raw = length time) by apply length_map.
  assert (Nraw : forall i, (i < length time)%nat ->
                           nth i raw nan
                           = PianoNote.note_sample np_sin frequency
                                                   (nth i time nan)).
  { intros i Hi. apply NoteFacts.nth_map_in. exact Hi. }
  assert (Fraw : forall i, (i < length time)%nat ->
                           Binary64.finite (nth i raw nan) = true).
  { intros i Hi. rewrite Nraw by exact Hi.
    unfold PianoNote.finite_mix in Hfin. fold samples in Hfin.
    rewrite Ht in Hfin. rewrite forallb_forall in Hfin.
    apply Hfin. now apply nth_In. }
  unfold Store.alloc. cbn [length app].
  destruct (0 <? k)%Z eqn:E.
  - apply Z.ltb_lt in E.
    destruct (FadeFacts.fade_in_ok k ltac:(lia)) as (fi & Hfi & Lfi).
    destruct (FadeFacts.fade_out_ok k ltac:(lia)) as (fo & Hfo & Lfo).
    rewrite Hfi, Hfo. cbn [bind].
    assert (H4' : (4 * k <= Z.of_nat (length raw))%Z) by lia.
    destruct (FadeFacts.fade_products [] raw fi fo k ltac:(lia) H4' Lfi Lfo)
      as (faded & Hp & Lf & N1 & N2 & N3).
    cbn [length app] in Hp.
    destruct (Store.imul [raw] _ fi) as [h1|e] eqn:E1;
      [|cbn [bind] in Hp; discriminate].
    cbn [bind] in Hp |- *. rewrite Hp. cbn [bind].
    assert (R : Store.read [faded]
                  {| Store.base := 0; Store.off := 0;
                     Store.len := length raw |} = faded).
    { rewrite <- Lf. apply (read_fresh [] faded). }
    rewrite R. exists faded.
    split; [exact Hfloor|]. split; [reflexivity|]. split; [reflexivity|].
    split; [lia|]. split; [lia|]. split; [|split].
    + intros _. rewrite N1 by lia. apply FadeFacts.mul_zero_val.
      * apply Fraw. lia.
      * apply (FadeFacts.fade_in_first k); trivial. lia.
    + intros H2. rewrite SpanMapperFacts.last_nth, Lf.
      replace (length raw - 1)%nat
        with (length raw - Z.to_nat k + (Z.to_nat k - 1))%nat by lia.
      rewrite N3 by lia. apply FadeFacts.mul_zero_val.
      * apply Fraw. lia.
      * replace (Z.to_nat k - 1)%nat with (length fo - 1)%nat by lia.
        rewrite <- SpanMapperFacts.last_nth.
        now apply (FadeFacts.fade_out_last k).
    + intros i Hi1 Hi2. rewrite N2 by lia. apply Nraw. lia.
  - apply Z.ltb_ge in E.
    assert (R : Store.read [raw]
                  {| Store.base := 0; Store.off := 0;
                     Store.len := length raw |} = raw)
      by apply (read_fresh [] raw).
    rewrite R. exists raw.
    split; [exact Hfloor|]. split; [reflexivity|]. split; [reflexivity|].
    split; [lia|]. split; [lia|]. split; [|split].
    + intros C. lia.
    + intros C. lia.
    + intros i Hi1 Hi2. apply Nraw. lia.
Qed.

Lemma piano_note_is_click_free_witness :
  let samples := (FreeAdd.fs Scenes.slow_dialog / 2)%Z in
  exists k time signal,
    Binary64.floor (0.02 * Binary64.Z2F (FreeAdd.fs Scenes.slow_dialog))%float
    = Some k /\
    Numpy.linspace 0 0.5 samples false = Ok time /\
    PianoNote.playPianoNote_signal Scenes.bump Scenes.pow2_at_zero
                                   Scenes.slow_dialog 21 = Ok signal /\
    Z.of_nat (length signal) = samples /\
    length time = length signal /\
    ((1 <= k)%Z -> Binary64.is_zero_val (nth 0 signal nan) = true) /\
    ((2 <= k)%Z -> Binary64.is_zero_val (last signal nan) = true) /\
    (forall i : nat,
        (k <= Z.of_nat i)%Z -> (Z.of_nat i < samples - k)%Z ->
        nth i signal nan
        = PianoNote.note_sample Scenes.bump 440 (nth i time nan)).
Proof.
  apply (piano_note_is_click_free Scenes.bump Scenes.pow2_at_zero
                                  Scenes.slow_dialog 21 4 440%float);
    [reflexivity | reflexivity | cbn; lia | vm_compute; reflexivity].
Defined.

(** The note of the witness at a sample rate of 200: a hundred samples,
    four of them faded in and four faded out; the sample at a quarter of
    a second is the mix itself and is not zero, the one before the last
    is the mix times the ramp. *)
Example piano_note_evaluated :
  exists time signal,
    Numpy.linspace 0 0.5 100 false = Ok time /\
    PianoNote.playPianoNote_signal Scenes.bump Scenes.pow2_at_zero
                                   Scenes.slow_dialog 21 = Ok signal /\
    length signal = 100%nat /\
    nth 50 time nan = 0.25%float /\
    nth 50 signal nan = PianoNote.note_sample Scenes.bump 440 0.25 /\
    Binary64.is_zero_val (nth 50 signal nan) = false /\
    nth 98 signal nan
    = (PianoNote.note_sample Scenes.bump 440 (nth 98 time nan)
       * FreeAdd.ramp_item 1 0 4 2)%float /\
    Binary64.is_zero_val (nth 98 signal nan) = false /\
    Binary64.is_zero_val (nth 0 signal nan) = true /\
    Binary64.is_zero_val (nth 99 signal nan) = true.
Proof.
  eexists. eexists. split; [vm_compute; reflexivity|].
  split; [vm_compute; reflexivity|]. repeat split.
Qed.

(** ** The piano window *)

Module WindowFacts.

Import PianoWindow.

(** From the start the dialog is in one of three states. *)
Lemma run_init (actions : list action) :
  run actions init = init \/ run actions init = shown
  \/ run actions init = closed.
Proof.
  assert (G : forall s, s = init \/ s = shown \/ s = closed ->
                        run actions s = init \/ run actions s = shown
                        \/ run actions s = closed).
  { induction actions as [|a rest IH]; intros s Hs; [exact Hs|].
    cbn [run]. apply IH.
    destruct Hs as [->|[->| ->]]; destruct a; cbn; auto. }
  apply G. auto.
Qed.

(** Once closed, nothing changes any more. *)
Lemma run_closed (actions : list action) : run actions closed = closed.
Proof.
  induction actions as [|a rest IH]; [reflexivity|].
  cbn [run]. destruct a; cbn; exact IH.
Qed.

End WindowFacts.

(** X19.  The piano window opens once.  Once the piano has been shown and
    its window closed, whatever the user does afterwards - clicks on the
    "Piano" button, attempts to close a window that is not there - the
    piano window never exists again, the flag [pianoOpen] stays set, and
    every click on "Piano" ends in an AttributeError from
    [self.piano.close()], leaving everything as it was. *)
Theorem piano_window_opens_once (before after : list PianoWindow.action) :
  let s1 := PianoWindow.run before PianoWindow.init in
  PianoWindow.piano s1 = true ->
  let s2 := fst (PianoWindow.act PianoWindow.ClosePianoWindow s1) in
  let s3 := PianoWindow.run after s2 in
  PianoWindow.piano s3 = false /\
  PianoWindow.pianoOpen s3 = true /\
  PianoWindow.possible PianoWindow.ClickPiano s3 = true /\
  PianoWindow.act PianoWindow.ClickPiano s3 = (s3, Raise AttributeError).
Proof.
  intros s1 Hshown s2 s3.
  assert (E1 : s1 = PianoWindow.shown).
  { destruct (WindowFacts.run_init before) as [E|[E|E]];
      fold s1 in E; rewrite E in Hshown |- *;
      [discriminate Hshown | reflexivity | discriminate Hshown]. }
  assert (E2 : s2 = PianoWindow.closed) by (subst s2; rewrite E1; reflexivity).
  assert (E3 : s3 = PianoWindow.closed)
    by (subst s3; rewrite E2; apply WindowFacts.run_closed).
  rewrite E3. repeat split.
Qed.

Lemma piano_window_opens_once_witness :
  let s1 := PianoWindow.run [PianoWindow.ClickPiano] PianoWindow.init in
  let s2 := fst (PianoWindow.act PianoWindow.ClosePianoWindow s1) in
  let s3 := PianoWindow.run [PianoWindow.ClickPiano; PianoWindow.ClickPiano]
                            s2 in
  PianoWindow.piano s3 = false /\
  PianoWindow.pianoOpen s3 = true /\
  PianoWindow.possible PianoWindow.ClickPiano s3 = true /\
  PianoWindow.act PianoWindow.ClickPiano s3 = (s3, Raise AttributeError).
Proof.
  apply (piano_window_opens_once
           [PianoWindow.ClickPiano]
           [PianoWindow.ClickPiano; PianoWindow.ClickPiano]).
  reflexivity.
Defined.
